(** * online-video-downloader: the decision logic of [app.py]

    A shallow embedding of the pure and the effectful parts of [app.py] that
    its specification talks about: URL classification, the certificate retry
    of the extractor call, entry flattening, the format selector, title
    normalisation and the location of the downloaded file.

    Conventions of the embedding.
    - A Python [str] is a [string]; its characters are read as ASCII code
      points, on which [str.strip], [str.lower], [str.upper] and the regular
      expression class [\s] are the functions below.
    - A Python value decoded from JSON is a [pyval]; a [dict] is an
      association list in insertion order, looked up by first match.
    - A Python [float] is a binary64 number, a [spec_float] with the
      operations of [SpecFloat] at precision 53 and maximal exponent 1024.
    - A raised exception is the [Raise] outcome of [result].
    - What the interpreter's library does and this file does not spell out
      (the [repr] of floats and containers, parsing numbers out of strings,
      the order [list.sort] leaves incomparable keys in) is a field of the
      class [PyRuntime], and [str.isdigit] is the field of the class
      [StrDigits]; [urlparse], the extractor process and the file system
      are variables of the sections that use them. *)

From Stdlib Require Import ZArith Ascii String List Lia DecimalString DecimalPos
  Sorting.Sorted.
From Stdlib Require Import Floats.SpecFloat.
From stdpp Require Import base option list gmap strings sorting.

Set Default Proof Using "Type".
Set Warnings "-register-all,-clear-no-such-hyp".

(** ** Exceptions and results *)

Inductive exn :=
| TypeError
| ValueError
| OverflowError
| AttributeError
| KeyError
| IndexError
| OSError
| DownloaderError (msg : string).

Inductive result (A : Type) :=
| Ok (a : A)
| Raise (e : exn).
Arguments Ok {A} a.
Arguments Raise {A} e.

#[global] Instance result_ret : MRet result := λ A a, Ok a.
#[global] Instance result_bind : MBind result := λ A B f m,
  match m with
  | Ok a => f a
  | Raise e => Raise e
  end.

(** A loop whose body may raise: the state is threaded left to right and the
    first exception ends the loop. *)
Fixpoint foldlM {S A : Type} (f : S → A → result S) (s : S) (l : list A) : result S :=
  match l with
  | [] => Ok s
  | x :: l' => s' ← f s x; foldlM f s' l'
  end.

Fixpoint mapM_result {A B : Type} (f : A → result B) (l : list A) : result (list B) :=
  match l with
  | [] => Ok []
  | x :: l' => y ← f x; ys ← mapM_result f l'; Ok (y :: ys)
  end.

(** ** Python strings *)

Module Str.

Definition in_range (lo hi : nat) (c : ascii) : bool :=
  let n := nat_of_ascii c in (lo <=? n)%nat && (n <=? hi)%nat.

(** [str.isspace] on one ASCII character: TAB, LF, VT, FF, CR, the four
    separators FS, GS, RS, US, and the space. *)
Definition isspace (c : ascii) : bool :=
  in_range 9 13 c || in_range 28 32 c.

Definition lower_char (c : ascii) : ascii :=
  if in_range 65 90 c then ascii_of_nat (nat_of_ascii c + 32) else c.

Definition upper_char (c : ascii) : ascii :=
  if in_range 97 122 c then ascii_of_nat (nat_of_ascii c - 32) else c.

Fixpoint map_chars (f : ascii → ascii) (s : string) : string :=
  match s with
  | EmptyString => EmptyString
  | String c s' => String (f c) (map_chars f s')
  end.

Definition lower : string → string := map_chars lower_char.
Definition upper : string → string := map_chars upper_char.

Fixpoint lstrip (s : string) : string :=
  match s with
  | EmptyString => EmptyString
  | String c s' => if isspace c then lstrip s' else s
  end.

Definition rstrip (s : string) : string := String.rev (lstrip (String.rev s)).

Definition strip (s : string) : string := rstrip (lstrip s).

Definition is_empty (s : string) : bool :=
  match s with
  | EmptyString => true
  | String _ _ => false
  end.

Definition eqb (s t : string) : bool := bool_decide (s = t).

Fixpoint startswith (s p : string) : bool :=
  match p, s with
  | EmptyString, _ => true
  | String _ _, EmptyString => false
  | String a p', String b s' => bool_decide (a = b) && startswith s' p'
  end.

Definition endswith (s p : string) : bool :=
  startswith (String.rev s) (String.rev p).

(** [needle in hay] *)
Fixpoint contains (hay needle : string) : bool :=
  startswith hay needle ||
  match hay with
  | EmptyString => false
  | String _ hay' => contains hay' needle
  end.

(** [s.split(sep)[0]] for a one-character separator: the text before the
    first separator, the whole string when there is none. *)
Fixpoint before (sep : ascii) (s : string) : string :=
  match s with
  | EmptyString => EmptyString
  | String c s' => if bool_decide (c = sep) then EmptyString else String c (before sep s')
  end.

(** [re.sub(r"\s+", " ", s)]: every maximal run of whitespace becomes one
    space. The flag says that the previous character was whitespace. *)
Fixpoint sub_spaces (in_run : bool) (s : string) : string :=
  match s with
  | EmptyString => EmptyString
  | String c s' =>
      if isspace c
      then (if in_run then sub_spaces true s' else String " " (sub_spaces true s'))
      else String c (sub_spaces false s')
  end.

(** [s[:n]] *)
Fixpoint take (n : nat) (s : string) : string :=
  match n, s with
  | O, _ => EmptyString
  | S _, EmptyString => EmptyString
  | S n', String c s' => String c (take n' s')
  end.

(** [sep.join(parts)] *)
Fixpoint join (sep : string) (parts : list string) : string :=
  match parts with
  | [] => ""
  | [p] => p
  | p :: ps => p +:+ sep +:+ join sep ps
  end.

(** [str(n)] for an [int]. *)
Definition of_Z (n : Z) : string := NilZero.string_of_int (Z.to_int n).

End Str.

(** ** Binary64 floats *)

Module F64.

Definition prec : Z := 53.
Definition emax : Z := 1024.

Definition add : spec_float → spec_float → spec_float := SFadd prec emax.
Definition div : spec_float → spec_float → spec_float := SFdiv prec emax.
Definition ltb : spec_float → spec_float → bool := SFltb.
Definition leb : spec_float → spec_float → bool := SFleb.

(** The float nearest to [m * 2^e], ties to even. *)
Definition make (m e : Z) : spec_float := binary_normalize prec emax m e false.

Definition is_nan (x : spec_float) : bool :=
  match x with
  | S754_nan => true
  | _ => false
  end.

(** [float(n)] for an [int]: the nearest float; an [int] beyond the range
    of the finite floats raises. *)
Definition of_Z (n : Z) : result spec_float :=
  match make n 0 with
  | S754_infinity _ => Raise OverflowError
  | x => Ok x
  end.

(** [int(x)]: truncation towards zero. *)
Definition trunc (x : spec_float) : result Z :=
  match x with
  | S754_nan => Raise ValueError
  | S754_infinity _ => Raise OverflowError
  | S754_zero _ => Ok 0%Z
  | S754_finite s m e => Ok (cond_Zopp s (Z.shiftl (Z.pos m) e))
  end.

(** [round(x)]: the nearest integer, ties to even. *)
Definition round_half_even (m : positive) (e : Z) : Z :=
  if (0 <=? e)%Z then Z.shiftl (Z.pos m) e
  else
    let q := Z.shiftl (Z.pos m) e in
    let r := (Z.pos m - Z.shiftl q (- e))%Z in
    let half := Z.shiftl 1 (- e - 1) in
    match (r ?= half)%Z with
    | Lt => q
    | Gt => (q + 1)%Z
    | Eq => if Z.even q then q else (q + 1)%Z
    end.

Definition round (x : spec_float) : result Z :=
  match x with
  | S754_nan => Raise ValueError
  | S754_infinity _ => Raise OverflowError
  | S754_zero _ => Ok 0%Z
  | S754_finite s m e => Ok (cond_Zopp s (round_half_even m e))
  end.

End F64.

(** ** Sorting

    [sorted(xs, key=k, reverse=True)] and [xs.sort(key=k, reverse=True)] are
    stable: elements whose keys are equal keep their order. [sort_desc] is
    that order when [<] orders the keys totally. *)

Section Sort.
Context {A K : Type} (lt : K → K → bool) (key : A → K).

(** [x] goes behind every element whose key is not below its own. *)
Fixpoint insert_desc (x : A) (l : list A) : list A :=
  match l with
  | [] => [x]
  | y :: l' => if lt (key y) (key x) then x :: l else y :: insert_desc x l'
  end.

Definition sort_desc (l : list A) : list A :=
  foldl (λ acc x, insert_desc x acc) [] l.
End Sort.

(** ** Python values *)

Inductive pyval :=
| PNone
| PBool (b : bool)
| PInt (n : Z)
| PFloat (x : spec_float)
| PStr (s : string)
| PList (l : list pyval)
| PDict (d : list (string * pyval)).

Abbreviation pydict := (list (string * pyval)).

Fixpoint dict_lookup (d : pydict) (k : string) : option pyval :=
  match d with
  | [] => None
  | (k', v) :: d' => if bool_decide (k' = k) then Some v else dict_lookup d' k
  end.

(** [d.get(k)] *)
Definition dict_get (d : pydict) (k : string) : pyval :=
  default PNone (dict_lookup d k).

(** The truth value of an object. *)
Definition truthy (v : pyval) : bool :=
  match v with
  | PNone => false
  | PBool b => b
  | PInt n => negb (n =? 0)%Z
  | PFloat (S754_zero _) => false
  | PFloat _ => true
  | PStr s => negb (Str.is_empty s)
  | PList l => match l with [] => false | _ => true end
  | PDict d => match d with [] => false | _ => true end
  end.

(** [v or w] *)
Definition py_or (v w : pyval) : pyval := if truthy v then v else w.

(** What the interpreter's library computes and this development takes as
    given. [list_sort_desc] is [list.sort(reverse=True)] on elements paired
    with their float keys: always a rearrangement, and the stable descending
    order when no key is NaN (with a NaN key the comparisons are not an order
    and the result depends on the runs Timsort finds). *)
Class PyRuntime := {
  py_repr : pyval → string;
  int_of_str : string → option Z;
  float_of_str : string → option spec_float;
  list_sort_desc : ∀ A : Type, list (spec_float * A) → list (spec_float * A);
  list_sort_desc_perm : ∀ A (l : list (spec_float * A)), list_sort_desc A l ≡ₚ l;
  list_sort_desc_ordered : ∀ A (l : list (spec_float * A)),
    Forall (λ p, p.1 ≠ S754_nan) l → list_sort_desc A l = sort_desc F64.ltb fst l
}.
Arguments list_sort_desc {_ _} l.

Section Builtins.
Context {rt : PyRuntime}.

(** [str(v)] *)
Definition py_str (v : pyval) : string :=
  match v with
  | PStr s => s
  | PNone => "None"
  | PBool true => "True"
  | PBool false => "False"
  | PInt n => Str.of_Z n
  | PFloat _ | PList _ | PDict _ => py_repr v
  end.

(** [float(v)] *)
Definition py_float (v : pyval) : result spec_float :=
  match v with
  | PFloat x => Ok x
  | PInt n => F64.of_Z n
  | PBool b => F64.of_Z (if b then 1 else 0)
  | PStr s => match float_of_str s with Some x => Ok x | None => Raise ValueError end
  | PNone | PList _ | PDict _ => Raise TypeError
  end.

(** [int(v)] *)
Definition py_int (v : pyval) : result Z :=
  match v with
  | PInt n => Ok n
  | PBool b => Ok (if b then 1 else 0)%Z
  | PFloat x => F64.trunc x
  | PStr s => match int_of_str s with Some n => Ok n | None => Raise ValueError end
  | PNone | PList _ | PDict _ => Raise TypeError
  end.

End Builtins.

(** ** The format selector ([format_score], [build_download_options]) *)

Inductive Mode := Auto | Video | Audio.

Record DownloadOption := {
  value : string;
  label : string;
  mode : Mode
}.

(** The three variables the emitting loops of [build_download_options]
    update together. *)
Record Selection := {
  seen_values : gset string;
  selector_map : gmap string string;
  options : list DownloadOption
}.

Section FormatSelector.
Context {rt : PyRuntime}.

Definition format_score (fmt : pydict) : result spec_float :=
  tbr ← py_float (py_or (dict_get fmt "tbr") (PInt 0));
  fps ← py_float (py_or (dict_get fmt "fps") (PInt 0));
  Ok (F64.add tbr (F64.div fps (F64.make 1000 0))).

(** [str(fmt.get("format_id") or "").strip()] *)
Definition format_id_of (fmt : pydict) : string :=
  Str.strip (py_str (py_or (dict_get fmt "format_id") (PStr ""))).

(** [str(fmt.get(key) or "none")] for the two codec fields. *)
Definition codec_of (fmt : pydict) (key : string) : string :=
  py_str (py_or (dict_get fmt key) (PStr "none")).

(** [str(fmt.get("ext") or "").upper()] *)
Definition ext_of (fmt : pydict) : string :=
  Str.upper (py_str (py_or (dict_get fmt "ext") (PStr ""))).

(** [int(fmt.get("height"))] with [TypeError] and [ValueError] caught. *)
Definition height_of (fmt : pydict) : result Z :=
  match py_int (dict_get fmt "height") with
  | Raise TypeError | Raise ValueError => Ok 0%Z
  | r => r
  end.

(** Lines 160-162: the format of a height is replaced only by one that
    scores strictly higher. *)
Definition keep_best (video_by_height : gmap Z pydict) (height : Z) (fmt : pydict)
  : result (gmap Z pydict) :=
  match video_by_height !! height with
  | None => Ok (<[height := fmt]> video_by_height)
  | Some existing =>
      if negb (truthy (PDict existing)) then Ok (<[height := fmt]> video_by_height)
      else
        new ← format_score fmt;
        old ← format_score existing;
        Ok (if F64.ltb old new then <[height := fmt]> video_by_height else video_by_height)
  end.

(** The body of the loop over [formats], lines 143-165. *)
Definition partition_step (st : gmap Z pydict * list pydict) (fmt : pyval)
  : result (gmap Z pydict * list pydict) :=
  match fmt with
  | PDict d =>
      if Str.is_empty (format_id_of d) then Ok st
      else
        let vcodec := codec_of d "vcodec" in
        let acodec := codec_of d "acodec" in
        video_by_height ←
          (if negb (Str.eqb vcodec "none") then
             height ← height_of d;
             if (0 <? height)%Z then keep_best st.1 height d else Ok st.1
           else Ok st.1);
        Ok (video_by_height,
            if Str.eqb vcodec "none" && negb (Str.eqb acodec "none")
            then st.2 ++ [d] else st.2)
  | _ => Ok st
  end.

Definition partition_formats (formats : list pyval) : result (gmap Z pydict * list pydict) :=
  foldlM partition_step (∅, []) formats.

(** [sorted(video_by_height.keys(), reverse=True)[:5]] *)
Definition video_heights (video_by_height : gmap Z pydict) : list Z :=
  take 5 (sort_desc Z.ltb id (map fst (map_to_list video_by_height))).

Definition has_audio (fmt : pydict) : bool :=
  negb (Str.eqb (codec_of fmt "acodec") "none").

Definition video_selector (has_ffmpeg : bool) (fmt : pydict) : string :=
  if has_audio fmt then format_id_of fmt
  else if has_ffmpeg then format_id_of fmt +:+ "+bestaudio/best"
  else format_id_of fmt.

Definition video_label (has_ffmpeg : bool) (height : Z) (fmt : pydict) : string :=
  let ext := ext_of fmt in
  let label :=
    if has_audio fmt then "Video " +:+ Str.of_Z height +:+ "p"
    else if has_ffmpeg then "Video " +:+ Str.of_Z height +:+ "p + audio"
    else "Video " +:+ Str.of_Z height +:+ "p" in
  let suffix_parts :=
    (if negb (has_audio fmt) && negb has_ffmpeg then ["video-only"] else [])
    ++ (if negb (Str.is_empty ext) then [ext] else []) in
  match suffix_parts with
  | [] => label
  | _ => label +:+ " (" +:+ Str.join ", " suffix_parts +:+ ")"
  end.

Definition add_option (st : Selection) (opt : DownloadOption) (selector : string) : Selection :=
  {| seen_values := {[value opt]} ∪ seen_values st;
     selector_map := <[value opt := selector]> (selector_map st);
     options := options st ++ [opt] |}.

Definition video_option (has_ffmpeg : bool) (height : Z) (fmt : pydict) : DownloadOption :=
  {| value := format_id_of fmt; label := video_label has_ffmpeg height fmt; mode := Video |}.

(** The body of the loop over the selected heights, lines 167-195. *)
Definition emit_video (has_ffmpeg : bool) (video_by_height : gmap Z pydict)
    (st : Selection) (height : Z) : result Selection :=
  match video_by_height !! height with
  | None => Raise KeyError
  | Some fmt =>
      let format_id := format_id_of fmt in
      if Str.is_empty format_id || bool_decide (format_id ∈ seen_values st) then Ok st
      else Ok (add_option st (video_option has_ffmpeg height fmt) (video_selector has_ffmpeg fmt))
  end.

(** [audio_candidates.sort(key=format_score, reverse=True)]: the keys are
    computed first, one call per element. *)
Definition sorted_audio (audio_candidates : list pydict) : result (list pydict) :=
  keyed ← mapM_result (λ fmt, s ← format_score fmt; Ok (s, fmt)) audio_candidates;
  Ok (map snd (list_sort_desc keyed)).

(** [int(round(float(fmt.get("abr"))))] with [TypeError] and [ValueError]
    caught ([None] is the caught case). *)
Definition abr_of (fmt : pydict) : result (option Z) :=
  match x ← py_float (dict_get fmt "abr"); F64.round x with
  | Ok n => Ok (Some n)
  | Raise TypeError | Raise ValueError => Ok None
  | Raise e => Raise e
  end.

Definition audio_label (abr : option Z) (ext : string) : string :=
  "Audio"
  +:+ match abr with
      | Some n => if (n =? 0)%Z then "" else " " +:+ Str.of_Z n +:+ " kbps"
      | None => ""
      end
  +:+ (if Str.is_empty ext then "" else " (" +:+ ext +:+ ")").

Definition audio_option (abr : option Z) (fmt : pydict) : DownloadOption :=
  {| value := format_id_of fmt; label := audio_label abr (ext_of fmt); mode := Audio |}.

(** The body of the loop over the first five audio candidates, lines
    198-216. *)
Definition emit_audio (st : Selection) (fmt : pydict) : result Selection :=
  let format_id := format_id_of fmt in
  if Str.is_empty format_id || bool_decide (format_id ∈ seen_values st) then Ok st
  else
    abr ← abr_of fmt;
    Ok (add_option st (audio_option abr fmt) format_id).

Definition option_best : DownloadOption :=
  {| value := "best"; label := "Best available"; mode := Auto |}.

Definition selector_best (has_ffmpeg : bool) : string :=
  if has_ffmpeg then "bestvideo*+bestaudio/best" else "best".

Definition selection_init (has_ffmpeg : bool) : Selection :=
  {| seen_values := {["best"]};
     selector_map := {["best" := selector_best has_ffmpeg]};
     options := [option_best] |}.

Definition build_download_options (item : pydict) (has_ffmpeg : bool)
  : result (list DownloadOption * gmap string string) :=
  match dict_get item "formats" with
  | PList formats =>
      '(video_by_height, audio_candidates) ← partition_formats formats;
      st ← foldlM (emit_video has_ffmpeg video_by_height)
             (selection_init has_ffmpeg) (video_heights video_by_height);
      sorted ← sorted_audio audio_candidates;
      st ← foldlM emit_audio st (take 5 sorted);
      Ok (options st, selector_map st)
  | _ => Ok (options (selection_init has_ffmpeg), selector_map (selection_init has_ffmpeg))
  end.

End FormatSelector.

(** ** The URL classifier ([parse_web_url], [host_matches], [detect_platform]) *)

(** The fields of [urllib.parse.ParseResult] the program reads. *)
Record ParseResult := {
  scheme : string;
  netloc : string;
  path : string
}.

Definition SUPPORTED_PLATFORMS : list (string * list string) :=
  [ ("Instagram", ["instagram.com"]);
    ("YouTube", ["youtube.com"; "youtu.be"]);
    ("Facebook", ["facebook.com"; "fb.watch"]);
    ("Loom", ["loom.com"]) ].

Definition host_matches (host root_domain : string) : bool :=
  Str.eqb host root_domain || Str.endswith host ("." +:+ root_domain).

Section Classifier.
(** [urlparse]; [None] is its [ValueError]. *)
Variable urlparse : string → option ParseResult.

Definition parse_web_url (url : string) : option (ParseResult * string) :=
  if Str.is_empty url then None
  else
    match urlparse (Str.strip url) with
    | None => None
    | Some parsed =>
        let host := Str.before ":" (Str.lower (netloc parsed)) in
        if negb (Str.eqb (scheme parsed) "http" || Str.eqb (scheme parsed) "https")
           || Str.is_empty host
        then None
        else Some (parsed, host)
    end.

Definition detect_platform (url : string) : option string :=
  match parse_web_url url with
  | None => None
  | Some (_, host) =>
      fst <$> List.find (λ entry, existsb (host_matches host) entry.2) SUPPORTED_PLATFORMS
  end.
End Classifier.

(** ** The extractor call ([is_certificate_verify_error],
       [yt_dlp_base_args], [run_yt_dlp_command]) *)

Record CompletedProcess := {
  returncode : Z;
  stdout : string;
  stderr : string
}.

Definition is_certificate_verify_error (message : string) : bool :=
  let text := Str.lower message in
  Str.contains text "certificate_verify_failed"
  || Str.contains text "unable to get local issuer certificate".

(** [a or b] on two strings. *)
Definition str_or (a b : string) : string := if Str.is_empty a then b else a.

(** [l.insert(1, x)] on a copy of [l]. *)
Definition insert_at_1 {A} (x : A) (l : list A) : list A := take 1 l ++ x :: drop 1 l.

(** The commands launched so far, oldest first. *)
Abbreviation history := (list (list string)).

Section Extractor.
(** [subprocess.run(cmd, capture_output=True, text=True, check=False)]: what
    the process launched after the given history answers; [Raise] when no
    process could be started. *)
Variable subprocess_run : history → list string → result CompletedProcess.

(** [os.getenv("YTDLP_COOKIES_FILE", "")] *)
Variable YTDLP_COOKIES_FILE : string.

Definition yt_dlp_base_args : list string :=
  let args := ["yt-dlp"; "--no-warnings"] in
  let cookies_file := Str.strip YTDLP_COOKIES_FILE in
  if Str.is_empty cookies_file then args else args ++ ["--cookies"; cookies_file].

(** A launch extends the history by its command. *)
Definition launch (cmd : list string) (h : history) : result CompletedProcess * history :=
  (subprocess_run h cmd, h ++ [cmd]).

Definition run_yt_dlp_command (cmd : list string) (h : history)
  : result CompletedProcess * history :=
  match launch cmd h with
  | (Raise e, h1) => (Raise e, h1)
  | (Ok proc, h1) =>
      if (returncode proc =? 0)%Z then (Ok proc, h1)
      else
        let message := Str.strip (str_or (stderr proc) (str_or (stdout proc) "yt-dlp failed")) in
        if negb (bool_decide ("--no-check-certificates" ∈ cmd))
           && is_certificate_verify_error message
        then launch (insert_at_1 "--no-check-certificates" cmd) h1
        else (Ok proc, h1)
  end.
End Extractor.

(** ** The entry flattener ([flatten_entries]) *)

(** The elements a [for] loop draws from a value. *)
Fixpoint chars (s : string) : list pyval :=
  match s with
  | EmptyString => []
  | String c s' => PStr (String c EmptyString) :: chars s'
  end.

Definition py_iter (v : pyval) : result (list pyval) :=
  match v with
  | PList l => Ok l
  | PDict d => Ok (map (λ kv, PStr kv.1) d)
  | PStr s => Ok (chars s)
  | PNone | PBool _ | PInt _ | PFloat _ => Raise TypeError
  end.

(** [v.get(k)]: only a [dict] has the method. *)
Definition py_get (v : pyval) (k : string) : result pyval :=
  match v with
  | PDict d => Ok (dict_get d k)
  | _ => Raise AttributeError
  end.

Definition flatten_step (flat : list pyval) (entry : pyval) : result (list pyval) :=
  if negb (truthy entry) then Ok flat
  else
    nested ← py_get entry "entries";
    if truthy nested then
      items ← py_iter nested;
      Ok (flat ++ filter (λ item, truthy item = true) items)
    else Ok (flat ++ [entry]).

Definition flatten_entries (info : pydict) : result (list pyval) :=
  let entries := dict_get info "entries" in
  if negb (truthy entries) then Ok [PDict info]
  else
    items ← py_iter entries;
    flat ← foldlM flatten_step [] items;
    Ok (match flat with [] => [PDict info] | _ => flat end).

(** ** Title normalisation ([normalize_title]) *)

(** [raw] is a [str] or [None]. *)
Definition normalize_title (raw : option string) (fallback : string) : string :=
  let title :=
    match raw with
    | Some s => if Str.is_empty s then fallback else Str.strip s
    | None => fallback
    end in
  let title := Str.sub_spaces false title in
  Str.take 100 title.

(** ** The download job ([run_download]) *)

(** One path of [output_dir.rglob("*")] with what the program asks of it:
    its final component, [is_file()] and [stat().st_mtime]. *)
Record DirEntry := {
  entry_path : string;
  entry_name : string;
  is_file : bool;
  st_mtime : spec_float
}.

Section Orchestrator.
Context {rt : PyRuntime}.
Variable subprocess_run : history → list string → result CompletedProcess.
Variable YTDLP_COOKIES_FILE : string.
(** [output_dir.rglob("*")] once the commands of the history have run, in
    the order the paths are produced. *)
Variable rglob : history → string → list DirEntry.

Definition download_command (url : string) (item_count : Z) (index : option Z)
    (output_dir : string) (format_selector : option string) : list string :=
  let cmd := yt_dlp_base_args YTDLP_COOKIES_FILE in
  let cmd := cmd ++ ["--restrict-filenames"; "-P"; output_dir; "-o"; "%(title).80s.%(ext)s"] in
  let cmd :=
    match format_selector with
    | Some f => if Str.is_empty f then cmd else cmd ++ ["-f"; f]
    | None => cmd
    end in
  let cmd :=
    match (1 <? item_count)%Z, index with
    | true, Some i => cmd ++ ["--playlist-items"; Str.of_Z i]
    | _, _ => if (item_count <=? 1)%Z then cmd ++ ["--no-playlist"] else cmd
    end in
  cmd ++ [url].

(** Lines 346-351: the files of the workspace that are not partial, the
    most recently modified first. *)
Definition locate_file (entries : list DirEntry) : result DirEntry :=
  let files :=
    filter (λ p, is_file p = true ∧ Str.endswith (entry_name p) ".part" = false) entries in
  match files with
  | [] => Raise (DownloaderError "Download finished but no file was produced.")
  | _ =>
      match map snd (list_sort_desc (map (λ p, (st_mtime p, p)) files)) with
      | first :: _ => Ok first
      | [] => Raise IndexError
      end
  end.

Definition run_download (url : string) (item_count : Z) (index : option Z)
    (output_dir : string) (format_selector : option string) (h : history)
  : result DirEntry * history :=
  let cmd := download_command url item_count index output_dir format_selector in
  match run_yt_dlp_command subprocess_run cmd h with
  | (Raise e, h1) => (Raise e, h1)
  | (Ok proc, h1) =>
      if negb (returncode proc =? 0)%Z then
        (Raise (DownloaderError
                  (Str.strip (str_or (stderr proc) (str_or (stdout proc) "Download failed")))),
         h1)
      else (locate_file (rglob h1 output_dir), h1)
  end.
End Orchestrator.

(** * Supporting lemmas *)

(** ** The result monad *)

Lemma bind_Ok {A B} (m : result A) (f : A → result B) (b : B) :
  m ≫= f = Ok b → ∃ a, m = Ok a ∧ f a = Ok b.
Proof. destruct m as [a|e]; simpl; [eauto | discriminate]. Qed.

Ltac inv_ok :=
  repeat match goal with
  | H : Ok _ = Ok _ |- _ => injection H as H; try subst
  | H : Raise _ = Ok _ |- _ => discriminate H
  | H : _ ≫= _ = Ok _ |- _ =>
      let a := fresh "a" in
      let Ha := fresh "H" a in
      apply bind_Ok in H as (a & Ha & H)
  end.

(** An invariant of a loop that knows the elements already visited. *)
Lemma foldlM_prefix {S A} (f : S → A → result S) (P : list A → S → Prop) (l0 : list A) :
  (∀ pre x s s1, x ∈ l0 → P pre s → f s x = Ok s1 → P (pre ++ [x]) s1) →
  ∀ l pre s s', pre ++ l = l0 → P pre s → foldlM f s l = Ok s' → P l0 s'.
Proof.
  intros Hstep l. induction l as [|x l IH]; intros pre s s' Hl HP Hrun; simpl in Hrun.
  - inv_ok. by rewrite app_nil_r.
  - inv_ok. apply (IH (pre ++ [x]) a s'); [by rewrite <-app_assoc | | done].
    apply Hstep with s; [|done..]. subst l0. set_solver.
Qed.

Lemma foldlM_invariant {S A} (f : S → A → result S) (P : S → Prop) (l : list A) s s' :
  (∀ x s s1, x ∈ l → P s → f s x = Ok s1 → P s1) →
  P s → foldlM f s l = Ok s' → P s'.
Proof.
  intros Hstep HP Hrun.
  apply (foldlM_prefix f (λ _, P) l) with l [] s; eauto.
Qed.

Lemma mapM_result_Ok {A B} (f : A → result B) l ys :
  mapM_result f l = Ok ys → Forall2 (λ x y, f x = Ok y) l ys.
Proof.
  revert ys. induction l as [|x l IH]; intros ys Hrun; simpl in Hrun; inv_ok; constructor; auto.
Qed.

(** ** Order facts on binary64 *)

Module F64Facts.
Lemma pos_compare_cont_eq m n : Pos.compare_cont Eq m n = (m ?= n)%positive.
Proof. reflexivity. Qed.

Ltac cmp_cases :=
  repeat match goal with
  | H : context [Pos.compare_cont Eq ?a ?b] |- _ => rewrite (pos_compare_cont_eq a b) in H
  | |- context [Pos.compare_cont Eq ?a ?b] => rewrite (pos_compare_cont_eq a b)
  end;
  repeat match goal with
  | H : context [(?a ?= ?b)%Z] |- _ =>
      destruct (Z.compare_spec a b); simpl in H; try discriminate H
  | H : context [(?a ?= ?b)%positive] |- _ =>
      destruct (Pos.compare_spec a b); simpl in H; try discriminate H
  | |- context [(?a ?= ?b)%Z] => destruct (Z.compare_spec a b); simpl
  | |- context [(?a ?= ?b)%positive] => destruct (Pos.compare_spec a b); simpl
  end; try reflexivity; try discriminate; try lia.

Lemma ltb_trans x y z : F64.ltb x y = true → F64.ltb y z = true → F64.ltb x z = true.
Proof.
  unfold F64.ltb, SFltb, SFcompare.
  destruct x as [[]|[]| |[] m1 e1], y as [[]|[]| |[] m2 e2], z as [[]|[]| |[] m3 e3];
    simpl; intros H1 H2; try discriminate; try reflexivity; cmp_cases.
Qed.

Lemma ltb_asym x y : F64.ltb x y = true → F64.ltb y x = false.
Proof.
  unfold F64.ltb, SFltb, SFcompare.
  destruct x as [[]|[]| |[] m1 e1], y as [[]|[]| |[] m2 e2];
    simpl; intros H1; try discriminate; try reflexivity; cmp_cases.
Qed.

Lemma ltb_irrefl x : F64.ltb x x = false.
Proof. destruct (F64.ltb x x) eqn:E; [|done]. by rewrite (ltb_asym _ _ E) in E. Qed.

Lemma ltb_negtrans x y z :
  x ≠ S754_nan → y ≠ S754_nan → z ≠ S754_nan →
  F64.ltb x y = false → F64.ltb y z = false → F64.ltb x z = false.
Proof.
  unfold F64.ltb, SFltb, SFcompare.
  destruct x as [[]|[]| |[] m1 e1], y as [[]|[]| |[] m2 e2], z as [[]|[]| |[] m3 e3];
    simpl; intros ? ? ? H1 H2; try congruence; cmp_cases.
Qed.

Lemma not_ltb_leb x y :
  x ≠ S754_nan → y ≠ S754_nan → F64.ltb x y = false → F64.leb y x = true.
Proof.
  unfold F64.ltb, F64.leb, SFltb, SFleb, SFcompare.
  destruct x as [[]|[]| |[] m1 e1], y as [[]|[]| |[] m2 e2];
    simpl; intros ? ? H1; try congruence; cmp_cases.
Qed.
End F64Facts.

(** ** The stable descending sort *)

Section SortFacts.
Context {A K : Type} (lt : K → K → bool) (key : A → K).
Implicit Types (l : list A) (x : A).

Lemma insert_desc_perm x l : insert_desc lt key x l ≡ₚ x :: l.
Proof.
  induction l as [|y l IH]; simpl; [done|].
  destruct (lt (key y) (key x)); [done|]. rewrite IH. apply Permutation_swap.
Qed.

Lemma sort_desc_perm l : sort_desc lt key l ≡ₚ l.
Proof.
  unfold sort_desc.
  enough (∀ acc, foldl (λ acc x, insert_desc lt key x acc) acc l ≡ₚ acc ++ l) as Hg
    by apply (Hg []).
  induction l as [|x l IH]; intros acc; simpl.
  - by rewrite app_nil_r.
  - rewrite IH, insert_desc_perm. simpl. apply Permutation_middle.
Qed.

(** Keys in [P] are compared by a strict weak order. *)
Context (P : K → Prop).
Context (lt_asym : ∀ a b, lt a b = true → lt b a = false).
Context (lt_negtrans : ∀ a b c, P a → P b → P c →
                         lt a b = false → lt b c = false → lt a c = false).

Definition not_below (x y : A) : Prop := lt (key x) (key y) = false.

Lemma insert_desc_sorted x l :
  P (key x) → Forall (λ y, P (key y)) l →
  StronglySorted not_below l → StronglySorted not_below (insert_desc lt key x l).
Proof using lt_asym lt_negtrans.
  intros Hx. induction l as [|y l IH]; intros HP Hs; simpl.
  - repeat constructor.
  - apply Forall_cons in HP as [Hy HP]. apply StronglySorted_cons in Hs as [Hyl Hs].
    destruct (lt (key y) (key x)) eqn:Hyx.
    + apply StronglySorted_cons. split; [|by apply StronglySorted_cons].
      assert (not_below x y) as Hxy by (by apply lt_asym).
      constructor; [done|].
      rewrite Forall_forall in Hyl, HP |- *. intros z Hz.
      unfold not_below in *.
      destruct (lt (key x) (key z)) eqn:Hxz; [|done].
      assert (lt (key y) (key x) = false) as Hc; [|congruence].
      apply lt_negtrans with (key z); auto.
    + apply StronglySorted_cons. split; [|by apply IH].
      rewrite insert_desc_perm. by constructor.
Qed.

Lemma sort_desc_sorted l :
  Forall (λ y, P (key y)) l → StronglySorted not_below (sort_desc lt key l).
Proof using lt_asym lt_negtrans.
  unfold sort_desc.
  enough (∀ acc, Forall (λ y, P (key y)) acc → StronglySorted not_below acc →
                 Forall (λ y, P (key y)) l →
                 StronglySorted not_below (foldl (λ acc x, insert_desc lt key x acc) acc l)) as Hg.
  { intros. apply Hg; auto. constructor. }
  induction l as [|x l IH]; intros acc Hacc Hs Hl; simpl; [done|].
  apply Forall_cons in Hl as [Hx Hl].
  apply IH; [|by apply insert_desc_sorted|done].
  rewrite insert_desc_perm. by constructor.
Qed.
End SortFacts.

Lemma StronglySorted_sublist {A} (R : relation A) (l1 l2 : list A) :
  l1 `sublist_of` l2 → StronglySorted R l2 → StronglySorted R l1.
Proof.
  induction 1 as [|x l1 l2 Hsub IH|x l1 l2 Hsub IH]; intros Hs.
  - constructor.
  - apply StronglySorted_cons in Hs as [Hx Hs]. apply StronglySorted_cons. split; [|auto].
    rewrite Forall_forall in Hx |- *. intros y Hy. apply Hx. by eapply elem_of_sublist.
  - apply StronglySorted_cons in Hs as [_ Hs]. auto.
Qed.

Lemma is_empty_true s : Str.is_empty s = true ↔ s = "".
Proof. by destruct s. Qed.

Lemma is_empty_false s : Str.is_empty s = false ↔ s ≠ "".
Proof. by destruct s. Qed.

Lemma str_eqb_true s t : Str.eqb s t = true ↔ s = t.
Proof. unfold Str.eqb. by rewrite bool_decide_eq_true. Qed.

Lemma str_eqb_false s t : Str.eqb s t = false ↔ s ≠ t.
Proof. unfold Str.eqb. by rewrite bool_decide_eq_false. Qed.

Section SelectorFacts.
Context {rt : PyRuntime}.
Implicit Types (fmt d : pydict) (formats : list pyval) (st : Selection).

Definition is_video_capable fmt : Prop := codec_of fmt "vcodec" ≠ "none".
Definition is_audio_only fmt : Prop :=
  codec_of fmt "vcodec" = "none" ∧ codec_of fmt "acodec" ≠ "none".

(** What the first loop keeps comes from the list and has passed its tests. *)
Definition kept_from formats (video_by_height : gmap Z pydict) : Prop :=
  ∀ h d, video_by_height !! h = Some d →
    PDict d ∈ formats ∧ format_id_of d ≠ "" ∧ is_video_capable d ∧
    height_of d = Ok h ∧ (0 < h)%Z.

Definition candidates_from formats (audio_candidates : list pydict) : Prop :=
  Forall (λ d, PDict d ∈ formats ∧ format_id_of d ≠ "" ∧ is_audio_only d) audio_candidates.

Lemma keep_best_cases vbh h d vbh' :
  keep_best vbh h d = Ok vbh' → vbh' = <[h := d]> vbh ∨ vbh' = vbh.
Proof.
  unfold keep_best. intros Hk.
  destruct (vbh !! h) as [existing|]; [|inv_ok; auto].
  destruct (negb (truthy (PDict existing))); [inv_ok; auto|].
  inv_ok. destruct (F64.ltb _ _); auto.
Qed.

Lemma partition_step_sound formats (ps ps' : gmap Z pydict * list pydict) (x : pyval) :
  x ∈ formats →
  kept_from formats ps.1 ∧ candidates_from formats ps.2 →
  partition_step ps x = Ok ps' →
  kept_from formats ps'.1 ∧ candidates_from formats ps'.2.
Proof.
  intros Hin [Hk Hc] Hstep. destruct x as [| | | | |?|d]; simpl in Hstep; inv_ok; try done.
  destruct (Str.is_empty (format_id_of d)) eqn:Hid; inv_ok; [done|].
  apply is_empty_false in Hid. simpl. split.
  - destruct (negb (Str.eqb (codec_of d "vcodec") "none")) eqn:Hv; inv_ok; [|done].
    apply negb_true_iff, str_eqb_false in Hv.
    match goal with Hh : height_of d = Ok ?h0 |- _ => rename h0 into hd end.
    destruct (0 <? hd)%Z eqn:Hpos; inv_ok; [|done].
    apply Z.ltb_lt in Hpos.
    match goal with Hb : keep_best _ _ _ = Ok _ |- _ => apply keep_best_cases in Hb as [-> | ->] end;
      [|done].
    intros h' d' Hl. destruct (decide (hd = h')) as [<-|Hne].
    + rewrite lookup_insert_eq in Hl. by inv Hl.
    + rewrite lookup_insert_ne in Hl by done. eauto.
  - destruct (Str.eqb (codec_of d "vcodec") "none") eqn:Hv; simpl; [|done].
    destruct (negb (Str.eqb (codec_of d "acodec") "none")) eqn:Ha'; [|done].
    apply Forall_app. split; [done|]. constructor; [|done].
    apply str_eqb_true in Hv. apply negb_true_iff, str_eqb_false in Ha'. done.
Qed.

Lemma partition_formats_sound formats vbh ac :
  partition_formats formats = Ok (vbh, ac) →
  kept_from formats vbh ∧ candidates_from formats ac.
Proof.
  intros Hrun.
  apply (foldlM_invariant partition_step
           (λ ps, kept_from formats ps.1 ∧ candidates_from formats ps.2)
           formats (∅, []) (vbh, ac)); [| |done].
  - intros. by eapply partition_step_sound.
  - split; [intros h d Hl; simpl in Hl; by rewrite lookup_empty in Hl|constructor].
Qed.

(** *** What the emitting loops maintain *)

Definition from_format formats (o : DownloadOption) : Prop :=
  ∃ d, PDict d ∈ formats ∧ format_id_of d = value o ∧ value o ≠ "".

Definition selector_shape formats (has_ffmpeg : bool) (k v : string) : Prop :=
  (k = "best" ∧ v = selector_best has_ffmpeg) ∨
  (k ≠ "best" ∧
   (v = k ∨
    (v = k +:+ "+bestaudio/best" ∧ has_ffmpeg = true ∧
     ∃ d, PDict d ∈ formats ∧ format_id_of d = k ∧ has_audio d = false))).

Record selection_ok formats (has_ffmpeg : bool) st : Prop := {
  ok_seen : seen_values st = dom (selector_map st);
  ok_keys : dom (selector_map st) = list_to_set (value <$> options st);
  ok_nodup : NoDup (value <$> options st);
  ok_head : ∃ rest, options st = option_best :: rest ∧ Forall (from_format formats) rest;
  ok_shape : ∀ k v, selector_map st !! k = Some v → selector_shape formats has_ffmpeg k v
}.

Lemma selection_init_ok formats has_ffmpeg :
  selection_ok formats has_ffmpeg (selection_init has_ffmpeg).
Proof.
  split; simpl.
  - by rewrite dom_singleton_L.
  - rewrite dom_singleton_L. set_solver.
  - apply NoDup_singleton.
  - exists []. by split.
  - intros k v Hl. apply lookup_singleton_Some in Hl as [<- <-]. by left.
Qed.

Lemma best_seen formats has_ffmpeg st :
  selection_ok formats has_ffmpeg st → "best" ∈ seen_values st.
Proof.
  intros [Hs Hk _ (rest & Hr & _) _]. rewrite Hs, Hk, Hr. set_solver.
Qed.

Lemma add_option_ok formats has_ffmpeg st opt selector :
  selection_ok formats has_ffmpeg st →
  value opt ∉ seen_values st →
  from_format formats opt →
  selector_shape formats has_ffmpeg (value opt) selector →
  selection_ok formats has_ffmpeg (add_option st opt selector).
Proof.
  intros [Hs Hk Hn (rest & Hr & Hf) Hsh] Hnew Hfrom Hshape. split; simpl.
  - rewrite dom_insert_L. by rewrite Hs.
  - rewrite dom_insert_L, fmap_app, list_to_set_app_L, Hk. set_solver.
  - rewrite fmap_app. apply NoDup_app. split; [done|]. split; [|apply NoDup_singleton].
    intros x Hx Hx'. apply list_elem_of_singleton in Hx' as ->.
    apply Hnew. rewrite Hs, Hk. by apply elem_of_list_to_set.
  - exists (rest ++ [opt]). rewrite Hr. split; [done|].
    apply Forall_app. split; [done|]. by constructor.
  - intros k v Hl. destruct (decide (value opt = k)) as [<-|Hne].
    + rewrite lookup_insert_eq in Hl. by inv Hl.
    + rewrite lookup_insert_ne in Hl by done. auto.
Qed.

Lemma emit_video_ok formats has_ffmpeg vbh st h st' :
  kept_from formats vbh →
  selection_ok formats has_ffmpeg st →
  emit_video has_ffmpeg vbh st h = Ok st' →
  selection_ok formats has_ffmpeg st'.
Proof.
  intros Hk Hok Hstep. unfold emit_video in Hstep.
  destruct (vbh !! h) as [fmt|] eqn:Hl; [|done].
  destruct (Hk _ _ Hl) as (Hin & Hid & _).
  destruct (Str.is_empty (format_id_of fmt) || bool_decide (format_id_of fmt ∈ seen_values st))
    eqn:Hskip; inv_ok; [done|].
  apply orb_false_iff in Hskip as [_ Hseen]. apply bool_decide_eq_false in Hseen.
  apply add_option_ok; simpl; [done|done|by exists fmt|].
  right. split.
  { intros Hb. apply Hseen. rewrite Hb. by eapply best_seen. }
  unfold video_selector. destruct (has_audio fmt) eqn:Ha; [by left|].
  destruct has_ffmpeg; [|by left]. right. split; [done|]. split; [done|]. by exists fmt.
Qed.

Lemma emit_audio_ok formats has_ffmpeg st fmt st' :
  PDict fmt ∈ formats →
  selection_ok formats has_ffmpeg st →
  emit_audio st fmt = Ok st' →
  selection_ok formats has_ffmpeg st'.
Proof.
  intros Hin Hok Hstep. unfold emit_audio in Hstep.
  destruct (Str.is_empty (format_id_of fmt)) eqn:Hid; simpl in Hstep; inv_ok; [done|].
  destruct (bool_decide (format_id_of fmt ∈ seen_values st)) eqn:Hseen; inv_ok; [done|].
  apply bool_decide_eq_false in Hseen. apply is_empty_false in Hid.
  apply add_option_ok; simpl; [done|done|by exists fmt|].
  right. split; [|by left].
  intros Hb. apply Hseen. rewrite Hb. by eapply best_seen.
Qed.

Lemma sorted_audio_perm ac sorted :
  sorted_audio ac = Ok sorted → sorted ≡ₚ ac.
Proof.
  unfold sorted_audio. intros Hrun.
  apply bind_Ok in Hrun as (keyed & Hkeys & Hrun). injection Hrun as <-.
  rewrite list_sort_desc_perm.
  apply mapM_result_Ok in Hkeys. induction Hkeys as [|x y l l' Hxy _ IH]; [done|].
  simpl. inv_ok. simpl. by rewrite IH.
Qed.

(** Everything [build_download_options] returns for a list of formats
    satisfies the invariant of the loops. *)
Lemma build_download_options_ok item has_ffmpeg opts sm formats :
  dict_get item "formats" = PList formats →
  build_download_options item has_ffmpeg = Ok (opts, sm) →
  ∃ st, selection_ok formats has_ffmpeg st ∧ opts = options st ∧ sm = selector_map st.
Proof.
  unfold build_download_options. intros -> Hrun.
  apply bind_Ok in Hrun as ([vbh ac] & Hpart & Hrun).
  apply bind_Ok in Hrun as (st1 & Hvideo & Hrun).
  apply bind_Ok in Hrun as (sorted & Hsort & Hrun).
  apply bind_Ok in Hrun as (st2 & Haudio & Hrun).
  injection Hrun as <- <-.
  apply partition_formats_sound in Hpart as [Hk Hc].
  exists st2. split; [|done].
  apply sorted_audio_perm in Hsort.
  eapply (foldlM_invariant emit_audio (selection_ok formats has_ffmpeg)); [| |done].
  - intros fmt s s1 Hin. apply emit_audio_ok.
    apply (subseteq_take 5) in Hin. rewrite Hsort in Hin.
    unfold candidates_from in Hc. rewrite Forall_forall in Hc. by apply Hc.
  - eapply (foldlM_invariant (emit_video has_ffmpeg vbh)); [| |done].
    + intros h s s1 _. by apply emit_video_ok.
    + apply selection_init_ok.
Qed.

End SelectorFacts.

Lemma strictly_descending (l : list Z) :
  NoDup l → StronglySorted (not_below Z.ltb id) l → StronglySorted (λ a b, (b < a)%Z) l.
Proof.
  induction l as [|x l IH]; intros Hn Hs; [constructor|].
  apply NoDup_cons in Hn as [Hx Hn]. apply StronglySorted_cons in Hs as [Hxl Hs].
  apply StronglySorted_cons. split; [|auto].
  rewrite Forall_forall in Hxl |- *. intros y Hy.
  specialize (Hxl y Hy). unfold not_below, id in Hxl. apply Z.ltb_ge in Hxl.
  assert (x ≠ y) by (intros ->; done). lia.
Qed.

Section OrderFacts.
Context {rt : PyRuntime}.

Lemma video_heights_descending (vbh : gmap Z pydict) :
  StronglySorted (λ a b, (b < a)%Z) (video_heights vbh).
Proof.
  unfold video_heights.
  apply StronglySorted_sublist with (sort_desc Z.ltb id (map_to_list vbh).*1);
    [apply sublist_take|].
  apply strictly_descending.
  - rewrite sort_desc_perm. apply NoDup_fst_map_to_list.
  - apply (sort_desc_sorted Z.ltb id (λ _, True)).
    + intros a b Hab. apply Z.ltb_lt in Hab. apply Z.ltb_ge. lia.
    + intros a b c _ _ _ Hab Hbc. apply Z.ltb_ge in Hab, Hbc. apply Z.ltb_ge. lia.
    + by apply Forall_forall.
Qed.

Lemma video_heights_length (vbh : gmap Z pydict) : length (video_heights vbh) ≤ 5.
Proof. unfold video_heights. rewrite length_take. lia. Qed.

(** The video loop appends one option per height it does not skip. *)
Lemma emit_video_loop has_ffmpeg vbh st0 hs st :
  foldlM (emit_video has_ffmpeg vbh) st0 hs = Ok st →
  ∃ picks : list (Z * pydict),
    picks.*1 `sublist_of` hs ∧
    Forall (λ p, vbh !! p.1 = Some p.2) picks ∧
    options st = options st0 ++ map (λ p, video_option has_ffmpeg p.1 p.2) picks.
Proof.
  intros Hrun.
  apply (foldlM_prefix (emit_video has_ffmpeg vbh)
           (λ pre s, ∃ picks : list (Z * pydict),
              picks.*1 `sublist_of` pre ∧
              Forall (λ p, vbh !! p.1 = Some p.2) picks ∧
              options s = options st0 ++ map (λ p, video_option has_ffmpeg p.1 p.2) picks)
           hs) with hs [] st0; [| done | | done].
  - intros pre h s s1 _ (picks & Hsub & Hall & Hopts) Hstep.
    unfold emit_video in Hstep. destruct (vbh !! h) as [fmt|] eqn:Hl; [|done].
    destruct (_ || _); injection Hstep as <-.
    + exists picks. split; [by apply sublist_inserts_r|done].
    + exists (picks ++ [(h, fmt)]). split; [|split].
      * rewrite fmap_app. apply sublist_app; [done|]. simpl. reflexivity.
      * apply Forall_app. split; [done|]. by constructor.
      * simpl. rewrite Hopts, map_app, <-app_assoc. done.
  - exists []. split; [constructor|]. split; [constructor|]. simpl. by rewrite app_nil_r.
Qed.

(** The audio loop appends one option per candidate it does not skip. *)
Lemma emit_audio_loop st0 fmts st :
  foldlM emit_audio st0 fmts = Ok st →
  ∃ (picks : list pydict) (aopts : list DownloadOption),
    picks `sublist_of` fmts ∧
    Forall2 (λ fmt o, ∃ abr, o = audio_option abr fmt) picks aopts ∧
    options st = options st0 ++ aopts.
Proof.
  intros Hrun.
  apply (foldlM_prefix emit_audio
           (λ pre s, ∃ (picks : list pydict) (aopts : list DownloadOption),
              picks `sublist_of` pre ∧
              Forall2 (λ fmt o, ∃ abr, o = audio_option abr fmt) picks aopts ∧
              options s = options st0 ++ aopts)
           fmts) with fmts [] st0; [| done | | done].
  - intros pre fmt s s1 _ (picks & aopts & Hsub & Hall & Hopts) Hstep.
    unfold emit_audio in Hstep. destruct (_ || _).
    + injection Hstep as <-. exists picks, aopts. split; [by apply sublist_inserts_r|done].
    + apply bind_Ok in Hstep as (abr & _ & Hstep). injection Hstep as <-.
      exists (picks ++ [fmt]), (aopts ++ [audio_option abr fmt]). split; [|split].
      * apply sublist_app; [done|reflexivity].
      * apply Forall2_app; [done|]. constructor; [by exists abr|constructor].
      * simpl. rewrite Hopts, <-app_assoc. done.
  - exists [], []. split; [constructor|]. split; [constructor|]. simpl. by rewrite app_nil_r.
Qed.

(** Scores in descending order: the later score is below or equal to the
    earlier one. *)
Definition score_not_below (f g : pydict) : Prop :=
  ∃ sf sg, format_score f = Ok sf ∧ format_score g = Ok sg ∧ F64.leb sg sf = true.

Lemma sorted_audio_descending ac sorted :
  Forall (λ d, format_score d ≠ Ok S754_nan) ac →
  sorted_audio ac = Ok sorted →
  StronglySorted score_not_below sorted.
Proof.
  unfold sorted_audio. intros Hnan Hrun.
  apply bind_Ok in Hrun as (keyed & Hkeys & Hrun). injection Hrun as <-.
  apply mapM_result_Ok in Hkeys.
  assert (Forall (λ p, format_score p.2 = Ok p.1 ∧ p.1 ≠ S754_nan) keyed) as Hk.
  { clear -Hkeys Hnan. induction Hkeys as [|d p l l' Hdp _ IH]; [constructor|].
    apply Forall_cons in Hnan as [Hd Hnan]. constructor; [|auto].
    apply bind_Ok in Hdp as (s & Hs & Hdp). injection Hdp as <-. simpl.
    split; [done|]. intros ->. done. }
  rewrite list_sort_desc_ordered by (eapply Forall_impl; [exact Hk|]; by intros ? [_ ?]).
  assert (Forall (λ p, format_score p.2 = Ok p.1 ∧ p.1 ≠ S754_nan)
                 (sort_desc F64.ltb fst keyed)) as Hk'.
  { by rewrite sort_desc_perm. }
  assert (StronglySorted (not_below F64.ltb fst) (sort_desc F64.ltb fst keyed)) as Hs.
  { apply (sort_desc_sorted F64.ltb fst (λ x, x ≠ S754_nan)).
    - apply F64Facts.ltb_asym.
    - apply F64Facts.ltb_negtrans.
    - eapply Forall_impl; [exact Hk|]. by intros ? [_ ?]. }
  clear Hkeys Hk. induction Hs as [|p l Hs IH Hp]; [constructor|].
  apply Forall_cons in Hk' as [[Hp1 Hp2] Hk']. simpl. constructor; [auto|].
  rewrite Forall_forall in Hp, Hk'. apply Forall_forall. intros g Hg.
  apply list_elem_of_fmap in Hg as (q & -> & Hq).
  destruct (Hk' q Hq) as [Hq1 Hq2]. exists p.1, q.1. split; [done|]. split; [done|].
  apply F64Facts.not_ltb_leb; auto. by apply Hp.
Qed.

End OrderFacts.

Lemma append_assoc (a b c : string) : (a +:+ b) +:+ c = a +:+ (b +:+ c).
Proof.
  induction a as [|x a IH]; [done|].
  change (String x ((a +:+ b) +:+ c) = String x (a +:+ (b +:+ c))). by rewrite IH.
Qed.

(** A runtime to evaluate examples with. Its sort is the stable descending
    sort on every input. The three conversions are placeholders: the examples
    of this file put strings where [str] is applied and numbers where
    [float] and [int] are, so none of them is reached. *)
Definition plain_runtime : PyRuntime :=
  {| py_repr := λ _, "";
     int_of_str := λ _, None;
     float_of_str := λ _, None;
     list_sort_desc := λ A, sort_desc F64.ltb fst;
     list_sort_desc_perm := λ A l, sort_desc_perm F64.ltb fst l;
     list_sort_desc_ordered := λ A l _, eq_refl |}.

Section ScoreFacts.
Context {rt : PyRuntime}.

(** A format that the first loop files under height [h]. *)
Definition qualifies (d : pydict) (h : Z) : Prop :=
  format_id_of d ≠ "" ∧ is_video_capable d ∧ height_of d = Ok h ∧ (0 < h)%Z.

Definition kept_is_best (pre : list pyval) (vbh : gmap Z pydict) : Prop :=
  ∀ f h sf, PDict f ∈ pre → qualifies f h → format_score f = Ok sf →
    ∃ K, vbh !! h = Some K ∧
         (K = f ∨ ∃ sK, format_score K = Ok sK ∧ F64.ltb sK sf = false).

Lemma format_id_of_nil : format_id_of [] = "".
Proof. reflexivity. Qed.

Lemma keep_best_best formats pre vbh hd d vbh' :
  kept_from formats vbh → kept_is_best pre vbh →
  qualifies d hd →
  keep_best vbh hd d = Ok vbh' →
  kept_is_best (pre ++ [PDict d]) vbh'.
Proof.
  intros Hk Hb Hq Hkeep f h sf Hin Hf Hsf.
  assert (h ≠ hd → ∀ m : gmap Z pydict, <[hd := d]> m !! h = m !! h) as Hother.
  { intros. by apply lookup_insert_ne. }
  unfold keep_best in Hkeep.
  destruct (vbh !! hd) as [K|] eqn:HK.
  - destruct (Hk _ _ HK) as (_ & HidK & _).
    assert (truthy (PDict K) = true) as Ht.
    { destruct K; [by rewrite format_id_of_nil in HidK|done]. }
    rewrite Ht in Hkeep. simpl in Hkeep.
    apply bind_Ok in Hkeep as (new & Hnew & Hkeep).
    apply bind_Ok in Hkeep as (old & Hold & Hkeep).
    injection Hkeep as <-.
    apply elem_of_app in Hin as [Hin|Hin].
    + destruct (Hb f h sf Hin Hf Hsf) as (K' & HK' & Hbest).
      destruct (decide (h = hd)) as [->|Hne].
      * rewrite HK in HK'. injection HK' as <-.
        destruct (F64.ltb old new) eqn:Hlt.
        -- exists d. rewrite lookup_insert_eq. split; [done|]. right. exists new. split; [done|].
           destruct Hbest as [->|(sK & HsK & Hle)].
           ++ rewrite Hold in Hsf. injection Hsf as <-. by apply F64Facts.ltb_asym.
           ++ rewrite Hold in HsK. injection HsK as <-.
              destruct (F64.ltb new sf) eqn:Hns; [|done].
              by rewrite (F64Facts.ltb_trans _ _ _ Hlt Hns) in Hle.
        -- exists K. done.
      * exists K'. split; [|done]. destruct (F64.ltb old new); [by rewrite Hother|done].
    + apply list_elem_of_singleton in Hin. injection Hin as ->.
      destruct Hf as (_ & _ & Hh & _), Hq as (_ & _ & Hh' & _).
      rewrite Hh in Hh'. injection Hh' as ->.
      rewrite Hnew in Hsf. injection Hsf as <-.
      destruct (F64.ltb old new) eqn:Hlt.
      * exists d. rewrite lookup_insert_eq. by split; [|left].
      * exists K. split; [done|]. right. by exists old.
  - injection Hkeep as <-.
    apply elem_of_app in Hin as [Hin|Hin].
    + destruct (Hb f h sf Hin Hf Hsf) as (K' & HK' & Hbest).
      exists K'. split; [|done]. rewrite Hother; [done|]. intros ->. by rewrite HK in HK'.
    + apply list_elem_of_singleton in Hin. injection Hin as ->.
      destruct Hf as (_ & _ & Hh & _), Hq as (_ & _ & Hh' & _).
      rewrite Hh in Hh'. injection Hh' as ->.
      exists d. rewrite lookup_insert_eq. by split; [|left].
Qed.

Lemma kept_is_best_skip pre vbh x :
  (∀ d h, x = PDict d → ¬ qualifies d h) →
  kept_is_best pre vbh → kept_is_best (pre ++ [x]) vbh.
Proof.
  intros Hx Hb f h sf Hin Hf Hsf. apply elem_of_app in Hin as [Hin|Hin]; [eauto|].
  apply list_elem_of_singleton in Hin. by destruct (Hx f h).
Qed.

Lemma partition_step_best formats pre (ps ps' : gmap Z pydict * list pydict) x :
  x ∈ formats →
  (kept_from formats ps.1 ∧ candidates_from formats ps.2) ∧ kept_is_best pre ps.1 →
  partition_step ps x = Ok ps' →
  (kept_from formats ps'.1 ∧ candidates_from formats ps'.2) ∧ kept_is_best (pre ++ [x]) ps'.1.
Proof.
  intros Hin [Hsound Hb] Hstep. split; [by eapply partition_step_sound|].
  destruct Hsound as [Hk _].
  destruct x as [| | | | |?|d]; simpl in Hstep;
    try (injection Hstep as <-; by apply kept_is_best_skip).
  destruct (Str.is_empty (format_id_of d)) eqn:Hid.
  { injection Hstep as <-. apply kept_is_best_skip; [|done].
    intros d' h [= <-] (Hne & _). by apply is_empty_true in Hid. }
  apply is_empty_false in Hid.
  apply bind_Ok in Hstep as (vbh' & Hvideo & Hstep). injection Hstep as <-. simpl.
  destruct (negb (Str.eqb (codec_of d "vcodec") "none")) eqn:Hv.
  - apply negb_true_iff, str_eqb_false in Hv.
    apply bind_Ok in Hvideo as (hd & Hh & Hvideo).
    destruct (0 <? hd)%Z eqn:Hpos.
    + apply Z.ltb_lt in Hpos. by eapply keep_best_best.
    + injection Hvideo as <-. apply kept_is_best_skip; [|done].
      intros d' h [= <-] (_ & _ & Hh' & Hpos').
      rewrite Hh in Hh'. injection Hh' as ->. apply Z.ltb_ge in Hpos. lia.
  - injection Hvideo as <-. apply kept_is_best_skip; [|done].
    intros d' h [= <-] (_ & Hcap & _).
    apply negb_false_iff, str_eqb_true in Hv. done.
Qed.

Lemma partition_formats_best formats vbh ac :
  partition_formats formats = Ok (vbh, ac) → kept_is_best formats vbh.
Proof.
  intros Hrun.
  enough ((kept_from formats (vbh, ac).1 ∧ candidates_from formats (vbh, ac).2)
          ∧ kept_is_best formats (vbh, ac).1) as [_ Hb]; [done|].
  apply (foldlM_prefix partition_step
           (λ pre ps, (kept_from formats ps.1 ∧ candidates_from formats ps.2)
                      ∧ kept_is_best pre ps.1)
           formats) with formats [] (∅, []); [|done| |done].
  - intros pre x s s1 Hin. by apply partition_step_best.
  - split; [split|].
    + intros h d Hl. simpl in Hl. by rewrite lookup_empty in Hl.
    + constructor.
    + intros f h sf Hin. by apply elem_of_nil in Hin.
Qed.
End ScoreFacts.

(** * The format selector: properties *)

(** ** Sample data *)

Definition fmt_22 : pydict :=
  [("format_id", PStr "22"); ("vcodec", PStr "avc1"); ("acodec", PStr "mp4a");
   ("height", PInt 720); ("ext", PStr "mp4"); ("tbr", PInt 1200)].

Definition fmt_136 : pydict :=
  [("format_id", PStr "136"); ("vcodec", PStr "avc1"); ("acodec", PStr "none");
   ("height", PInt 720); ("ext", PStr "mp4"); ("tbr", PFloat (F64.make 2500 0));
   ("fps", PInt 30)].

Definition fmt_137 : pydict :=
  [("format_id", PStr "137"); ("vcodec", PStr "avc1"); ("acodec", PNone);
   ("height", PInt 1080); ("ext", PStr "mp4"); ("tbr", PFloat (F64.make 4400 0));
   ("fps", PInt 30)].

Definition fmt_140 : pydict :=
  [("format_id", PStr "140"); ("vcodec", PStr "none"); ("acodec", PStr "mp4a");
   ("abr", PFloat (F64.make 259 (-1))); ("ext", PStr "m4a");
   ("tbr", PFloat (F64.make 259 (-1)))].

Definition fmt_251 : pydict :=
  [("format_id", PStr "251"); ("vcodec", PStr "none"); ("acodec", PStr "opus");
   ("abr", PInt 160); ("ext", PStr "webm"); ("tbr", PInt 160)].

Definition sample_formats : list pyval :=
  [PDict fmt_22; PDict fmt_140; PDict fmt_136; PNone; PDict fmt_251; PDict fmt_137].

Definition sample_item : pydict :=
  [("title", PStr "clip"); ("formats", PList sample_formats)].

Section SelectorProperties.
Context {rt : PyRuntime}.

(** The identifier of a format is absent ([None] is also what [get] gives
    for a missing key) or the empty string. *)
Definition identifier_missing (d : pydict) : Prop :=
  dict_get d "format_id" = PNone ∨ dict_get d "format_id" = PStr "".

Lemma identifier_missing_empty d : identifier_missing d → format_id_of d = "".
Proof. unfold format_id_of. by intros [-> | ->]. Qed.

(** C1. Whatever [build_download_options] returns: no two options have the
    same value; the keys of the selector map are "best" together with the
    values of the options; every option but the baseline carries the
    non-empty identifier of a format of the item, so that no option carries
    the identifier of a format whose identifier is absent or empty. *)
Theorem build_download_options_unique_keyed item has_ffmpeg opts sm :
  build_download_options item has_ffmpeg = Ok (opts, sm) →
  NoDup (value <$> opts) ∧
  dom sm = {["best"]} ∪ list_to_set (value <$> opts) ∧
  (∀ o, o ∈ opts →
     o = option_best ∨
     ∃ formats d, dict_get item "formats" = PList formats ∧ PDict d ∈ formats ∧
                  format_id_of d = value o ∧ value o ≠ "") ∧
  (∀ d o, identifier_missing d → o ∈ opts → value o ≠ format_id_of d).
Proof.
  intros Hrun.
  assert (∀ o, o ∈ opts →
     o = option_best ∨
     ∃ formats d, dict_get item "formats" = PList formats ∧ PDict d ∈ formats ∧
                  format_id_of d = value o ∧ value o ≠ "") as Hfrom.
  { destruct (dict_get item "formats") as [| | | | |formats|] eqn:Hf;
      try (unfold build_download_options in Hrun; rewrite Hf in Hrun;
           injection Hrun as <- <-; intros o Ho;
           apply list_elem_of_singleton in Ho; by left).
    destruct (build_download_options_ok _ _ _ _ _ Hf Hrun) as (st & Hok & -> & ->).
    destruct Hok as [_ _ _ (rest & Hr & Hall) _]. rewrite Hr. intros o Ho.
    apply elem_of_cons in Ho as [->|Ho]; [by left|]. right.
    rewrite Forall_forall in Hall. destruct (Hall o Ho) as (d & ? & ? & ?).
    by exists formats, d. }
  assert (NoDup (value <$> opts) ∧ dom sm = list_to_set (value <$> opts)
          ∧ "best" ∈ value <$> opts) as (Hnd & Hdom & Hbest).
  { destruct (dict_get item "formats") as [| | | | |formats|] eqn:Hf;
      try (unfold build_download_options in Hrun; rewrite Hf in Hrun;
           injection Hrun as <- <-; simpl; rewrite dom_singleton_L;
           split; [apply NoDup_singleton|]; split; set_solver).
    destruct (build_download_options_ok _ _ _ _ _ Hf Hrun) as (st & Hok & -> & ->).
    destruct Hok as [_ Hk Hn (rest & Hr & _) _]. repeat split; [done|done|].
    rewrite Hr. set_solver. }
  repeat split; [done| |done|].
  - rewrite Hdom. set_solver.
  - intros d o Hmiss Ho. rewrite (identifier_missing_empty d Hmiss).
    destruct (Hfrom o Ho) as [->|(? & ? & _ & _ & _ & Hne)]; done.
Qed.

(** C10. Every entry of the returned selector map has one of three shapes:
    the key "best" maps to the merged expression with the merge tool and to
    "best" without it; any other key maps to itself, or to itself followed
    by "+bestaudio/best", and then the merge tool is available and a format
    of the item with that identifier lacks audio. The key "best" is always
    present. *)
Theorem selector_map_shapes item has_ffmpeg opts sm :
  build_download_options item has_ffmpeg = Ok (opts, sm) →
  sm !! "best" = Some (if has_ffmpeg then "bestvideo*+bestaudio/best" else "best") ∧
  ∀ k v, sm !! k = Some v →
    (k = "best" ∧ v = if has_ffmpeg then "bestvideo*+bestaudio/best" else "best") ∨
    (k ≠ "best" ∧
     (v = k ∨
      (v = k +:+ "+bestaudio/best" ∧ has_ffmpeg = true ∧
       ∃ formats d, dict_get item "formats" = PList formats ∧ PDict d ∈ formats ∧
                    format_id_of d = k ∧ has_audio d = false))).
Proof.
  intros Hrun.
  destruct (dict_get item "formats") as [| | | | |formats|] eqn:Hf;
    try (unfold build_download_options in Hrun; rewrite Hf in Hrun;
         injection Hrun as <- <-; simpl; split; [by rewrite lookup_singleton_eq|];
         intros k v Hl; apply lookup_singleton_Some in Hl as [<- <-]; by left).
  destruct (build_download_options_ok _ _ _ _ _ Hf Hrun) as (st & Hok & -> & ->).
  pose proof (best_seen _ _ _ Hok) as Hbest.
  destruct Hok as [Hs _ _ _ Hsh].
  assert (∀ k v, selector_map st !! k = Some v →
    (k = "best" ∧ v = if has_ffmpeg then "bestvideo*+bestaudio/best" else "best") ∨
    (k ≠ "best" ∧
     (v = k ∨
      (v = k +:+ "+bestaudio/best" ∧ has_ffmpeg = true ∧
       ∃ formats0 d, PList formats = PList formats0 ∧ PDict d ∈ formats0 ∧
                     format_id_of d = k ∧ has_audio d = false)))) as Hall.
  { intros k v Hl. destruct (Hsh k v Hl) as [[-> ->]|[Hne [->|(-> & Hff & d & ? & ? & ?)]]].
    - by left.
    - right. split; [done|]. by left.
    - right. split; [done|]. right. split; [done|]. split; [done|]. by exists formats, d. }
  split; [|done].
  rewrite Hs in Hbest. apply elem_of_dom in Hbest as [v Hv].
  destruct (Hall _ _ Hv) as [[_ ->]|[Hne _]]; done.
Qed.

End SelectorProperties.

(** ** What the two emitting loops select *)

Lemma foldlM_snoc_Ok {S A} (f : S → A → result S) s0 l x s :
  foldlM f s0 (l ++ [x]) = Ok s → ∃ s1, foldlM f s0 l = Ok s1 ∧ f s1 x = Ok s.
Proof.
  revert s0. induction l as [|y l IH]; intros s0 Hrun; simpl in Hrun.
  - apply bind_Ok in Hrun as (s1 & Hs1 & Hrun). injection Hrun as <-. by exists s0.
  - apply bind_Ok in Hrun as (s1 & Hs1 & Hrun).
    destruct (IH _ Hrun) as (s2 & Hs2 & Hx). exists s2. split; [|done].
    simpl. by rewrite Hs1.
Qed.

Section SelectedFacts.
Context {rt : PyRuntime}.

(** The video loop, exactly: the options it appends come from the formats
    kept for the heights it visits; the identifier of every such format ends
    up seen; and a format is passed over only when its identifier was seen
    before the loop or belongs to the format of a greater height. *)
Lemma emit_video_exact has_ffmpeg (vbh : gmap Z pydict) st0 hs st :
  StronglySorted (λ a b, (b < a)%Z) hs →
  (∀ h fmt, vbh !! h = Some fmt → format_id_of fmt ≠ "") →
  foldlM (emit_video has_ffmpeg vbh) st0 hs = Ok st →
  ∃ picks : list (Z * pydict),
    picks.*1 `sublist_of` hs ∧
    Forall (λ p, vbh !! p.1 = Some p.2) picks ∧
    options st = options st0 ++ map (λ p, video_option has_ffmpeg p.1 p.2) picks ∧
    seen_values st = seen_values st0 ∪ list_to_set (map (λ p, format_id_of p.2) picks) ∧
    (∀ h fmt, h ∈ hs → vbh !! h = Some fmt → format_id_of fmt ∈ seen_values st) ∧
    (∀ h fmt, h ∈ hs → vbh !! h = Some fmt → format_id_of fmt ∉ seen_values st0 →
       (∀ h' fmt', h' ∈ hs → (h < h')%Z → vbh !! h' = Some fmt' →
                   format_id_of fmt' ≠ format_id_of fmt) →
       (h, fmt) ∈ picks).
Proof.
  intros Hsorted Hids. revert st.
  induction hs as [|x hs IH] using rev_ind; intros st Hrun.
  - injection Hrun as <-. exists []. simpl. rewrite app_nil_r.
    split; [done|]. split; [done|]. split; [done|]. split; [set_solver|].
    split; intros h fmt Hh; by apply elem_of_nil in Hh.
  - apply foldlM_snoc_Ok in Hrun as (s1 & Hs1 & Hstep).
    pose proof (StronglySorted_app_1_l _ _ _ Hsorted) as Hsorted'.
    assert (∀ h, h ∈ hs → (x < h)%Z) as Hbelow.
    { intros h Hh. apply (StronglySorted_app_1_elem_of _ hs [x] h x Hsorted Hh). by left. }
    destruct (IH Hsorted' s1 Hs1) as (picks & Hsub & Hkept & Hopts & Hseen & Hall & Hfirst).
    unfold emit_video in Hstep. destruct (vbh !! x) as [fx|] eqn:Hx; [|done].
    pose proof (Hids _ _ Hx) as Hidx. apply is_empty_false in Hidx. rewrite Hidx in Hstep.
    simpl in Hstep.
    destruct (bool_decide (format_id_of fx ∈ seen_values s1)) eqn:Hin.
    + injection Hstep as <-. apply bool_decide_eq_true in Hin.
      exists picks. split; [by apply sublist_inserts_r|]. split; [done|]. split; [done|].
      split; [done|]. split.
      * intros h fmt Hh Hl. apply elem_of_app in Hh as [Hh|Hh]; [eauto|].
        apply list_elem_of_singleton in Hh as ->. rewrite Hx in Hl. by injection Hl as <-.
      * intros h fmt Hh Hl Hnew Hfresh. apply elem_of_app in Hh as [Hh|Hh].
        -- apply (Hfirst h fmt Hh Hl Hnew). intros h' fmt' Hh'. apply Hfresh.
           apply elem_of_app. by left.
        -- apply list_elem_of_singleton in Hh as ->. rewrite Hx in Hl. injection Hl as <-.
           exfalso. rewrite Hseen in Hin. apply elem_of_union in Hin as [Hin|Hin]; [done|].
           apply elem_of_list_to_set, list_elem_of_fmap in Hin as ([h' fmt'] & Heq & Hp).
           simpl in Heq. rewrite Forall_forall in Hkept. pose proof (Hkept _ Hp) as Hl'.
           simpl in Hl'. apply (Hfresh h' fmt'); [| |done|done].
           ++ apply elem_of_app. left. eapply elem_of_sublist; [|exact Hsub].
              apply list_elem_of_fmap. by exists (h', fmt').
           ++ apply Hbelow. eapply elem_of_sublist; [|exact Hsub].
              apply list_elem_of_fmap. by exists (h', fmt').
    + injection Hstep as <-. apply bool_decide_eq_false in Hin.
      exists (picks ++ [(x, fx)]). split; [|split; [|split; [|split; [|split]]]].
      * rewrite fmap_app. apply sublist_app; [done|]. simpl. reflexivity.
      * apply Forall_app. split; [done|]. by constructor.
      * simpl. rewrite Hopts, map_app, <-app_assoc. done.
      * simpl. rewrite Hseen, map_app, list_to_set_app_L. simpl. set_solver.
      * intros h fmt Hh Hl. simpl. apply elem_of_app in Hh as [Hh|Hh].
        -- apply elem_of_union. right. eauto.
        -- apply list_elem_of_singleton in Hh as ->. rewrite Hx in Hl. injection Hl as <-.
           set_solver.
      * intros h fmt Hh Hl Hnew Hfresh. apply elem_of_app. apply elem_of_app in Hh as [Hh|Hh].
        -- left. apply (Hfirst h fmt Hh Hl Hnew). intros h' fmt' Hh'. apply Hfresh.
           apply elem_of_app. by left.
        -- right. apply list_elem_of_singleton in Hh as ->. rewrite Hx in Hl.
           injection Hl as <-. by apply list_elem_of_singleton.
Qed.

(** The audio loop, exactly: the options it appends come, in order, from the
    candidates it visits, each with the bitrate [abr_of] reads; and the
    identifier of every candidate ends up seen. *)
Lemma emit_audio_exact st0 fmts st :
  Forall (λ fmt, format_id_of fmt ≠ "") fmts →
  foldlM emit_audio st0 fmts = Ok st →
  ∃ (picks : list pydict) (aopts : list DownloadOption),
    picks `sublist_of` fmts ∧
    Forall2 (λ fmt o, ∃ abr, abr_of fmt = Ok abr ∧ o = audio_option abr fmt) picks aopts ∧
    options st = options st0 ++ aopts ∧
    seen_values st = seen_values st0 ∪ list_to_set (map value aopts) ∧
    Forall (λ fmt, format_id_of fmt ∈ seen_values st) fmts.
Proof.
  intros Hids Hrun.
  apply (foldlM_prefix emit_audio
           (λ pre s, ∃ (picks : list pydict) (aopts : list DownloadOption),
              picks `sublist_of` pre ∧
              Forall2 (λ fmt o, ∃ abr, abr_of fmt = Ok abr ∧ o = audio_option abr fmt)
                picks aopts ∧
              options s = options st0 ++ aopts ∧
              seen_values s = seen_values st0 ∪ list_to_set (map value aopts) ∧
              Forall (λ fmt, format_id_of fmt ∈ seen_values s) pre)
           fmts) with fmts [] st0; [| done | | done].
  - intros pre fmt s s1 Hfmt (picks & aopts & Hsub & Hall & Hopts & Hseen & Hin) Hstep.
    rewrite Forall_forall in Hids. pose proof (Hids _ Hfmt) as Hid.
    apply is_empty_false in Hid.
    unfold emit_audio in Hstep. rewrite Hid in Hstep. simpl in Hstep.
    destruct (bool_decide (format_id_of fmt ∈ seen_values s)) eqn:Hseen_fmt.
    + injection Hstep as <-. apply bool_decide_eq_true in Hseen_fmt.
      exists picks, aopts. split; [by apply sublist_inserts_r|]. split; [done|].
      split; [done|]. split; [done|]. apply Forall_app. split; [done|]. by constructor.
    + apply bind_Ok in Hstep as (abr & Habr & Hstep). injection Hstep as <-.
      exists (picks ++ [fmt]), (aopts ++ [audio_option abr fmt]).
      split; [|split; [|split; [|split]]].
      * apply sublist_app; [done|reflexivity].
      * apply Forall2_app; [done|]. constructor; [by exists abr|constructor].
      * simpl. rewrite Hopts, <-app_assoc. done.
      * simpl. rewrite Hseen, map_app, list_to_set_app_L. simpl. set_solver.
      * simpl. apply Forall_app. split.
        -- eapply Forall_impl; [exact Hin|]. intros ? ?. set_solver.
        -- constructor; [set_solver|done].
  - exists [], []. simpl. rewrite app_nil_r.
    split; [done|]. split; [done|]. split; [done|]. split; [set_solver|done].
Qed.

(** The heights the video loop visits and the format kept for each. *)
Definition selected (formats : list pyval) (height : Z) (fmt : pydict) : Prop :=
  ∃ vbh ac, partition_formats formats = Ok (vbh, ac) ∧
            height ∈ video_heights vbh ∧ vbh !! height = Some fmt.

Lemma selected_from formats height fmt :
  selected formats height fmt →
  PDict fmt ∈ formats ∧ format_id_of fmt ≠ "" ∧ is_video_capable fmt ∧
  height_of fmt = Ok height ∧ (0 < height)%Z.
Proof.
  intros (vbh & ac & Hpart & _ & Hl).
  destruct (partition_formats_sound _ _ _ Hpart) as [Hk _]. by apply Hk.
Qed.

(** The run of [build_download_options] on a list of formats, loop by
    loop. *)
Lemma build_download_options_selected item has_ffmpeg opts sm formats :
  dict_get item "formats" = PList formats →
  build_download_options item has_ffmpeg = Ok (opts, sm) →
  ∃ vbh ac sorted (vpicks : list (Z * pydict)) (apicks : list pydict) aopts,
    partition_formats formats = Ok (vbh, ac) ∧
    sorted_audio ac = Ok sorted ∧
    opts = option_best :: map (λ p, video_option has_ffmpeg p.1 p.2) vpicks ++ aopts ∧
    vpicks.*1 `sublist_of` video_heights vbh ∧
    Forall (λ p, vbh !! p.1 = Some p.2) vpicks ∧
    (∀ h fmt, h ∈ video_heights vbh → vbh !! h = Some fmt →
       format_id_of fmt ∈ value <$> opts) ∧
    (∀ h fmt, h ∈ video_heights vbh → vbh !! h = Some fmt → format_id_of fmt ≠ "best" →
       (∀ h' fmt', h' ∈ video_heights vbh → (h < h')%Z → vbh !! h' = Some fmt' →
                   format_id_of fmt' ≠ format_id_of fmt) →
       (h, fmt) ∈ vpicks) ∧
    apicks `sublist_of` take 5 sorted ∧
    Forall2 (λ fmt o, ∃ abr, abr_of fmt = Ok abr ∧ o = audio_option abr fmt) apicks aopts ∧
    Forall (λ fmt, format_id_of fmt ∈ value <$> opts) (take 5 sorted).
Proof.
  unfold build_download_options. intros -> Hrun.
  apply bind_Ok in Hrun as ([vbh ac] & Hpart & Hrun).
  apply bind_Ok in Hrun as (st1 & Hvideo & Hrun).
  apply bind_Ok in Hrun as (sorted & Hsort & Hrun).
  apply bind_Ok in Hrun as (st2 & Haudio & Hrun).
  injection Hrun as <- <-.
  pose proof (partition_formats_sound _ _ _ Hpart) as [Hk Hc].
  apply emit_video_exact in Hvideo
    as (vpicks & Hvsub & Hvkept & Hvopts & Hvseen & Hvall & Hvfirst);
    [|apply video_heights_descending|intros h fmt Hl; by apply Hk in Hl as (_ & ? & _)].
  assert (Forall (λ fmt, format_id_of fmt ≠ "") (take 5 sorted)) as Hids.
  { apply Forall_forall. intros fmt Hfmt.
    apply (subseteq_take 5) in Hfmt. rewrite (sorted_audio_perm _ _ Hsort) in Hfmt.
    unfold candidates_from in Hc. rewrite Forall_forall in Hc.
    by destruct (Hc _ Hfmt) as (_ & ? & _). }
  apply emit_audio_exact in Haudio as (apicks & aopts & Hasub & Haall & Haopts & Haseen & Hain);
    [|done].
  simpl in Hvopts, Hvseen.
  assert (∀ id, id ∈ seen_values st2 → id ∈ value <$> options st2) as Hvalues.
  { intros id. rewrite Haopts, Hvopts, Haseen, Hvseen. simpl.
    rewrite !fmap_app, !elem_of_union, !elem_of_list_to_set, elem_of_cons, !elem_of_app.
    rewrite elem_of_singleton, <-list_fmap_compose. intros [[->|Hid]|Hid]; auto. }
  exists vbh, ac, sorted, vpicks, apicks, aopts.
  split; [done|]. split; [done|]. split; [by rewrite Haopts, Hvopts|].
  split; [done|]. split; [done|]. split; [|split; [|split; [done|split; [done|]]]].
  - intros h fmt Hh Hl. apply Hvalues. rewrite Haseen. apply elem_of_union. left. eauto.
  - intros h fmt Hh Hl Hbest. apply Hvfirst; [done|done|]. simpl. set_solver.
  - eapply Forall_impl; [exact Hain|]. intros fmt. apply Hvalues.
Qed.

Lemma selected_unique formats vbh ac height fmt :
  partition_formats formats = Ok (vbh, ac) →
  selected formats height fmt ↔ height ∈ video_heights vbh ∧ vbh !! height = Some fmt.
Proof.
  intros Hpart. split.
  - intros (vbh' & ac' & Hpart' & ? & ?). rewrite Hpart in Hpart'. by injection Hpart' as <- <-.
  - intros [? ?]. by exists vbh, ac.
Qed.

(** The audio-only formats of a list, in order: the [dict] entries with an
    identifier, no video codec and an audio codec. *)
Definition audio_only_formats (formats : list pyval) : list pydict :=
  omap (λ fmt, match fmt with
               | PDict d =>
                   if negb (Str.is_empty (format_id_of d))
                      && Str.eqb (codec_of d "vcodec") "none"
                      && negb (Str.eqb (codec_of d "acodec") "none")
                   then Some d else None
               | _ => None
               end) formats.

Lemma partition_formats_audio formats vbh ac :
  partition_formats formats = Ok (vbh, ac) → ac = audio_only_formats formats.
Proof.
  unfold partition_formats.
  enough (∀ st st', foldlM partition_step st formats = Ok st' →
                    st'.2 = st.2 ++ audio_only_formats formats) as Hg.
  { intros Hrun. apply (Hg (∅, []) (vbh, ac) Hrun). }
  induction formats as [|x formats IH]; intros st st' Hrun; simpl in Hrun.
  - injection Hrun as <-. by rewrite app_nil_r.
  - apply bind_Ok in Hrun as (st1 & Hstep & Hrun). rewrite (IH _ _ Hrun).
    enough (st1.2 = st.2 ++ audio_only_formats [x]) as ->.
    { rewrite <-app_assoc. f_equal. change (x :: formats) with ([x] ++ formats).
      unfold audio_only_formats. by rewrite omap_app. }
    destruct x as [| | | | | |d]; simpl in Hstep; try (injection Hstep as <-; simpl;
      by rewrite app_nil_r).
    unfold audio_only_formats. simpl.
    destruct (Str.is_empty (format_id_of d)).
    { injection Hstep as <-. simpl. by rewrite app_nil_r. }
    apply bind_Ok in Hstep as (v & _ & Hstep). injection Hstep as <-. simpl.
    destruct (Str.eqb (codec_of d "vcodec") "none" && negb (Str.eqb (codec_of d "acodec") "none"));
      simpl; [done|by rewrite app_nil_r].
Qed.

Lemma audio_only_formats_spec formats d :
  d ∈ audio_only_formats formats ↔
  PDict d ∈ formats ∧ format_id_of d ≠ "" ∧ is_audio_only d.
Proof.
  unfold audio_only_formats, is_audio_only. rewrite list_elem_of_omap. split.
  - intros (fmt & Hin & Hsome). destruct fmt as [| | | | | |d']; try done.
    destruct (Str.is_empty (format_id_of d')) eqn:Hid; [done|].
    destruct (Str.eqb (codec_of d' "vcodec") "none") eqn:Hv; [|done].
    destruct (Str.eqb (codec_of d' "acodec") "none") eqn:Ha; [done|].
    injection Hsome as ->. apply is_empty_false in Hid. apply str_eqb_true in Hv.
    apply str_eqb_false in Ha. done.
  - intros (Hin & Hid & Hv & Ha). exists (PDict d). split; [done|].
    apply is_empty_false in Hid. apply str_eqb_true in Hv. apply str_eqb_false in Ha.
    by rewrite Hid, Hv, Ha.
Qed.

End SelectedFacts.

Section SelectorOrderProperties.
Context {rt : PyRuntime}.

(** The label the selector gives a video option, case by case: the base
    text, " + audio" when the format lacks audio and the merge tool is
    there, then the parenthetical, which holds "video-only" when the format
    lacks audio and there is no merge tool, and the upper-cased extension
    when there is one. *)
Definition video_label_cases (has_ffmpeg : bool) (height : Z) (lacks_audio : bool) (EXT : string)
  : string :=
  "Video " +:+ Str.of_Z height +:+ "p"
  +:+ (if lacks_audio && has_ffmpeg then " + audio" else "")
  +:+ match lacks_audio && negb has_ffmpeg, Str.is_empty EXT with
      | true, false => " (video-only, " +:+ EXT +:+ ")"
      | true, true => " (video-only)"
      | false, false => " (" +:+ EXT +:+ ")"
      | false, true => ""
      end.

Lemma video_label_by_cases has_ffmpeg height fmt :
  video_label has_ffmpeg height fmt
  = video_label_cases has_ffmpeg height (negb (has_audio fmt)) (ext_of fmt).
Proof.
  unfold video_label, video_label_cases.
  destruct (has_audio fmt), has_ffmpeg, (Str.is_empty (ext_of fmt)); simpl;
    rewrite ?append_assoc; reflexivity.
Qed.

(** C4, amended. The returned list is the "best" option, then at most
    five video options, one per visited height and its kept format, in
    strictly descending height, then at most five audio options, at most
    eleven options in all. The audio options come, in order, from the first
    five of the item's audio-only formats as the descending sort by score
    leaves them, each with the bitrate read from its format; that order is
    one of descending score whenever none of these scores is NaN. An item
    whose formats are not a list gets the "best" option alone. *)
Theorem build_download_options_order item has_ffmpeg opts sm :
  build_download_options item has_ffmpeg = Ok (opts, sm) →
  ∃ (vpicks : list (Z * pydict)) (apicks : list pydict) (aopts : list DownloadOption),
    opts = option_best :: map (λ p, video_option has_ffmpeg p.1 p.2) vpicks ++ aopts ∧
    length vpicks ≤ 5 ∧
    StronglySorted (λ p q, (q.1 < p.1)%Z) vpicks ∧
    Forall2 (λ fmt o, ∃ abr, abr_of fmt = Ok abr ∧ o = audio_option abr fmt) apicks aopts ∧
    length apicks ≤ 5 ∧
    length opts ≤ 11 ∧
    ((∀ formats, dict_get item "formats" ≠ PList formats) → opts = [option_best]) ∧
    ∀ formats, dict_get item "formats" = PList formats →
      Forall (λ p, selected formats p.1 p.2) vpicks ∧
      ∃ sorted,
        sorted_audio (audio_only_formats formats) = Ok sorted ∧
        sorted ≡ₚ audio_only_formats formats ∧
        apicks `sublist_of` take 5 sorted ∧
        (Forall (λ d, format_score d ≠ Ok S754_nan) (audio_only_formats formats) →
         StronglySorted score_not_below sorted).
Proof.
  intros Hrun.
  destruct (dict_get item "formats") as [| | | | |formats|] eqn:Hf;
    try (unfold build_download_options in Hrun; rewrite Hf in Hrun;
         injection Hrun as <- <-; exists [], [], []; simpl;
         split; [done|]; split; [lia|]; split; [constructor|]; split; [constructor|];
         split; [lia|]; split; [lia|]; split; [done|]; intros formats; discriminate).
  destruct (build_download_options_selected _ _ _ _ _ Hf Hrun)
    as (vbh & ac & sorted & vpicks & apicks & aopts & Hpart & Hsort & -> & Hvsub & Hvkept &
        _ & _ & Hasub & Haall & _).
  pose proof (partition_formats_audio _ _ _ Hpart) as ->.
  assert (length vpicks ≤ 5) as Hvlen.
  { apply sublist_length in Hvsub. rewrite length_fmap in Hvsub.
    pose proof (video_heights_length vbh). lia. }
  assert (length apicks ≤ 5) as Halen.
  { apply sublist_length in Hasub. rewrite length_take in Hasub. lia. }
  exists vpicks, apicks, aopts.
  split; [done|]. split; [done|]. split; [|split; [done|split; [done|split; [|split]]]].
  - pose proof (StronglySorted_sublist _ _ _ Hvsub (video_heights_descending vbh)) as Hs.
    clear -Hs. induction vpicks as [|p l IH]; [constructor|].
    apply StronglySorted_cons in Hs as [Hp Hs]. constructor; [auto|].
    by apply Forall_fmap in Hp.
  - apply Forall2_length in Haall. simpl. rewrite length_app, length_map. lia.
  - intros Hnone. by destruct (Hnone formats).
  - intros formats' [= <-]. split.
    + apply Forall_forall. intros p Hp. apply (selected_unique _ _ _ _ _ Hpart).
      rewrite Forall_forall in Hvkept. split; [|by apply Hvkept].
      eapply elem_of_sublist; [|exact Hvsub]. apply list_elem_of_fmap. by exists p.
    + exists sorted. split; [done|]. split; [by apply sorted_audio_perm|]. split; [done|].
      intros Hnan. by eapply sorted_audio_descending.
Qed.

(** C2, amended. Every video option of the returned list belongs to a
    height the selector visits and to the format of the item kept for that
    height; it carries the identifier of that format and the label
    "Video {height}p", with " + audio" when the format lacks audio and the
    merge tool is available, followed by a parenthetical that lists
    "video-only" (format lacking audio, no merge tool) and the upper-cased
    extension (whenever the format has one, with or without the merge tool);
    the parenthetical is left out only when it would list nothing.
    Conversely the identifier of every visited format is the value of an
    option, and the option with that label is in the list unless the
    identifier is "best" or that of the format of a greater visited
    height. *)
Theorem video_option_labels item has_ffmpeg opts sm :
  build_download_options item has_ffmpeg = Ok (opts, sm) →
  (∀ o, o ∈ opts → mode o = Video →
     ∃ formats height fmt,
       dict_get item "formats" = PList formats ∧ selected formats height fmt ∧
       PDict fmt ∈ formats ∧ height_of fmt = Ok height ∧
       value o = format_id_of fmt ∧
       label o = video_label_cases has_ffmpeg height (negb (has_audio fmt)) (ext_of fmt)) ∧
  (∀ formats height fmt,
     dict_get item "formats" = PList formats → selected formats height fmt →
     format_id_of fmt ∈ value <$> opts ∧
     (format_id_of fmt ≠ "best" →
      (∀ height' fmt', selected formats height' fmt' → (height < height')%Z →
                       format_id_of fmt' ≠ format_id_of fmt) →
      {| value := format_id_of fmt;
         label := video_label_cases has_ffmpeg height (negb (has_audio fmt)) (ext_of fmt);
         mode := Video |} ∈ opts)).
Proof.
  intros Hrun.
  destruct (dict_get item "formats") as [| | | | |formats|] eqn:Hf;
    try (unfold build_download_options in Hrun; rewrite Hf in Hrun;
         injection Hrun as <- <-; split;
         [intros o Ho Hmode; apply list_elem_of_singleton in Ho as ->; discriminate
         |intros formats; discriminate]).
  destruct (build_download_options_selected _ _ _ _ _ Hf Hrun)
    as (vbh & ac & sorted & vpicks & apicks & aopts & Hpart & Hsort & Hopts & Hvsub & Hvkept &
        Hvall & Hvfirst & Hasub & Haall & _).
  split.
  - intros o Ho Hmode. rewrite Hopts in Ho.
    apply elem_of_cons in Ho as [->|Ho]; [done|].
    apply elem_of_app in Ho as [Ho|Ho].
    + apply list_elem_of_fmap in Ho as ([height fmt] & -> & Hp).
      rewrite Forall_forall in Hvkept. pose proof (Hvkept _ Hp) as Hl. simpl in *.
      assert (selected formats height fmt) as Hsel.
      { apply (selected_unique _ _ _ _ _ Hpart). split; [|done].
        eapply elem_of_sublist; [|exact Hvsub]. apply list_elem_of_fmap. by exists (height, fmt). }
      destruct (selected_from _ _ _ Hsel) as (? & _ & _ & ? & _).
      exists formats, height, fmt. repeat (split; [done|]). apply video_label_by_cases.
    + exfalso. clear -Haall Ho Hmode. induction Haall as [|fmt o' ? ? (abr & _ & ->) _ IH].
      * by apply elem_of_nil in Ho.
      * apply elem_of_cons in Ho as [->|Ho]; [done|auto].
  - intros formats' height fmt [= <-] Hsel.
    apply (selected_unique _ _ _ _ _ Hpart) in Hsel as [Hh Hl].
    split; [by eapply Hvall|]. intros Hbest Hfresh.
    assert ((height, fmt) ∈ vpicks) as Hp.
    { apply Hvfirst; [done..|]. intros h' fmt' Hh' Hlt Hl'. apply (Hfresh h' fmt'); [|done].
      by apply (selected_unique _ _ _ _ _ Hpart). }
    rewrite Hopts. apply elem_of_cons. right. apply elem_of_app. left.
    apply list_elem_of_fmap. exists (height, fmt). split; [|done].
    unfold video_option. simpl. by rewrite video_label_by_cases.
Qed.

(** C5. Of two video-capable formats of the item filed under the same
    positive height, one scoring strictly above the other, the selector
    keeps for that height a format of the item that is not the lower-scored
    one, that is the higher-scored one or scores no lower, and that is the
    higher-scored one when the two are the only formats of that height. The
    lower-scored format is kept for no height, and every video option of the
    returned list is the option of a visited height and its kept format; when
    the height is among those visited, the identifier of the kept format is
    the value of an option, and the option of the kept format is in the list
    unless its identifier is "best" or that of the format of a greater
    visited height. A missing bitrate or frame rate counts as 0. *)
Theorem same_height_keeps_higher_score item has_ffmpeg formats opts sm f g h sf sg :
  dict_get item "formats" = PList formats →
  build_download_options item has_ffmpeg = Ok (opts, sm) →
  PDict f ∈ formats → PDict g ∈ formats →
  qualifies f h → qualifies g h →
  format_score f = Ok sf → format_score g = Ok sg →
  F64.ltb sg sf = true →
  (∃ vbh ac K,
     partition_formats formats = Ok (vbh, ac) ∧ vbh !! h = Some K ∧
     PDict K ∈ formats ∧ qualifies K h ∧
     K ≠ g ∧ (∀ h', vbh !! h' ≠ Some g) ∧
     (K = f ∨ ∃ sK, format_score K = Ok sK ∧ F64.ltb sK sf = false) ∧
     ((∀ d, PDict d ∈ formats → qualifies d h → d = f ∨ d = g) → K = f) ∧
     (∀ o, o ∈ opts → mode o = Video →
        ∃ h' K', h' ∈ video_heights vbh ∧ vbh !! h' = Some K' ∧
                 o = video_option has_ffmpeg h' K') ∧
     (h ∈ video_heights vbh →
      format_id_of K ∈ value <$> opts ∧
      (format_id_of K ≠ "best" →
       (∀ h' K', h' ∈ video_heights vbh → (h < h')%Z → vbh !! h' = Some K' →
                 format_id_of K' ≠ format_id_of K) →
       video_option has_ffmpeg h K ∈ opts))) ∧
  (∀ d, dict_lookup d "tbr" = None → format_score d = format_score (("tbr", PInt 0) :: d)) ∧
  (∀ d, dict_lookup d "fps" = None → format_score d = format_score (("fps", PInt 0) :: d)).
Proof.
  intros Hf Hrun Hin_f Hin_g Hqf Hqg Hsf Hsg Hlt.
  split; [|split; intros d Hd; unfold format_score, dict_get; simpl; by rewrite Hd].
  destruct (build_download_options_selected _ _ _ _ _ Hf Hrun)
    as (vbh & ac & sorted & vpicks & apicks & aopts & Hpart & Hsort & Hopts & Hvsub & Hvkept &
        Hvall & Hvfirst & Hasub & Haall & _).
  destruct (partition_formats_sound _ _ _ Hpart) as [Hk _].
  destruct (partition_formats_best _ _ _ Hpart f h sf Hin_f Hqf Hsf) as (K & HK & Hbest).
  assert (K ≠ g) as Hne.
  { intros ->. destruct Hbest as [->|(sK & HsK & Hle)].
    - rewrite Hsf in Hsg. injection Hsg as ->. by rewrite F64Facts.ltb_irrefl in Hlt.
    - rewrite Hsg in HsK. injection HsK as <-. congruence. }
  destruct (Hk _ _ HK) as (HinK & HidK & HcapK & HhK & Hpos).
  exists vbh, ac, K. split; [done|]. split; [done|]. split; [done|].
  split; [done|]. split; [done|]. split; [|split; [done|split; [|split]]].
  - intros h' Hg. destruct (Hk _ _ Hg) as (_ & _ & _ & Hh' & _).
    destruct Hqg as (_ & _ & Hhg & _). rewrite Hhg in Hh'. injection Hh' as <-.
    rewrite HK in Hg. by injection Hg.
  - intros Honly. destruct (Honly K HinK) as [->| ->]; done.
  - intros o Ho Hmode. rewrite Hopts in Ho.
    apply elem_of_cons in Ho as [->|Ho]; [done|].
    apply elem_of_app in Ho as [Ho|Ho].
    + apply list_elem_of_fmap in Ho as ([h' K'] & -> & Hp).
      rewrite Forall_forall in Hvkept. pose proof (Hvkept _ Hp) as Hl. simpl in *.
      exists h', K'. split; [|done].
      eapply elem_of_sublist; [|exact Hvsub]. apply list_elem_of_fmap. by exists (h', K').
    + exfalso. clear -Haall Ho Hmode. induction Haall as [|fmt o' ? ? (abr & _ & ->) _ IH].
      * by apply elem_of_nil in Ho.
      * apply elem_of_cons in Ho as [->|Ho]; [done|auto].
  - intros Hh. split; [by eapply Hvall|]. intros Hbest' Hfresh.
    rewrite Hopts. apply elem_of_cons. right. apply elem_of_app. left.
    apply list_elem_of_fmap. exists (h, K). split; [done|]. by apply Hvfirst.
Qed.

End SelectorOrderProperties.

(** C1 at the sample item. *)
Lemma build_download_options_unique_keyed_witness :
  ∃ opts sm,
    build_download_options (rt := plain_runtime) sample_item true = Ok (opts, sm) ∧
    NoDup (value <$> opts) ∧
    dom sm = {["best"]} ∪ list_to_set (value <$> opts).
Proof.
  eexists _, _. split; [vm_compute; reflexivity|].
  pose proof (build_download_options_unique_keyed (rt := plain_runtime) sample_item true
                _ _ eq_refl) as (Hnd & Hdom & _).
  split; [exact Hnd|exact Hdom].
Defined.

(** C10 at the sample item. *)
Lemma selector_map_shapes_witness :
  ∃ opts sm,
    build_download_options (rt := plain_runtime) sample_item true = Ok (opts, sm) ∧
    sm !! "best" = Some "bestvideo*+bestaudio/best" ∧
    sm !! "136" = Some "136+bestaudio/best" ∧
    sm !! "140" = Some "140".
Proof.
  eexists _, _. split; [vm_compute; reflexivity|].
  pose proof (selector_map_shapes (rt := plain_runtime) sample_item true _ _ eq_refl)
    as [Hbest _].
  split; [exact Hbest|]. split; vm_compute; reflexivity.
Defined.

(** C4, amended, at the sample item: the two audio formats come out with
    the higher score first. *)
Lemma build_download_options_order_witness :
  score_not_below (rt := plain_runtime) fmt_251 fmt_140 ∧
  ∃ opts sm,
    build_download_options (rt := plain_runtime) sample_item true = Ok (opts, sm) ∧
    length opts ≤ 11.
Proof.
  assert (∃ opts sm,
    build_download_options (rt := plain_runtime) sample_item true = Ok (opts, sm))
    as (opts & sm & Hrun) by (eexists _, _; vm_compute; reflexivity).
  destruct (build_download_options_order (rt := plain_runtime) sample_item true opts sm Hrun)
    as (vpicks & apicks & aopts & _ & _ & _ & _ & _ & Hlen & _ & Hlist).
  destruct (Hlist sample_formats eq_refl) as (_ & sorted & Hsorted & _ & _ & Horder).
  split; [|exists opts, sm; split; [exact Hrun|exact Hlen]].
  assert (audio_only_formats (rt := plain_runtime) sample_formats = [fmt_140; fmt_251])
    as Hcandidates by (vm_compute; reflexivity).
  rewrite Hcandidates in Hsorted, Horder.
  vm_compute in Hsorted. injection Hsorted as <-.
  assert (Forall (λ d, format_score (rt := plain_runtime) d ≠ Ok S754_nan)
            [fmt_140; fmt_251]) as Hnan.
  { apply Forall_cons. split; [vm_compute; discriminate|].
    apply Forall_cons. split; [vm_compute; discriminate|]. apply Forall_nil_2. }
  specialize (Horder Hnan). apply StronglySorted_cons in Horder as [Hfirst _].
  apply Forall_cons in Hfirst as [Hfirst _]. exact Hfirst.
Defined.

(** A runtime whose sort does what CPython's does on a list that holds a
    NaN key and whose reversal is one run. [list.sort(reverse=True)]
    reverses the list, finds the run the reversed list starts with by
    comparing each element with the one before it, and, when that run is the
    whole list, reverses back without having moved an element. On every
    other list this runtime sorts like [plain_runtime]. *)
Fixpoint one_run (keys : list spec_float) : bool :=
  match keys with
  | [] => true
  | a :: rest =>
      match rest with
      | [] => true
      | b :: _ => negb (F64.ltb b a) && one_run rest
      end
  end.

Definition run_aware_sort (A : Type) (l : list (spec_float * A)) : list (spec_float * A) :=
  if existsb F64.is_nan (map fst l) && one_run (rev (map fst l))
  then l
  else sort_desc F64.ltb fst l.

Lemma run_aware_sort_perm A (l : list (spec_float * A)) : run_aware_sort A l ≡ₚ l.
Proof. unfold run_aware_sort. destruct (_ && _); [done|apply sort_desc_perm]. Qed.

Lemma run_aware_sort_ordered A (l : list (spec_float * A)) :
  Forall (λ p, p.1 ≠ S754_nan) l → run_aware_sort A l = sort_desc F64.ltb fst l.
Proof.
  intros Hnan. unfold run_aware_sort.
  assert (existsb F64.is_nan (map fst l) = false) as ->; [|done].
  induction Hnan as [|p l Hp _ IH]; [done|]. simpl. rewrite IH.
  by destruct p as [[] ?].
Qed.

Definition run_aware_runtime : PyRuntime :=
  {| py_repr := λ _, "";
     int_of_str := λ _, None;
     float_of_str := λ _, None;
     list_sort_desc := run_aware_sort;
     list_sort_desc_perm := run_aware_sort_perm;
     list_sort_desc_ordered := run_aware_sort_ordered |}.

(** Three audio-only formats; the bitrate of the second is NaN, which
    [json.loads] reads from the text [NaN]. *)
Definition fmt_a : pydict :=
  [("format_id", PStr "a"); ("vcodec", PStr "none"); ("acodec", PStr "mp4a");
   ("ext", PStr "m4a"); ("tbr", PInt 160)].

Definition fmt_b : pydict :=
  [("format_id", PStr "b"); ("vcodec", PStr "none"); ("acodec", PStr "mp4a");
   ("ext", PStr "m4a"); ("tbr", PFloat S754_nan)].

Definition fmt_c : pydict :=
  [("format_id", PStr "c"); ("vcodec", PStr "none"); ("acodec", PStr "mp4a");
   ("ext", PStr "m4a"); ("tbr", PInt 200)].

Definition nan_item : pydict := [("formats", PList [PDict fmt_a; PDict fmt_b; PDict fmt_c])].

(** C4 as stated fails: with a NaN score between them, the option of the
    format scoring 160 comes before the option of the format scoring 200. *)
Lemma build_download_options_nan_counterexample :
  build_download_options (rt := run_aware_runtime) nan_item true
  = Ok ([option_best;
         {| value := "a"; label := "Audio (M4A)"; mode := Audio |};
         {| value := "b"; label := "Audio (M4A)"; mode := Audio |};
         {| value := "c"; label := "Audio (M4A)"; mode := Audio |}],
        <["c" := "c"]> (<["b" := "b"]> (<["a" := "a"]>
          {["best" := "bestvideo*+bestaudio/best"]}))) ∧
  format_score (rt := run_aware_runtime) fmt_a = Ok (F64.make 160 0) ∧
  format_score (rt := run_aware_runtime) fmt_c = Ok (F64.make 200 0) ∧
  F64.ltb (F64.make 160 0) (F64.make 200 0) = true.
Proof. repeat split; vm_compute; reflexivity. Qed.

(** C2 as stated fails: a format that has audio, selected with the merge
    tool available, still gets its extension in a parenthetical. *)
Lemma video_label_extension_counterexample :
  has_audio (rt := plain_runtime) fmt_22 = true ∧
  build_download_options (rt := plain_runtime) [("formats", PList [PDict fmt_22])] true
  = Ok ([option_best; {| value := "22"; label := "Video 720p (MP4)"; mode := Video |}],
        <["22" := "22"]> {["best" := "bestvideo*+bestaudio/best"]}).
Proof. split; vm_compute; reflexivity. Qed.

(** C2, amended, at the sample item without the merge tool: the 1080p
    format, which lacks audio. *)
Lemma video_option_labels_witness :
  ∃ opts sm,
    build_download_options (rt := plain_runtime) sample_item false = Ok (opts, sm) ∧
    {| value := "137"; label := "Video 1080p (video-only, MP4)"; mode := Video |} ∈ opts.
Proof.
  assert (∃ opts sm,
    build_download_options (rt := plain_runtime) sample_item false = Ok (opts, sm))
    as (opts & sm & Hrun) by (eexists _, _; vm_compute; reflexivity).
  assert (∃ vbh ac,
    partition_formats (rt := plain_runtime) sample_formats = Ok (vbh, ac) ∧
    video_heights vbh = [1080%Z; 720%Z] ∧ vbh !! 1080%Z = Some fmt_137)
    as (vbh & ac & Hpart & Hheights & Hkept).
  { eexists _, _. split; [vm_compute; reflexivity|]. split; vm_compute; reflexivity. }
  exists opts, sm. split; [exact Hrun|].
  destruct (video_option_labels (rt := plain_runtime) sample_item false opts sm Hrun)
    as [_ Hall].
  destruct (Hall sample_formats 1080%Z fmt_137 eq_refl) as [_ Hoption].
  - apply (selected_unique _ _ _ _ _ Hpart). rewrite Hheights. split; [by left|done].
  - apply Hoption; [discriminate|].
    intros height' fmt' Hsel Hlt.
    apply (selected_unique _ _ _ _ _ Hpart) in Hsel as [Hh _]. rewrite Hheights in Hh.
    apply elem_of_cons in Hh as [->|Hh]; [lia|].
    apply list_elem_of_singleton in Hh as ->. lia.
Defined.

(** Two formats of height 720: one scores 1200, the other 2500.03. *)
Definition two_at_720 : pydict := [("formats", PList [PDict fmt_22; PDict fmt_136])].

(** C5 at these two formats: the option of height 720 is the one of the
    higher-scoring format. *)
Lemma same_height_keeps_higher_score_witness :
  ∃ opts sm,
    build_download_options (rt := plain_runtime) two_at_720 true = Ok (opts, sm) ∧
    video_option (rt := plain_runtime) true 720 fmt_136 ∈ opts.
Proof.
  assert (∃ opts sm,
    build_download_options (rt := plain_runtime) two_at_720 true = Ok (opts, sm))
    as (opts & sm & Hrun) by (eexists _, _; vm_compute; reflexivity).
  exists opts, sm. split; [exact Hrun|].
  assert (qualifies (rt := plain_runtime) fmt_136 720) as Hq136.
  { split; [vm_compute; discriminate|]. split; [vm_compute; discriminate|].
    split; [vm_compute; reflexivity|lia]. }
  assert (qualifies (rt := plain_runtime) fmt_22 720) as Hq22.
  { split; [vm_compute; discriminate|]. split; [vm_compute; discriminate|].
    split; [vm_compute; reflexivity|lia]. }
  assert (PDict fmt_136 ∈ [PDict fmt_22; PDict fmt_136]) as Hin136.
  { apply elem_of_cons. right. apply elem_of_cons. by left. }
  assert (PDict fmt_22 ∈ [PDict fmt_22; PDict fmt_136]) as Hin22.
  { apply elem_of_cons. by left. }
  destruct (same_height_keeps_higher_score (rt := plain_runtime) two_at_720 true
    [PDict fmt_22; PDict fmt_136] opts sm fmt_136 fmt_22 720
    (F64.add (F64.make 2500 0) (F64.div (F64.make 30 0) (F64.make 1000 0)))
    (F64.make 1200 0) eq_refl Hrun Hin136 Hin22 Hq136 Hq22 eq_refl eq_refl eq_refl)
    as ((vbh & ac & K & Hpart & HK & _ & _ & _ & _ & _ & Honly & _ & Hoption) & _).
  assert (K = fmt_136) as ->.
  { apply Honly. intros d Hd _.
    apply elem_of_cons in Hd as [[= ->]|Hd]; [right; reflexivity|].
    apply elem_of_cons in Hd as [[= ->]|Hd]; [left; reflexivity|].
    apply elem_of_nil in Hd. destruct Hd. }
  vm_compute in Hpart. injection Hpart as <- _.
  apply Hoption.
  - vm_compute. by left.
  - discriminate.
  - intros h' K' Hh' Hlt. vm_compute in Hh'.
    apply list_elem_of_singleton in Hh' as ->. lia.
Defined.

(** * The entry flattener: properties *)

Lemma flatten_leaves acc entries :
  Forall (λ e, ∃ d, e = PDict d ∧ dict_lookup d "entries" = Some (PList [])) entries →
  foldlM flatten_step acc entries = Ok (acc ++ entries).
Proof.
  revert acc. induction entries as [|e entries IH]; intros acc Hall; simpl.
  - by rewrite app_nil_r.
  - apply Forall_cons in Hall as [(d & -> & Hd) Hall].
    assert (flatten_step acc (PDict d) = Ok (acc ++ [PDict d])) as ->.
    { unfold flatten_step, py_get, dict_get. rewrite Hd. by destruct d. }
    simpl. rewrite IH by done. by rewrite <-app_assoc.
Qed.

Lemma flatten_hollow acc entries :
  Forall (λ e, ∃ d nested, e = PDict d ∧ dict_lookup d "entries" = Some (PList nested) ∧
                           nested ≠ [] ∧ Forall (λ x, truthy x = false) nested) entries →
  foldlM flatten_step acc entries = Ok acc.
Proof.
  revert acc. induction entries as [|e entries IH]; intros acc Hall; simpl; [done|].
  apply Forall_cons in Hall as [(d & nested & -> & Hd & Hne & Hfalsy) Hall].
  assert (flatten_step acc (PDict d) = Ok acc) as ->; [|simpl; by apply IH].
  assert (filter (λ item, truthy item = true) nested = []) as Hnone.
  { clear -Hfalsy. induction Hfalsy as [|x l Hx _ IH]; [done|].
    rewrite filter_cons_False by congruence. done. }
  unfold flatten_step, py_get, dict_get. rewrite Hd.
  assert (truthy (PDict d) = true) as -> by (by destruct d).
  change (default PNone (Some (PList nested))) with (PList nested).
  change ((if negb true then Ok acc
           else nested0 ← Ok (PList nested);
                if truthy nested0
                then items ← py_iter nested0;
                     Ok (acc ++ filter (λ item, truthy item = true) items)
                else Ok (acc ++ [PDict d])) = Ok acc)
    with ((if truthy (PList nested)
           then Ok (acc ++ filter (λ item, truthy item = true) nested)
           else Ok (acc ++ [PDict d])) = Ok acc).
  assert (truthy (PList nested) = true) as -> by (by destruct nested).
  by rewrite Hnone, app_nil_r.
Qed.

(** The root of the counterexample: one direct entry, whose nested list is
    empty. *)
Definition hollow_entry : pydict := [("id", PStr "a"); ("entries", PList [])].
Definition hollow_root : pydict := [("id", PStr "r"); ("entries", PList [PDict hollow_entry])].

(** C3 as stated fails: the direct entry is returned, not the root. *)
Lemma flatten_entries_empty_inner_counterexample :
  flatten_entries hollow_root = Ok [PDict hollow_entry] ∧
  flatten_entries hollow_root ≠ Ok [PDict hollow_root].
Proof. split; [reflexivity|discriminate]. Qed.

(** C3, amended. For a root whose direct entries (at least one) each carry
    an empty nested entry list, [flatten_entries] returns these direct
    entries, in order. It falls back to the root when the root has no direct
    entry, and when every direct entry carries a nested list that is not
    empty and holds only empty items. *)
Theorem flatten_entries_empty_inner info entries :
  dict_get info "entries" = PList entries →
  (entries ≠ [] →
   Forall (λ e, ∃ d, e = PDict d ∧ dict_lookup d "entries" = Some (PList [])) entries →
   flatten_entries info = Ok entries) ∧
  (entries = [] → flatten_entries info = Ok [PDict info]) ∧
  (Forall (λ e, ∃ d nested, e = PDict d ∧ dict_lookup d "entries" = Some (PList nested) ∧
                            nested ≠ [] ∧ Forall (λ x, truthy x = false) nested) entries →
   flatten_entries info = Ok [PDict info]).
Proof.
  intros Hget.
  assert (entries ≠ [] →
          flatten_entries info
          = (flat ← foldlM flatten_step [] entries;
             Ok (match flat with [] => [PDict info] | _ => flat end))) as Hloop.
  { intros Hne. unfold flatten_entries. rewrite Hget. by destruct entries. }
  repeat split.
  - intros Hne Hall. rewrite (Hloop Hne), (flatten_leaves [] entries Hall).
    by destruct entries.
  - intros ->. unfold flatten_entries. by rewrite Hget.
  - intros Hall. destruct entries as [|e entries].
    + unfold flatten_entries. by rewrite Hget.
    + by rewrite Hloop, (flatten_hollow [] (e :: entries) Hall).
Qed.

(** C3, amended, at the root of the counterexample. *)
Lemma flatten_entries_empty_inner_witness :
  flatten_entries hollow_root = Ok [PDict hollow_entry].
Proof.
  destruct (flatten_entries_empty_inner hollow_root [PDict hollow_entry] eq_refl)
    as (Hleaves & _).
  apply Hleaves; [discriminate|].
  constructor; [|constructor]. by exists hollow_entry.
Defined.

(** * Title normalisation: properties *)

Fixpoint all_space (s : string) : bool :=
  match s with
  | EmptyString => true
  | String c s' => Str.isspace c && all_space s'
  end.

Lemma lstrip_all_space s : all_space s = true → Str.lstrip s = "".
Proof.
  induction s as [|c s IH]; [done|]. simpl. intros [Hc Hs]%andb_true_iff.
  rewrite Hc. auto.
Qed.

(** C9. A raw title that is not empty and holds only whitespace is
    normalised to the empty string, whatever the fallback; the fallback is
    used when the raw title is empty or absent, and only then: a raw title
    that is not empty gives a result that does not depend on the fallback. *)
Theorem normalize_title_blank raw fallback :
  raw ≠ "" → all_space raw = true →
  normalize_title (Some raw) fallback = "" ∧
  normalize_title (Some "") fallback = Str.take 100 (Str.sub_spaces false fallback) ∧
  normalize_title None fallback = Str.take 100 (Str.sub_spaces false fallback) ∧
  (∀ s other, s ≠ "" → normalize_title (Some s) fallback = normalize_title (Some s) other).
Proof.
  intros Hne Hblank. repeat split.
  - unfold normalize_title. destruct raw as [|c raw]; [done|].
    cbv beta iota delta [Str.is_empty]. unfold Str.strip.
    rewrite (lstrip_all_space _ Hblank). reflexivity.
  - intros s other Hs. unfold normalize_title. by destruct s.
Qed.

(** C9 at a title of three spaces. *)
Lemma normalize_title_blank_witness :
  normalize_title (Some "   ") "media_1" = "".
Proof.
  apply (normalize_title_blank "   " "media_1"); [discriminate|reflexivity].
Defined.

(** * The extractor call: properties *)

(** The text [run_yt_dlp_command] inspects after a failure. *)
Definition failure_message (proc : CompletedProcess) : string :=
  Str.strip (str_or (stderr proc) (str_or (stdout proc) "yt-dlp failed")).

(** An extractor that fails on a certificate check unless told not to check. *)
Definition strict_certificate : history → list string → result CompletedProcess :=
  λ _ cmd,
    if bool_decide ("--no-check-certificates" ∈ cmd)
    then Ok {| returncode := 0; stdout := "{}"; stderr := "" |}
    else Ok {| returncode := 1; stdout := "";
               stderr := "ERROR: unable to get local issuer certificate" |}.

(** * The download job: properties *)

(** The regular files of a scan whose name does not end in ".part". *)
Definition finished_files (entries : list DirEntry) : list DirEntry :=
  filter (λ p, is_file p = true ∧ Str.endswith (entry_name p) ".part" = false) entries.

Section OrchestratorFacts.
Context {rt : PyRuntime}.

Lemma sorted_head_latest (files : list DirEntry) first rest :
  Forall (λ p, st_mtime p ≠ S754_nan) files →
  map snd (list_sort_desc (map (λ p, (st_mtime p, p)) files)) = first :: rest →
  first ∈ files ∧ ∀ p, p ∈ files → F64.leb (st_mtime p) (st_mtime first) = true.
Proof.
  intros Hnan Hsorted.
  set (keyed := map (λ p, (st_mtime p, p)) files) in *.
  assert (Forall (λ kp, kp.1 = st_mtime kp.2 ∧ kp.1 ≠ S754_nan) keyed) as Hkeyed.
  { subst keyed. apply Forall_forall. intros kp Hkp.
    apply list_elem_of_fmap in Hkp as (p & -> & Hp). simpl. split; [done|].
    rewrite Forall_forall in Hnan. by apply Hnan. }
  assert (map snd keyed = files) as Hfiles.
  { subst keyed. rewrite map_map. simpl. apply map_id. }
  rewrite list_sort_desc_ordered in Hsorted
    by (eapply Forall_impl; [exact Hkeyed|]; by intros ? [_ ?]).
  assert (StronglySorted (not_below F64.ltb fst) (sort_desc F64.ltb fst keyed)) as Hs.
  { apply (sort_desc_sorted F64.ltb fst (λ x, x ≠ S754_nan)).
    - apply F64Facts.ltb_asym.
    - apply F64Facts.ltb_negtrans.
    - eapply Forall_impl; [exact Hkeyed|]. by intros ? [_ ?]. }
  assert (sort_desc F64.ltb fst keyed ≡ₚ keyed) as Hperm by apply sort_desc_perm.
  destruct (sort_desc F64.ltb fst keyed) as [|k0 ks] eqn:Hsort; [done|].
  simpl in Hsorted. injection Hsorted as <- <-.
  assert (∀ kp, kp ∈ keyed → kp.1 = st_mtime kp.2 ∧ kp.1 ≠ S754_nan) as Hk
    by (by apply Forall_forall).
  assert (k0 ∈ keyed) as Hk0 by (rewrite <-Hperm; by left).
  apply StronglySorted_cons in Hs as [Hhead _]. rewrite Forall_forall in Hhead.
  split.
  - rewrite <-Hfiles. apply list_elem_of_fmap. by exists k0.
  - intros p Hp. rewrite <-Hfiles in Hp. apply list_elem_of_fmap in Hp as (kp & -> & Hkp).
    destruct (Hk _ Hk0) as [<- Hn0], (Hk _ Hkp) as [<- Hn].
    apply F64Facts.not_ltb_leb; [done|done|].
    rewrite <-Hperm in Hkp. apply elem_of_cons in Hkp as [->|Hkp].
    + apply F64Facts.ltb_irrefl.
    + by apply Hhead.
Qed.

(** C8. When the extractor call of [run_download] comes back with exit code
    0, the workspace is scanned for regular files whose name does not end in
    ".part": with none, [run_download] raises [DownloaderError] (the
    specification's ExtractionError); with one or more, whose modification
    times are numbers, it returns one of them that no other was modified
    after. *)
Theorem run_download_locates subprocess_run cookies rglob
    url item_count index output_dir format_selector h proc h1 :
  run_yt_dlp_command subprocess_run
    (download_command cookies url item_count index output_dir format_selector) h
  = (Ok proc, h1) →
  returncode proc = 0%Z →
  (finished_files (rglob h1 output_dir) = [] →
   run_download subprocess_run cookies rglob url item_count index output_dir format_selector h
   = (Raise (DownloaderError "Download finished but no file was produced."), h1)) ∧
  (finished_files (rglob h1 output_dir) ≠ [] →
   Forall (λ p, st_mtime p ≠ S754_nan) (finished_files (rglob h1 output_dir)) →
   ∃ first,
     run_download subprocess_run cookies rglob url item_count index output_dir format_selector h
     = (Ok first, h1) ∧
     first ∈ finished_files (rglob h1 output_dir) ∧
     ∀ p, p ∈ finished_files (rglob h1 output_dir) →
          F64.leb (st_mtime p) (st_mtime first) = true).
Proof.
  intros Hrun Hrc. unfold run_download. rewrite Hrun, Hrc. simpl negb. cbv iota.
  unfold locate_file. fold (finished_files (rglob h1 output_dir)).
  split.
  - by intros ->.
  - intros Hne Hnan. set (files := finished_files (rglob h1 output_dir)) in *.
    destruct (map snd (list_sort_desc (map (λ p, (st_mtime p, p)) files)))
      as [|first rest] eqn:Hsorted.
    + exfalso. apply Hne.
      apply (f_equal length) in Hsorted. rewrite length_map in Hsorted.
      rewrite (Permutation_length (list_sort_desc_perm _ _)), length_map in Hsorted.
      by destruct files.
    + exists first. split; [by destruct files|]. by eapply sorted_head_latest.
Qed.

End OrchestratorFacts.

(** A workspace after a merge: two by-products, a partial file and a
    directory. *)
Definition merged_workspace : list DirEntry :=
  [ {| entry_path := "job/clip.f137.mp4"; entry_name := "clip.f137.mp4"; is_file := true;
       st_mtime := F64.make 1700000000 0 |};
    {| entry_path := "job/clip.mp4"; entry_name := "clip.mp4"; is_file := true;
       st_mtime := F64.make 1700000020 0 |};
    {| entry_path := "job/clip.f140.m4a.part"; entry_name := "clip.f140.m4a.part";
       is_file := true; st_mtime := F64.make 1700000030 0 |};
    {| entry_path := "job/sub"; entry_name := "sub"; is_file := false;
       st_mtime := F64.make 1700000040 0 |} ].

Definition always_succeeds : history → list string → result CompletedProcess :=
  λ _ _, Ok {| returncode := 0; stdout := ""; stderr := "" |}.

(** C8 at the merged workspace: the merged file, the latest of the two
    finished files, is returned. *)
Lemma run_download_locates_witness :
  ∃ first,
    run_download (rt := plain_runtime) always_succeeds "" (λ _ _, merged_workspace)
      "https://youtu.be/x" 1 None "job" (Some "137+bestaudio/best") []
    = (Ok first,
       [["yt-dlp"; "--no-warnings"; "--restrict-filenames"; "-P"; "job"; "-o";
         "%(title).80s.%(ext)s"; "-f"; "137+bestaudio/best"; "--no-playlist";
         "https://youtu.be/x"]]) ∧
    entry_name first = "clip.mp4".
Proof.
  destruct (run_download_locates (rt := plain_runtime) always_succeeds ""
              (λ _ _, merged_workspace) "https://youtu.be/x" 1 None "job"
              (Some "137+bestaudio/best") []
              {| returncode := 0; stdout := ""; stderr := "" |}
              [["yt-dlp"; "--no-warnings"; "--restrict-filenames"; "-P"; "job"; "-o";
                "%(title).80s.%(ext)s"; "-f"; "137+bestaudio/best"; "--no-playlist";
                "https://youtu.be/x"]]
              eq_refl eq_refl) as [_ Hsome].
  destruct Hsome as (first & Hrun & _ & _).
  - vm_compute. discriminate.
  - vm_compute. repeat constructor; discriminate.
  - exists first. split; [exact Hrun|].
    vm_compute in Hrun. by injection Hrun as <-.
Defined.

(** * The URL classifier: properties *)

Lemma append_cons (a : ascii) (s t : string) : String a s +:+ t = String a (s +:+ t).
Proof. reflexivity. Qed.

Lemma append_empty_r (s : string) : s +:+ "" = s.
Proof. induction s as [|a s IH]; [done|]. by rewrite append_cons, IH. Qed.

Lemma rev_app_append (s acc : string) : String.rev_app s acc = String.rev s +:+ acc.
Proof.
  unfold String.rev. revert acc. induction s as [|a s IH]; intros acc; [done|].
  simpl. rewrite (IH (String a acc)), (IH (String a "")), append_assoc. done.
Qed.

Lemma rev_append (s t : string) : String.rev (s +:+ t) = String.rev t +:+ String.rev s.
Proof.
  induction s as [|a s IH].
  - by rewrite append_empty_r.
  - rewrite append_cons. unfold String.rev at 1 3. simpl.
    rewrite !rev_app_append, IH, append_assoc. done.
Qed.

Lemma rev_involutive (s : string) : String.rev (String.rev s) = s.
Proof.
  induction s as [|a s IH]; [done|].
  unfold String.rev at 2. simpl. rewrite rev_app_append, rev_append, IH. done.
Qed.

Lemma startswith_cons s a p :
  Str.startswith s (String a p) = true → ∃ s', s = String a s' ∧ Str.startswith s' p = true.
Proof.
  destruct s as [|b s]; simpl; [done|]. intros [Hab Hs]%andb_true_iff.
  apply bool_decide_eq_true in Hab as ->. by exists s.
Qed.

Lemma startswith_prefix s p : Str.startswith s p = true ↔ ∃ t, s = p +:+ t.
Proof.
  revert s. induction p as [|a p IH]; intros s.
  - split; [by exists s|by destruct s].
  - split.
    + intros (s' & -> & Hs)%startswith_cons. apply IH in Hs as (t & ->). by exists t.
    + intros (t & ->). rewrite append_cons. simpl.
      rewrite bool_decide_eq_true_2 by done. apply IH. by exists t.
Qed.

Lemma endswith_suffix s p : Str.endswith s p = true ↔ ∃ pre, s = pre +:+ p.
Proof.
  unfold Str.endswith. rewrite startswith_prefix. split.
  - intros (t & Ht). exists (String.rev t).
    by rewrite <-(rev_involutive s), Ht, rev_append, rev_involutive.
  - intros (pre & ->). exists (String.rev pre). apply rev_append.
Qed.

(** A host matches a root domain when it is that domain or one of its
    subdomains. *)
Lemma host_matches_subdomain host root_domain :
  host_matches host root_domain = true ↔
  host = root_domain ∨ ∃ sub, host = sub +:+ "." +:+ root_domain.
Proof.
  unfold host_matches. rewrite orb_true_iff, str_eqb_true, endswith_suffix. done.
Qed.

(** Two root domains of different platforms have no host in common. *)
Ltac reverse_pattern H :=
  match type of H with
  | Str.startswith _ (String.rev ?p) = true =>
      let v := eval vm_compute in (String.rev p) in
      change (String.rev p) with v in H
  end.

Lemma host_matches_disjoint host platform1 domains1 domain1 platform2 domains2 domain2 :
  (platform1, domains1) ∈ SUPPORTED_PLATFORMS → domain1 ∈ domains1 →
  (platform2, domains2) ∈ SUPPORTED_PLATFORMS → domain2 ∈ domains2 →
  host_matches host domain1 = true → host_matches host domain2 = true →
  platform1 = platform2.
Proof.
  unfold SUPPORTED_PLATFORMS. intros Hp1 Hd1 Hp2 Hd2 H1 H2.
  remember (String.rev host) as r eqn:Hr.
  repeat (apply elem_of_cons in Hp1 as [[= -> ->]|Hp1]); [..|by apply elem_of_nil in Hp1];
  repeat (apply elem_of_cons in Hd1 as [->|Hd1]); try (by apply elem_of_nil in Hd1);
  repeat (apply elem_of_cons in Hp2 as [[= -> ->]|Hp2]); try (by apply elem_of_nil in Hp2);
  repeat (apply elem_of_cons in Hd2 as [->|Hd2]); try (by apply elem_of_nil in Hd2);
  try reflexivity;
  unfold host_matches, Str.endswith in H1, H2; rewrite <-Hr in H1, H2;
  exfalso;
  (apply orb_true_iff in H1 as [H1|H1];
   [ apply str_eqb_true in H1; subst host; subst r; vm_compute in H2; discriminate H2 |]);
  (apply orb_true_iff in H2 as [H2|H2];
   [ apply str_eqb_true in H2; subst host; subst r; vm_compute in H1; discriminate H1 |]);
  reverse_pattern H1; reverse_pattern H2; clear Hr;
  repeat (let s' := fresh "s" in apply startswith_cons in H1 as (s' & -> & H1));
  vm_compute in H2; discriminate H2.
Qed.

Section ClassifierProperties.
Variable urlparse : string → option ParseResult.

Lemma detect_platform_of_host url parsed host :
  parse_web_url urlparse url = Some (parsed, host) →
  detect_platform urlparse url
  = fst <$> List.find (λ entry, existsb (host_matches host) entry.2) SUPPORTED_PLATFORMS.
Proof. unfold detect_platform. by intros ->. Qed.

(** What the classifier computes. It takes for the host the authority
    [urlparse] reports, lower-cased and cut at the first colon. A host that
    is a root domain of a platform or a subdomain of one is classified as
    that platform; any other host gives none; so do the empty URL, a URL
    [urlparse] rejects, a scheme that is neither http nor https, and an empty
    host. *)
Theorem detect_platform_classifies url :
  (∀ parsed host, parse_web_url urlparse url = Some (parsed, host) →
     (∀ platform domains domain,
        (platform, domains) ∈ SUPPORTED_PLATFORMS → domain ∈ domains →
        host = domain ∨ (∃ sub, host = sub +:+ "." +:+ domain) →
        detect_platform urlparse url = Some platform) ∧
     ((∀ platform domains domain,
         (platform, domains) ∈ SUPPORTED_PLATFORMS → domain ∈ domains →
         host ≠ domain ∧ ∀ sub, host ≠ sub +:+ "." +:+ domain) →
      detect_platform urlparse url = None)) ∧
  (parse_web_url urlparse url = None → detect_platform urlparse url = None) ∧
  (url = "" → parse_web_url urlparse url = None) ∧
  (urlparse (Str.strip url) = None → parse_web_url urlparse url = None) ∧
  (∀ parsed, urlparse (Str.strip url) = Some parsed →
     scheme parsed ≠ "http" → scheme parsed ≠ "https" →
     parse_web_url urlparse url = None) ∧
  (∀ parsed, urlparse (Str.strip url) = Some parsed →
     Str.before ":" (Str.lower (netloc parsed)) = "" →
     parse_web_url urlparse url = None) ∧
  (∀ parsed, url ≠ "" → urlparse (Str.strip url) = Some parsed →
     scheme parsed = "http" ∨ scheme parsed = "https" →
     Str.before ":" (Str.lower (netloc parsed)) ≠ "" →
     parse_web_url urlparse url
     = Some (parsed, Str.before ":" (Str.lower (netloc parsed)))).
Proof.
  split; [|split; [|split; [|split; [|split; [|split]]]]].
  - intros parsed host Hparse. rewrite (detect_platform_of_host _ _ _ Hparse). split.
    + intros platform domains domain Hp Hd Hm. apply host_matches_subdomain in Hm.
      destruct (List.find _ SUPPORTED_PLATFORMS) as [[platform' domains']|] eqn:Hfind.
      * apply find_some in Hfind as [Hin Hex]. simpl in Hex.
        apply existsb_exists in Hex as (domain' & Hd' & Hm').
        apply list_elem_of_In in Hin, Hd'. simpl. f_equal.
        by eapply host_matches_disjoint.
      * apply list_elem_of_In in Hp.
        pose proof (find_none _ _ Hfind _ Hp) as Hno. simpl in Hno.
        assert (existsb (host_matches host) domains = true) as Hyes; [|congruence].
        apply existsb_exists. exists domain. split; [by apply list_elem_of_In|done].
    + intros Hnone.
      destruct (List.find _ SUPPORTED_PLATFORMS) as [[platform' domains']|] eqn:Hfind; [|done].
      apply find_some in Hfind as [Hin Hex]. simpl in Hex.
      apply existsb_exists in Hex as (domain' & Hd' & Hm').
      apply list_elem_of_In in Hin, Hd'.
      destruct (Hnone _ _ _ Hin Hd') as [Hne Hsub].
      apply host_matches_subdomain in Hm' as [->|(sub & ->)]; [done|by destruct (Hsub sub)].
  - unfold detect_platform. by intros ->.
  - by intros ->.
  - intros Hnone. unfold parse_web_url. rewrite Hnone. by destruct (Str.is_empty url).
  - intros parsed Hsome Hhttp Hhttps. unfold parse_web_url. rewrite Hsome.
    apply str_eqb_false in Hhttp, Hhttps. rewrite Hhttp, Hhttps.
    by destruct (Str.is_empty url).
  - intros parsed Hsome Hhost. unfold parse_web_url. rewrite Hsome, Hhost. simpl.
    rewrite orb_true_r. by destruct (Str.is_empty url).
  - intros parsed Hurl Hsome Hscheme Hhost. unfold parse_web_url. rewrite Hsome.
    apply is_empty_false in Hurl, Hhost. rewrite Hurl, Hhost.
    assert (Str.eqb (scheme parsed) "http" || Str.eqb (scheme parsed) "https" = true) as ->.
    { apply orb_true_iff. rewrite !str_eqb_true. done. }
    done.
Qed.

End ClassifierProperties.

(** A stand-in for [urlparse] on one URL. *)
Definition urlparse_sample (url : string) : option ParseResult :=
  if Str.eqb url "https://WWW.YouTube.com:443/watch?v=1"
  then Some {| scheme := "https"; netloc := "WWW.YouTube.com:443"; path := "/watch" |}
  else None.

(** The classifier at a YouTube address with upper-case letters and a port. *)
Lemma detect_platform_classifies_witness :
  detect_platform urlparse_sample " https://WWW.YouTube.com:443/watch?v=1 " = Some "YouTube".
Proof.
  destruct (detect_platform_classifies urlparse_sample
              " https://WWW.YouTube.com:443/watch?v=1 ") as [Hhost _].
  destruct (Hhost {| scheme := "https"; netloc := "WWW.YouTube.com:443"; path := "/watch" |}
              "www.youtube.com" eq_refl) as [Hmatch _].
  apply (Hmatch "YouTube" ["youtube.com"; "youtu.be"] "youtube.com").
  - apply elem_of_cons. right. apply elem_of_cons. by left.
  - apply elem_of_cons. by left.
  - right. by exists "www".
Defined.

(** * The classifier and user information in the authority *)

(** What [urlparse] gives for two URLs whose authority carries user
    information. *)
Definition urlparse_userinfo (url : string) : option ParseResult :=
  if Str.eqb url "https://youtube.com:x@evil.example/v"
  then Some {| scheme := "https"; netloc := "youtube.com:x@evil.example"; path := "/v" |}
  else if Str.eqb url "https://user:pw@youtube.com/watch"
  then Some {| scheme := "https"; netloc := "user:pw@youtube.com"; path := "/watch" |}
  else None.

(** The text after the last separator, the whole text when there is none. *)
Fixpoint after_last (sep : ascii) (s : string) : string :=
  match s with
  | EmptyString => EmptyString
  | String c s' =>
      if Str.contains s' (String sep EmptyString) then after_last sep s'
      else if bool_decide (c = sep) then s' else s
  end.

(** The host the specification speaks of, which is not the one the source
    computes: the part of the authority, lower-cased, that follows the user
    information and precedes the port (what [ParseResult.hostname] gives for
    a host that is a name). *)
Definition spec_host (netloc : string) : string :=
  Str.before ":" (after_last "@" (Str.lower netloc)).

(** C7. The claim fails on the code where the authority carries user
    information: the classifier takes the text before the first colon of
    the authority for the host. A URL of host evil.example is classified as
    YouTube, and a URL of host youtube.com is classified as nothing. *)
Theorem detect_platform_userinfo :
  (detect_platform urlparse_userinfo "https://youtube.com:x@evil.example/v" = Some "YouTube" ∧
   spec_host "youtube.com:x@evil.example" = "evil.example" ∧
   Forall (λ entry, existsb (host_matches "evil.example") entry.2 = false)
     SUPPORTED_PLATFORMS) ∧
  (detect_platform urlparse_userinfo "https://user:pw@youtube.com/watch" = None ∧
   spec_host "user:pw@youtube.com" = "youtube.com" ∧
   host_matches "youtube.com" "youtube.com" = true).
Proof.
  split; (split; [vm_compute; reflexivity|split; [vm_compute; reflexivity|]]).
  - repeat constructor.
  - vm_compute. reflexivity.
Qed.

(** * Further properties *)

(** ** The extractor call *)

Lemma run_yt_dlp_command_cases subprocess_run cmd h :
  (run_yt_dlp_command subprocess_run cmd h = (subprocess_run h cmd, h ++ [cmd])) ∨
  (run_yt_dlp_command subprocess_run cmd h
   = (subprocess_run (h ++ [cmd]) (insert_at_1 "--no-check-certificates" cmd),
      h ++ [cmd; insert_at_1 "--no-check-certificates" cmd]) ∧
   ∃ proc, subprocess_run h cmd = Ok proc ∧ returncode proc ≠ 0%Z ∧
           is_certificate_verify_error (failure_message proc) = true).
Proof.
  unfold run_yt_dlp_command, launch.
  destruct (subprocess_run h cmd) as [proc|e] eqn:Hrun; [|by left].
  destruct (returncode proc =? 0)%Z eqn:Hrc; [by left|].
  fold (failure_message proc).
  destruct (negb _ && is_certificate_verify_error (failure_message proc)) eqn:Hretry; [|by left].
  right. apply andb_true_iff in Hretry as [_ Hcert]. split.
  - by rewrite <-app_assoc.
  - exists proc. split; [done|]. split; [by apply Z.eqb_neq|done].
Qed.

Lemma insert_at_1_has_flag {A} (x : A) (l : list A) : x ∈ insert_at_1 x l.
Proof. unfold insert_at_1. set_solver. Qed.

(** X1. [run_yt_dlp_command] launches the command it is given, then at most
    one more process: the history grows by one or two commands, the second
    being the command with "--no-check-certificates" inserted, launched only
    after a first run that exited non-zero on a certificate error; the
    outcome returned is the one of the last process launched. A process that
    cannot be started, a success, and the command produced for a retry are
    never followed by another launch. *)
Theorem run_yt_dlp_command_launches subprocess_run cmd h :
  (∃ launched,
     (run_yt_dlp_command subprocess_run cmd h).2 = h ++ launched ∧
     (launched = [cmd] ∧
      (run_yt_dlp_command subprocess_run cmd h).1 = subprocess_run h cmd
      ∨
      launched = [cmd; insert_at_1 "--no-check-certificates" cmd] ∧
      (run_yt_dlp_command subprocess_run cmd h).1
      = subprocess_run (h ++ [cmd]) (insert_at_1 "--no-check-certificates" cmd) ∧
      ∃ proc, subprocess_run h cmd = Ok proc ∧ returncode proc ≠ 0%Z ∧
              is_certificate_verify_error (failure_message proc) = true)) ∧
  (∀ e, subprocess_run h cmd = Raise e →
        run_yt_dlp_command subprocess_run cmd h = (Raise e, h ++ [cmd])) ∧
  (∀ proc, subprocess_run h cmd = Ok proc → returncode proc = 0%Z →
           run_yt_dlp_command subprocess_run cmd h = (Ok proc, h ++ [cmd])) ∧
  run_yt_dlp_command subprocess_run (insert_at_1 "--no-check-certificates" cmd) h
  = (subprocess_run h (insert_at_1 "--no-check-certificates" cmd),
     h ++ [insert_at_1 "--no-check-certificates" cmd]).
Proof.
  split; [|split; [|split]].
  - destruct (run_yt_dlp_command_cases subprocess_run cmd h) as [->|[-> Hproc]]; simpl.
    + exists [cmd]. split; [done|]. by left.
    + exists [cmd; insert_at_1 "--no-check-certificates" cmd]. split; [done|]. by right.
  - intros e He. unfold run_yt_dlp_command, launch. by rewrite He.
  - intros proc Hp Hrc. unfold run_yt_dlp_command, launch. by rewrite Hp, Hrc.
  - unfold run_yt_dlp_command, launch.
    destruct (subprocess_run h _) as [proc|e]; [|done].
    destruct (returncode proc =? 0)%Z; [done|].
    by rewrite (bool_decide_eq_true_2 _ (insert_at_1_has_flag _ cmd)).
Qed.

(** * Case of the error text *)

Lemma lower_upper_char c : Str.lower_char (Str.upper_char c) = Str.lower_char c.
Proof. destruct c as [[] [] [] [] [] [] [] []]; vm_compute; reflexivity. Qed.

Lemma lower_lower_char c : Str.lower_char (Str.lower_char c) = Str.lower_char c.
Proof. destruct c as [[] [] [] [] [] [] [] []]; vm_compute; reflexivity. Qed.

Lemma lower_upper s : Str.lower (Str.upper s) = Str.lower s.
Proof.
  unfold Str.lower, Str.upper. induction s as [|c s IH]; [done|].
  cbn [Str.map_chars]. by rewrite lower_upper_char, IH.
Qed.

Lemma lower_lower s : Str.lower (Str.lower s) = Str.lower s.
Proof.
  unfold Str.lower. induction s as [|c s IH]; [done|].
  cbn [Str.map_chars]. by rewrite lower_lower_char, IH.
Qed.

(** X2. Whether a message is a certificate-verification failure does not
    depend on the case of its letters. *)
Theorem certificate_error_ignores_case message :
  is_certificate_verify_error (Str.upper message) = is_certificate_verify_error message ∧
  is_certificate_verify_error (Str.lower message) = is_certificate_verify_error message.
Proof. unfold is_certificate_verify_error. by rewrite lower_upper, lower_lower. Qed.

Section MoreSelector.
Context {rt : PyRuntime}.

(** X6. A format whose bitrate is a float and whose frame rate is missing,
    null or zero scores exactly its bitrate (positive zero for a zero
    bitrate). *)
Theorem format_score_without_fps fmt x :
  dict_get fmt "tbr" = PFloat x →
  truthy (dict_get fmt "fps") = false →
  format_score fmt = Ok (match x with S754_zero _ => S754_zero false | _ => x end).
Proof.
  intros Htbr Hfps. unfold format_score, py_or. rewrite Htbr, Hfps.
  destruct x as [s|s| |s m e]; reflexivity.
Qed.

(** X7. No key and no selector string of the returned map is empty. *)
Theorem selectors_nonempty item has_ffmpeg opts sm :
  build_download_options item has_ffmpeg = Ok (opts, sm) →
  ∀ k v, sm !! k = Some v → k ≠ "" ∧ v ≠ "".
Proof.
  intros Hrun k v Hl.
  destruct (dict_get item "formats") as [| | | | |formats|] eqn:Hf;
    try (unfold build_download_options in Hrun; rewrite Hf in Hrun;
         injection Hrun as <- <-; simpl in Hl;
         apply lookup_singleton_Some in Hl as [<- <-]; by destruct has_ffmpeg).
  destruct (build_download_options_ok _ _ _ _ _ Hf Hrun) as (st & Hok & -> & ->).
  destruct Hok as [_ Hk _ (rest & Hr & Hall) Hsh].
  assert (k ≠ "") as Hkne.
  { assert (k ∈ dom (selector_map st)) as Hin by (apply elem_of_dom; eauto).
    rewrite Hk, Hr in Hin. apply elem_of_list_to_set in Hin.
    rewrite fmap_cons in Hin. apply elem_of_cons in Hin as [->|Hin]; [done|].
    apply list_elem_of_fmap in Hin as (o & -> & Ho).
    rewrite Forall_forall in Hall. by destruct (Hall o Ho) as (d & _ & _ & ?). }
  split; [done|].
  destruct (Hsh k v Hl) as [[-> ->]|[_ [->|(-> & _)]]]; [by destruct has_ffmpeg|done|].
  by destruct k.
Qed.

(** X8. The mode of a returned option tells where it comes from: the only
    option of mode auto is the baseline; an option of mode video carries the
    identifier of a format of the item with a video codec and a positive
    height; an option of mode audio carries the identifier of a format with
    no video codec and an audio codec. *)
Theorem option_modes_match_codecs item has_ffmpeg opts sm :
  build_download_options item has_ffmpeg = Ok (opts, sm) →
  ∀ o, o ∈ opts →
    match mode o with
    | Auto => o = option_best
    | Video =>
        ∃ formats fmt height,
          dict_get item "formats" = PList formats ∧ PDict fmt ∈ formats ∧
          value o = format_id_of fmt ∧ is_video_capable fmt ∧
          height_of fmt = Ok height ∧ (0 < height)%Z
    | Audio =>
        ∃ formats fmt,
          dict_get item "formats" = PList formats ∧ PDict fmt ∈ formats ∧
          value o = format_id_of fmt ∧ is_audio_only fmt
    end.
Proof.
  unfold build_download_options. intros Hrun o Ho.
  destruct (dict_get item "formats") as [| | | | |formats|] eqn:Hf;
    try (injection Hrun as <- <-; apply list_elem_of_singleton in Ho as ->; reflexivity).
  apply bind_Ok in Hrun as ([vbh ac] & Hpart & Hrun).
  apply bind_Ok in Hrun as (st1 & Hvideo & Hrun).
  apply bind_Ok in Hrun as (sorted & Hsort & Hrun).
  apply bind_Ok in Hrun as (st2 & Haudio & Hrun).
  injection Hrun as <- <-.
  pose proof (partition_formats_sound _ _ _ Hpart) as [Hk Hc].
  apply emit_video_loop in Hvideo as (vpicks & Hvsub & Hvall & Hvopts).
  apply emit_audio_loop in Haudio as (apicks & aopts & Hasub & Haall & Haopts).
  rewrite Haopts, Hvopts in Ho. simpl in Ho.
  apply elem_of_cons in Ho as [->|Ho]; [reflexivity|].
  apply elem_of_app in Ho as [Ho|Ho].
  - apply list_elem_of_fmap in Ho as ([height fmt] & -> & Hp). simpl.
    rewrite Forall_forall in Hvall. specialize (Hvall _ Hp). simpl in Hvall.
    destruct (Hk _ _ Hvall) as (? & ? & ? & ? & ?). by exists formats, fmt, height.
  - assert (∃ fmt abr, fmt ∈ apicks ∧ o = audio_option abr fmt) as (fmt & abr & Hfmt & ->).
    { clear -Haall Ho. induction Haall as [|fmt o' ? ? (abr & ->) _ IH].
      - by apply elem_of_nil in Ho.
      - apply elem_of_cons in Ho as [->|Ho].
        + exists fmt, abr. split; [by left|done].
        + destruct (IH Ho) as (f & a & ? & ?). exists f, a. split; [by right|done]. }
    simpl. apply (elem_of_sublist _ _ _ Hfmt) in Hasub.
    apply (subseteq_take 5) in Hasub. rewrite (sorted_audio_perm _ _ Hsort) in Hasub.
    unfold candidates_from in Hc. rewrite Forall_forall in Hc.
    destruct (Hc _ Hasub) as (? & ? & ?). by exists formats, fmt.
Qed.

End MoreSelector.

(** * The located file *)

Section MoreOrchestrator.
Context {rt : PyRuntime}.

(** X10. Whatever the order the sort leaves, the file [locate_file]
    returns is an entry of the scan that is a regular file and whose name
    does not end in ".part". *)
Theorem locate_file_is_finished entries first :
  locate_file entries = Ok first →
  first ∈ entries ∧ is_file first = true ∧ Str.endswith (entry_name first) ".part" = false.
Proof.
  unfold locate_file. fold (finished_files entries).
  destruct (finished_files entries) as [|f files] eqn:Hfiles; [done|].
  destruct (map snd _) as [|first' rest] eqn:Hsorted; [done|]. intros [= ->].
  assert (first ∈ finished_files entries) as Hin.
  { rewrite Hfiles.
    assert (first ∈ map snd (list_sort_desc (map (λ p, (st_mtime p, p)) (f :: files)))) as H
      by (rewrite Hsorted; by left).
    apply list_elem_of_fmap in H as (kp & -> & Hkp).
    rewrite list_sort_desc_perm in Hkp.
    apply list_elem_of_fmap in Hkp as (p & -> & Hp). done. }
  unfold finished_files in Hin. apply list_elem_of_filter in Hin as [[? ?] ?]. done.
Qed.

End MoreOrchestrator.

(** * Further properties of title normalisation *)

Fixpoint str_chars (s : string) : list ascii :=
  match s with
  | EmptyString => []
  | String c s' => c :: str_chars s'
  end.

(** No whitespace but single spaces: every whitespace character is a space
    and no two spaces are adjacent. [after_space] says that the character
    before the text is a space. *)
Fixpoint single_spaced (after_space : bool) (l : list ascii) : Prop :=
  match l with
  | [] => True
  | c :: l' =>
      if Str.isspace c
      then c = " "%char ∧ after_space = false ∧ single_spaced true l'
      else single_spaced false l'
  end.

Lemma single_spaced_weaken b l : single_spaced b l → single_spaced false l.
Proof. destruct l as [|c l]; [done|]. simpl. destruct (Str.isspace c); [|done]. by intros (? & _ & ?). Qed.

Lemma sub_spaces_single_spaced b s : single_spaced b (str_chars (Str.sub_spaces b s)).
Proof.
  revert b. induction s as [|c s IH]; intros b; [done|]. simpl.
  destruct (Str.isspace c) eqn:Hc.
  - destruct b.
    + apply IH.
    + simpl. change (Str.isspace " ") with true. cbv iota. auto.
  - simpl. rewrite Hc. eapply single_spaced_weaken, IH.
Qed.

Lemma take_single_spaced b n s :
  single_spaced b (str_chars s) → single_spaced b (str_chars (Str.take n s)).
Proof.
  revert b s. induction n as [|n IH]; intros b s; [done|].
  destruct s as [|c s]; [done|]. simpl. destruct (Str.isspace c).
  - intros (? & ? & ?). auto.
  - auto.
Qed.

Lemma take_length n s : String.length (Str.take n s) ≤ n.
Proof.
  revert s. induction n as [|n IH]; intros s; [done|].
  destruct s as [|c s]; simpl; [lia|]. specialize (IH s). lia.
Qed.

Lemma take_short n s : String.length s ≤ n → Str.take n s = s.
Proof.
  revert s. induction n as [|n IH]; intros [|c s]; simpl; try done; [lia|].
  intros Hs. rewrite IH; [done|lia].
Qed.

Lemma lstrip_head c s : Str.lstrip (String c s) ≠ "" →
  ∃ c' s', Str.lstrip (String c s) = String c' s' ∧ Str.isspace c' = false.
Proof.
  revert c. induction s as [|d s IH]; intros c; simpl.
  - destruct (Str.isspace c) eqn:Hc; [done|]. intros _. by exists c, "".
  - destruct (Str.isspace c) eqn:Hc.
    + apply IH.
    + intros _. by exists c, (String d s).
Qed.

Lemma lstrip_snoc u c :
  Str.isspace c = false → ∃ w, Str.lstrip (u +:+ String c "") = w +:+ String c "".
Proof.
  intros Hc. induction u as [|d u IH].
  - exists "". simpl. by rewrite Hc.
  - change (String d u +:+ String c "") with (String d (u +:+ String c "")).
    simpl. destruct (Str.isspace d); [done|]. by exists (String d u).
Qed.

Lemma rstrip_keeps_head c s :
  Str.isspace c = false → ∃ s', Str.rstrip (String c s) = String c s'.
Proof.
  intros Hc. unfold Str.rstrip.
  assert (String.rev (String c s) = String.rev s +:+ String c "") as ->.
  { change (String c s) with (String c "" +:+ s). by rewrite rev_append. }
  destruct (lstrip_snoc (String.rev s) c Hc) as (w & ->).
  rewrite rev_append. by exists (String.rev w).
Qed.

Lemma strip_head s :
  Str.strip s = "" ∨ ∃ c s', Str.strip s = String c s' ∧ Str.isspace c = false.
Proof.
  unfold Str.strip. destruct s as [|c s]; [by left|].
  destruct (Str.lstrip (String c s)) as [|c' t] eqn:Hl; [by left|].
  assert (Str.lstrip (String c s) ≠ "") as Hne by (by rewrite Hl).
  destruct (lstrip_head c s Hne) as (c'' & t' & Heq & Hc). rewrite Hl in Heq.
  injection Heq as -> ->. destruct (rstrip_keeps_head c'' t' Hc) as (s' & ->).
  right. by exists c'', s'.
Qed.

(** X3. A normalised title has at most 100 characters; its only whitespace
    is the single space, never two in a row; and when the raw title is a
    non-empty string, the result is empty or starts with a character that is
    not whitespace. *)
Theorem normalize_title_form raw fallback :
  String.length (normalize_title raw fallback) ≤ 100 ∧
  single_spaced false (str_chars (normalize_title raw fallback)) ∧
  (∀ s, raw = Some s → s ≠ "" →
     normalize_title raw fallback = "" ∨
     ∃ c rest, normalize_title raw fallback = String c rest ∧ Str.isspace c = false).
Proof.
  split; [apply take_length|]. split.
  - apply take_single_spaced, sub_spaces_single_spaced.
  - intros s -> Hs. unfold normalize_title. destruct s as [|c0 s0]; [done|].
    cbv beta iota delta [Str.is_empty].
    destruct (strip_head (String c0 s0)) as [->|(c & s' & -> & Hc)]; [by left|].
    right. simpl. rewrite Hc. by eexists _, _.
Qed.

(** * Further properties of the entry flattener *)

(** What one direct entry contributes: nothing when it is empty, its
    non-empty nested items when it has some, itself otherwise. *)
Definition contribution (entry : pyval) : list pyval :=
  if negb (truthy entry) then []
  else
    match entry with
    | PDict d =>
        match dict_get d "entries" with
        | PList (x :: nested) => filter (λ item, truthy item = true) (x :: nested)
        | _ => [entry]
        end
    | _ => [entry]
    end.

(** An entry the loop handles without raising: an empty value, or a dict
    whose nested entries are empty or a list. *)
Definition well_shaped (entry : pyval) : Prop :=
  truthy entry = false ∨
  ∃ d, entry = PDict d ∧
       (truthy (dict_get d "entries") = false ∨ ∃ nested, dict_get d "entries" = PList nested).

Lemma flatten_step_contribution flat entry :
  well_shaped entry → flatten_step flat entry = Ok (flat ++ contribution entry).
Proof.
  unfold flatten_step, contribution. intros [Hfalsy|(d & -> & Hnested)].
  - rewrite Hfalsy. simpl. by rewrite app_nil_r.
  - destruct (truthy (PDict d)) eqn:Hd; simpl; [|by rewrite app_nil_r].
    destruct Hnested as [Hfalsy|(nested & Hn)].
    + rewrite Hfalsy. destruct (dict_get d "entries") as [| | | | |[|x l]|]; try done.
    + rewrite Hn. by destruct nested.
Qed.

Lemma flatten_loop_contributions flat entries :
  Forall well_shaped entries →
  foldlM flatten_step flat entries = Ok (flat ++ concat (map contribution entries)).
Proof.
  revert flat. induction entries as [|e entries IH]; intros flat Hall; simpl.
  - by rewrite app_nil_r.
  - apply Forall_cons in Hall as [He Hall].
    rewrite (flatten_step_contribution _ _ He). simpl.
    rewrite (IH _ Hall). by rewrite <-app_assoc.
Qed.

Lemma flatten_entries_loop info entries :
  dict_get info "entries" = PList entries →
  flatten_entries info
  = (flat ← foldlM flatten_step [] entries;
     Ok (match flat with [] => [PDict info] | _ => flat end)).
Proof.
  intros Hget. unfold flatten_entries. rewrite Hget. destruct entries; reflexivity.
Qed.

(** X5. On a root whose direct entries are each empty, or a dict whose
    nested entries are empty or a list, [flatten_entries] returns, in order,
    what each non-empty entry contributes: its non-empty nested items when it
    has a non-empty nested list, itself otherwise. Nested items are not
    unwrapped further; the root alone is returned when nothing is
    contributed. *)
Theorem flatten_entries_two_levels info entries :
  dict_get info "entries" = PList entries →
  Forall well_shaped entries →
  flatten_entries info
  = Ok (match concat (map contribution entries) with
        | [] => [PDict info]
        | flat => flat
        end).
Proof.
  intros Hget Hall. rewrite (flatten_entries_loop _ _ Hget).
  rewrite (flatten_loop_contributions [] entries Hall). simpl.
  by destruct (concat (map contribution entries)).
Qed.

(** X4. [flatten_entries] never returns an empty list. *)
Theorem flatten_entries_nonempty info items :
  flatten_entries info = Ok items → items ≠ [].
Proof.
  unfold flatten_entries. destruct (negb (truthy (dict_get info "entries"))).
  - by intros [= <-].
  - destruct (py_iter _) as [entries|]; [|done]. simpl.
    destruct (foldlM flatten_step [] entries) as [flat|]; [|done]. simpl.
    intros [= <-]. by destruct flat.
Qed.

(** Two runs that end alike: both return, with related results, or both
    raise the same exception. *)
Definition alike {A B} (R : A → B → Prop) (r1 : result A) (r2 : result B) : Prop :=
  match r1, r2 with
  | Ok a, Ok b => R a b
  | Raise e1, Raise e2 => e1 = e2
  | _, _ => False
  end.

Lemma foldlM_alike {S T A} (f : S → A → result S) (g : T → A → result T)
    (R : S → T → Prop) (l : list A) :
  (∀ x s t, R s t → alike R (f s x) (g t x)) →
  ∀ s t, R s t → alike R (foldlM f s l) (foldlM g t l).
Proof.
  intros Hstep. induction l as [|x l IH]; intros s t HR; simpl; [done|].
  specialize (Hstep x s t HR).
  destruct (f s x) as [s'|e1], (g t x) as [t'|e2]; simpl in *; try done.
  by apply IH.
Qed.

Section FfmpegIndependence.
Context {rt : PyRuntime}.

(** Two selections that differ at most in labels and selector strings. *)
Definition same_choices (s t : Selection) : Prop :=
  seen_values s = seen_values t ∧
  dom (selector_map s) = dom (selector_map t) ∧
  value <$> options s = value <$> options t ∧
  mode <$> options s = mode <$> options t.

Lemma add_option_same_choices s t o1 o2 sel1 sel2 :
  same_choices s t → value o1 = value o2 → mode o1 = mode o2 →
  same_choices (add_option s o1 sel1) (add_option t o2 sel2).
Proof.
  intros (Hs & Hd & Hv & Hm) Hval Hmode. unfold same_choices, add_option. simpl.
  rewrite !dom_insert_L, !fmap_app, Hs, Hd, Hv, Hm. simpl.
  repeat split; congruence.
Qed.

Lemma emit_video_same_choices vbh h s t :
  same_choices s t →
  alike same_choices (emit_video true vbh s h) (emit_video false vbh t h).
Proof.
  intros Hst. unfold emit_video. destruct (vbh !! h) as [fmt|]; [|done].
  destruct Hst as (Hs & Hrest). rewrite Hs.
  destruct (_ || _); simpl; [done|]. by apply add_option_same_choices.
Qed.

Lemma emit_audio_same_choices fmt s t :
  same_choices s t → alike same_choices (emit_audio s fmt) (emit_audio t fmt).
Proof.
  intros Hst. unfold emit_audio. destruct Hst as (Hs & Hrest). rewrite Hs.
  destruct (_ || _); simpl; [done|].
  destruct (abr_of fmt) as [abr|e]; simpl; [|done]. by apply add_option_same_choices.
Qed.

(** X9. The merge tool changes labels and selector strings only: with and
    without it, [build_download_options] raises the same exception or returns
    options with the same values and modes in the same order, and maps with
    the same keys. *)
Theorem choices_independent_of_ffmpeg item :
  alike (λ r1 r2, value <$> r1.1 = value <$> r2.1 ∧ mode <$> r1.1 = mode <$> r2.1 ∧
                  dom r1.2 = dom r2.2)
    (build_download_options item true) (build_download_options item false).
Proof.
  assert (same_choices (selection_init true) (selection_init false)) as Hinit.
  { unfold same_choices. simpl. by rewrite !dom_singleton_L. }
  unfold build_download_options.
  destruct (dict_get item "formats") as [| | | | |formats|];
    try (by destruct Hinit as (_ & ? & ? & ?)).
  destruct (partition_formats formats) as [[vbh ac]|e]; [|done]. simpl.
  pose proof (foldlM_alike (emit_video true vbh) (emit_video false vbh) same_choices
                (video_heights vbh) (λ h s t, emit_video_same_choices vbh h s t)
                _ _ Hinit) as Hvideo.
  destruct (foldlM (emit_video true vbh) _ _) as [s1|e1],
           (foldlM (emit_video false vbh) _ _) as [t1|e2]; simpl in *; try done.
  destruct (sorted_audio ac) as [sorted|e]; [|done]. simpl.
  pose proof (foldlM_alike emit_audio emit_audio same_choices (take 5 sorted)
                (λ fmt s t, emit_audio_same_choices fmt s t) s1 t1 Hvideo) as Haudio.
  destruct (foldlM emit_audio s1 _) as [s2|e1], (foldlM emit_audio t1 _) as [t2|e2];
    simpl in *; try done.
  by destruct Haudio as (_ & ? & ? & ?).
Qed.

End FfmpegIndependence.

(** * The remaining functions of [app.py] *)

(** ** [detect_instagram_kind] *)

Section InstagramKind.
Variable urlparse : string → option ParseResult.

Definition detect_instagram_kind (url : string) (item_count : Z) : string :=
  let path :=
    match parse_web_url urlparse url with
    | Some (parsed, _) => Str.lower (path parsed)
    | None => ""
    end in
  if Str.contains path "/stories/" then "story"
  else if Str.contains path "/reel/" || Str.contains path "/reels/" then "reel"
  else if Str.contains path "/p/" then (if (1 <? item_count)%Z then "carousel" else "post")
  else if (1 <? item_count)%Z then "carousel"
  else "post".
End InstagramKind.

(** ** [infer_type] *)

(** [(v or "").lower()]: only a [str] has the method. *)
Definition lower_or_empty (v : pyval) : result string :=
  match py_or v (PStr "") with
  | PStr s => Ok (Str.lower s)
  | _ => Raise AttributeError
  end.

(** [v and v != "none"] as a condition. *)
Definition names_codec (v : pyval) : bool :=
  truthy v &&
  match v with
  | PStr s => negb (Str.eqb s "none")
  | _ => true
  end.

Definition infer_type (item : pydict) : result string :=
  let vcodec := dict_get item "vcodec" in
  let acodec := dict_get item "acodec" in
  ext ← lower_or_empty (dict_get item "ext");
  direct_url ← lower_or_empty (dict_get item "url");
  if names_codec vcodec then Ok "video"
  else if names_codec acodec then Ok "audio"
  else if bool_decide (ext ∈ ["jpg"; "jpeg"; "png"; "webp"]) then Ok "image"
  else if bool_decide (ext ∈ ["mp3"; "m4a"; "aac"; "ogg"; "wav"]) then Ok "audio"
  else if existsb (λ token, Str.contains direct_url token) [".mp4"; ".mov"; ".webm"]
       then Ok "video"
  else Ok "file".

(** ** [select_preview_url] *)

(** [<] on the tuples [(int, float)] that [select_preview_url] sorts by: the
    first position at which the tuples differ decides. *)
Definition pair_ltb (a b : Z * spec_float) : bool :=
  if (a.1 =? b.1)%Z
  then (if SFeqb a.2 b.2 then false else F64.ltb a.2 b.2)
  else (a.1 <? b.1)%Z.

(** [list.sort(reverse=True)] on elements paired with such keys, as
    [list_sort_desc] is for float keys. *)
Class PairSort := {
  sort_pairs_desc : ∀ A : Type, list ((Z * spec_float) * A) → list ((Z * spec_float) * A);
  sort_pairs_desc_perm : ∀ A (l : list ((Z * spec_float) * A)), sort_pairs_desc A l ≡ₚ l;
  sort_pairs_desc_ordered : ∀ A (l : list ((Z * spec_float) * A)),
    Forall (λ p, p.1.2 ≠ S754_nan) l → sort_pairs_desc A l = sort_desc pair_ltb fst l
}.
Arguments sort_pairs_desc {_ _} l.

Section Preview.
Context {rt : PyRuntime} {ps : PairSort}.

(** [str(d.get("url") or "").strip()] *)
Definition url_of (d : pydict) : string :=
  Str.strip (py_str (py_or (dict_get d "url") (PStr ""))).

Definition is_progressive (d : pydict) : bool :=
  negb (Str.is_empty (url_of d))
  && negb (Str.eqb (codec_of d "vcodec") "none")
  && negb (Str.eqb (codec_of d "acodec") "none").

(** The formats the loop of lines 231-240 keeps. *)
Definition progressive_formats (formats : list pyval) : list pydict :=
  omap (λ fmt, match fmt with
               | PDict d => if is_progressive d then Some d else None
               | _ => None
               end) formats.

(** The sort key [(int(fmt.get("height") or 0), float(fmt.get("tbr") or 0))]. *)
Definition preview_key (fmt : pydict) : result (Z * spec_float) :=
  height ← py_int (py_or (dict_get fmt "height") (PInt 0));
  tbr ← py_float (py_or (dict_get fmt "tbr") (PInt 0));
  Ok (height, tbr).

Definition select_preview_url (item : pydict) : result (option string) :=
  let direct_url := url_of item in
  if negb (Str.is_empty direct_url) then Ok (Some direct_url)
  else
    match dict_get item "formats" with
    | PList formats =>
        match progressive_formats formats with
        | [] => Ok None
        | progressive =>
            keyed ← mapM_result (λ fmt, k ← preview_key fmt; Ok (k, fmt)) progressive;
            match map snd (sort_pairs_desc keyed) with
            | first :: _ =>
                let url := url_of first in
                Ok (if Str.is_empty url then None else Some url)
            | [] => Raise IndexError
            end
        end
    | _ => Ok None
    end.
End Preview.

(** ** [run_yt_dlp_json] *)

Section Fetcher.
Variable subprocess_run : history → list string → result CompletedProcess.
Variable YTDLP_COOKIES_FILE : string.
(** [json.loads]; [None] is its [JSONDecodeError]. *)
Variable json_loads : string → option pyval.

Definition metadata_command (url : string) : list string :=
  yt_dlp_base_args YTDLP_COOKIES_FILE ++ ["--dump-single-json"; "--skip-download"; url].

Definition run_yt_dlp_json (url : string) (h : history) : result pyval * history :=
  match run_yt_dlp_command subprocess_run (metadata_command url) h with
  | (Raise e, h1) => (Raise e, h1)
  | (Ok proc, h1) =>
      if negb (returncode proc =? 0)%Z then
        (Raise (DownloaderError
                  (Str.strip (str_or (stderr proc) (str_or (stdout proc) "yt-dlp failed")))),
         h1)
      else
        match json_loads (stdout proc) with
        | Some info => (Ok info, h1)
        | None =>
            (Raise (DownloaderError "Failed to parse media metadata from yt-dlp output."), h1)
        end
  end.
End Fetcher.

(** ** [to_media_payload] *)

Record MediaPayload := {
  mp_index : Z;
  mp_platform : string;
  mp_type : string;
  mp_instagram_kind : option string;
  mp_title : string;
  mp_thumbnail : pyval;
  mp_preview_url : option string;
  mp_duration : pyval;
  mp_ext : pyval;
  mp_download_options : list DownloadOption
}.

(** The raw title as [normalize_title] takes it: a [str] is passed on, an
    empty value selects the fallback as [None] does, and any other value has
    no [strip]. *)
Definition title_argument (v : pyval) : result (option string) :=
  match v with
  | PStr s => Ok (Some s)
  | _ => if truthy v then Raise AttributeError else Ok None
  end.

Section Payload.
Context {rt : PyRuntime} {ps : PairSort}.
Variable urlparse : string → option ParseResult.

(** The body of the loop of lines 302-318. An item that is not a [dict] has
    no [get]. *)
Definition payload_of (platform : string) (instagram_kind : option string)
    (has_ffmpeg : bool) (idx : Z) (item : pyval) : result MediaPayload :=
  match item with
  | PDict d =>
      media_type ← infer_type d;
      '(download_options, _) ← build_download_options d has_ffmpeg;
      raw ← title_argument (default (PStr "") (dict_lookup d "title"));
      preview ← (if Str.eqb platform "Instagram" then select_preview_url d else Ok None);
      Ok {| mp_index := idx;
            mp_platform := platform;
            mp_type := media_type;
            mp_instagram_kind := instagram_kind;
            mp_title := normalize_title raw ("media_" +:+ Str.of_Z idx);
            mp_thumbnail := dict_get d "thumbnail";
            mp_preview_url := preview;
            mp_duration := dict_get d "duration";
            mp_ext := dict_get d "ext";
            mp_download_options := download_options |}
  | _ => Raise AttributeError
  end.

(** [for idx, item in enumerate(items, start=idx)] *)
Fixpoint payloads_from (platform : string) (instagram_kind : option string)
    (has_ffmpeg : bool) (idx : Z) (items : list pyval) : result (list MediaPayload) :=
  match items with
  | [] => Ok []
  | item :: rest =>
      p ← payload_of platform instagram_kind has_ffmpeg idx item;
      payload ← payloads_from platform instagram_kind has_ffmpeg (idx + 1) rest;
      Ok (p :: payload)
  end.

Definition to_media_payload (items : list pyval) (platform source_url : string)
    (has_ffmpeg : bool) : result (list MediaPayload * option string) :=
  let instagram_kind :=
    if Str.eqb platform "Instagram"
    then Some (detect_instagram_kind urlparse source_url (Z.of_nat (length items)))
    else None in
  payload ← payloads_from platform instagram_kind has_ffmpeg 1 items;
  Ok (payload, instagram_kind).
End Payload.

(** * Properties of [detect_instagram_kind] *)

(** X11. [detect_instagram_kind] answers one of the four kinds; "carousel"
    only for more than one item and "post" only for at most one; when the
    URL does not parse as a web URL the item count alone decides; and a
    "story" or "reel" answer does not depend on the item count. *)
Theorem instagram_kind_by_count urlparse url item_count :
  detect_instagram_kind urlparse url item_count ∈ ["story"; "reel"; "carousel"; "post"] ∧
  (detect_instagram_kind urlparse url item_count = "carousel" → (1 < item_count)%Z) ∧
  (detect_instagram_kind urlparse url item_count = "post" → (item_count ≤ 1)%Z) ∧
  (parse_web_url urlparse url = None →
   detect_instagram_kind urlparse url item_count
   = if (1 <? item_count)%Z then "carousel" else "post") ∧
  (detect_instagram_kind urlparse url item_count = "story" ∨
   detect_instagram_kind urlparse url item_count = "reel" →
   ∀ other, detect_instagram_kind urlparse url other
            = detect_instagram_kind urlparse url item_count).
Proof.
  assert (∀ s r1 r2 p : bool,
    let kind (n : Z) : string :=
      if s then "story" else if r1 || r2 then "reel"
      else if p then (if (1 <? n)%Z then "carousel" else "post")
      else if (1 <? n)%Z then "carousel" else "post" in
    kind item_count ∈ ["story"; "reel"; "carousel"; "post"] ∧
    (kind item_count = "carousel" → (1 < item_count)%Z) ∧
    (kind item_count = "post" → (item_count ≤ 1)%Z) ∧
    (kind item_count = "story" ∨ kind item_count = "reel" →
     ∀ other, kind other = kind item_count)) as Hkind.
  { intros s r1 r2 p. simpl.
    destruct s, r1, r2, p, (1 <? item_count)%Z eqn:Hn; simpl;
      (split; [set_solver|]); (split; [try done; intros _; by apply Z.ltb_lt|]);
      (split; [try done; intros _; by apply Z.ltb_ge|]);
      try done; intros [?|?]; done. }
  unfold detect_instagram_kind.
  destruct (parse_web_url urlparse url) as [[parsed host]|].
  - destruct (Hkind (Str.contains (Str.lower (path parsed)) "/stories/")
                (Str.contains (Str.lower (path parsed)) "/reel/")
                (Str.contains (Str.lower (path parsed)) "/reels/")
                (Str.contains (Str.lower (path parsed)) "/p/")) as (H1 & H2 & H3 & H4).
    repeat split; try done.
  - destruct (Hkind false false false false) as (H1 & H2 & H3 & H4).
    repeat split; try done.
Qed.

(** * Properties of [infer_type] *)

(** A field that [lower] accepts: empty, or a [str]. *)
Definition text_or_empty (v : pyval) : Prop := truthy v = false ∨ ∃ s, v = PStr s.

Lemma lower_or_empty_Ok v : text_or_empty v ↔ ∃ s, lower_or_empty v = Ok s.
Proof.
  unfold lower_or_empty, py_or. split.
  - intros [Hf|(s & ->)].
    + rewrite Hf. eauto.
    + destruct (truthy (PStr s)); eauto.
  - intros (s & Hs). destruct (truthy v) eqn:Hv; [|by left].
    destruct v; try done. right. eauto.
Qed.

Lemma lower_or_empty_Raise v : ¬ text_or_empty v → lower_or_empty v = Raise AttributeError.
Proof.
  intros Hno. destruct (lower_or_empty v) as [s|e] eqn:Hl.
  - destruct Hno. apply lower_or_empty_Ok. eauto.
  - unfold lower_or_empty in Hl. destruct (py_or v (PStr "")); congruence.
Qed.

(** X12. [infer_type] returns one of "video", "audio", "image", "file"
    when the extension and the URL of the item are each empty or a string,
    and raises [AttributeError] otherwise, whatever the codecs say; when it
    returns, a video codec gives "video" and, failing that, an audio codec
    gives "audio". *)
Theorem infer_type_defined item :
  (text_or_empty (dict_get item "ext") → text_or_empty (dict_get item "url") →
   ∃ t, infer_type item = Ok t ∧ t ∈ ["video"; "audio"; "image"; "file"] ∧
        (names_codec (dict_get item "vcodec") = true → t = "video") ∧
        (names_codec (dict_get item "vcodec") = false →
         names_codec (dict_get item "acodec") = true → t = "audio")) ∧
  (¬ (text_or_empty (dict_get item "ext") ∧ text_or_empty (dict_get item "url")) →
   infer_type item = Raise AttributeError).
Proof.
  unfold infer_type. split.
  - intros (ext & ->)%lower_or_empty_Ok (url & ->)%lower_or_empty_Ok. simpl.
    destruct (names_codec (dict_get item "vcodec")), (names_codec (dict_get item "acodec")),
      (bool_decide (ext ∈ ["jpg"; "jpeg"; "png"; "webp"])),
      (bool_decide (ext ∈ ["mp3"; "m4a"; "aac"; "ogg"; "wav"])),
      (Str.contains url ".mp4" || (Str.contains url ".mov" || (Str.contains url ".webm" || false)));
      eexists; (split; [reflexivity|]); (split; [set_solver|]); done.
  - intros Hno.
    destruct (lower_or_empty (dict_get item "ext")) as [ext|e] eqn:Hext.
    + rewrite lower_or_empty_Raise; [done|]. intros Hurl. apply Hno. split; [|done].
      apply lower_or_empty_Ok. eauto.
    + simpl. f_equal. unfold lower_or_empty in Hext.
      destruct (py_or _ _); congruence.
Qed.

(** * Properties of [select_preview_url] *)

Lemma pair_ltb_unfold (a b : Z * spec_float) :
  pair_ltb a b = if (a.1 =? b.1)%Z then F64.ltb a.2 b.2 else (a.1 <? b.1)%Z.
Proof.
  unfold pair_ltb. destruct (a.1 =? b.1)%Z; [|done].
  unfold SFeqb, F64.ltb, SFltb. by destruct (SFcompare a.2 b.2) as [[]|].
Qed.

Lemma pair_ltb_asym a b : pair_ltb a b = true → pair_ltb b a = false.
Proof.
  rewrite !pair_ltb_unfold.
  destruct (Z.eqb_spec a.1 b.1) as [Heq|Hne].
  - rewrite Heq, Z.eqb_refl. apply F64Facts.ltb_asym.
  - destruct (Z.eqb_spec b.1 a.1); [congruence|].
    intros H%Z.ltb_lt. apply Z.ltb_ge. lia.
Qed.

Lemma pair_ltb_negtrans a b c :
  a.2 ≠ S754_nan → b.2 ≠ S754_nan → c.2 ≠ S754_nan →
  pair_ltb a b = false → pair_ltb b c = false → pair_ltb a c = false.
Proof.
  intros Ha Hb Hc. rewrite !pair_ltb_unfold.
  destruct (Z.eqb_spec a.1 b.1) as [Hab|Hab], (Z.eqb_spec b.1 c.1) as [Hbc|Hbc],
    (Z.eqb_spec a.1 c.1) as [Hac|Hac]; rewrite ?Z.ltb_ge; intros H1 H2;
    try lia.
  by apply (F64Facts.ltb_negtrans a.2 b.2 c.2).
Qed.

(** A sort to evaluate examples with: stable on every input. *)
Definition plain_pair_sort : PairSort :=
  {| sort_pairs_desc := λ A, sort_desc pair_ltb fst;
     sort_pairs_desc_perm := λ A l, sort_desc_perm pair_ltb fst l;
     sort_pairs_desc_ordered := λ A l _, eq_refl |}.

Section PreviewFacts.
Context {rt : PyRuntime} {ps : PairSort}.

Lemma progressive_formats_spec formats d :
  d ∈ progressive_formats formats ↔ PDict d ∈ formats ∧ is_progressive d = true.
Proof.
  unfold progressive_formats. rewrite list_elem_of_omap. split.
  - intros (fmt & Hin & Hsome). destruct fmt; try done.
    destruct (is_progressive d0) eqn:Hp; [|done]. by injection Hsome as ->.
  - intros [Hin Hp]. exists (PDict d). by rewrite Hp.
Qed.

Lemma keyed_formats (progressive : list pydict) keyed :
  mapM_result (λ fmt, k ← preview_key fmt; Ok (k, fmt)) progressive = Ok keyed →
  map snd keyed = progressive ∧ Forall (λ kp, preview_key kp.2 = Ok kp.1) keyed.
Proof.
  intros Hkeys%mapM_result_Ok.
  induction Hkeys as [|d kp l l' Hd _ [IH1 IH2]]; [by split|].
  apply bind_Ok in Hd as (k & Hk & Hd). injection Hd as <-. simpl.
  split; [by rewrite IH1|]. by constructor.
Qed.

Lemma progressive_empty_or_not formats :
  progressive_formats formats = [] ∨ progressive_formats formats ≠ [].
Proof. destruct (progressive_formats formats); [by left|by right]. Qed.

Lemma select_preview_url_none item formats :
  url_of item = "" → dict_get item "formats" = PList formats →
  progressive_formats formats = [] → select_preview_url item = Ok None.
Proof. intros Hu Hf Hp. unfold select_preview_url. by rewrite Hu, Hf, Hp. Qed.

Lemma select_preview_url_sorted item formats :
  url_of item = "" → dict_get item "formats" = PList formats →
  progressive_formats formats ≠ [] →
  select_preview_url item
  = (keyed ← mapM_result (λ fmt, k ← preview_key fmt; Ok (k, fmt)) (progressive_formats formats);
     match map snd (sort_pairs_desc keyed) with
     | first :: _ => Ok (if Str.is_empty (url_of first) then None else Some (url_of first))
     | [] => Raise IndexError
     end).
Proof.
  intros Hu Hf Hp. unfold select_preview_url. rewrite Hu, Hf.
  by destruct (progressive_formats formats).
Qed.

(** X13. A preview URL is never the empty string, and it is the stripped
    URL of the item itself or, when the item has none, of one of its
    progressive formats. *)
Theorem preview_url_provenance item url :
  select_preview_url item = Ok (Some url) →
  url ≠ "" ∧
  (url = url_of item ∨
   url_of item = "" ∧
   ∃ formats d, dict_get item "formats" = PList formats ∧ PDict d ∈ formats ∧
                is_progressive d = true ∧ url = url_of d).
Proof.
  unfold select_preview_url.
  destruct (Str.is_empty (url_of item)) eqn:Hdirect; simpl.
  2:{ intros [= <-]. split; [by apply is_empty_false|by left]. }
  apply is_empty_true in Hdirect.
  destruct (dict_get item "formats") as [| | | | |formats|] eqn:Hf; try done.
  intros Hrun.
  assert (select_preview_url item = Ok (Some url)) as Hsel.
  { unfold select_preview_url. by rewrite Hdirect, Hf. }
  clear Hrun.
  destruct (progressive_empty_or_not formats) as [Hnone|Hsome].
  { by rewrite (select_preview_url_none _ _ Hdirect Hf Hnone) in Hsel. }
  rewrite (select_preview_url_sorted _ _ Hdirect Hf Hsome) in Hsel. rename Hsel into Hrun.
  apply bind_Ok in Hrun as (keyed & Hkeys & Hrun).
  apply keyed_formats in Hkeys as [Hsnd _].
  destruct (map snd (sort_pairs_desc keyed)) as [|first rest] eqn:Hsorted; [done|].
  assert (first ∈ progressive_formats formats) as Hfirst.
  { rewrite <-Hsnd.
    assert (first ∈ map snd (sort_pairs_desc keyed)) as Hin by (rewrite Hsorted; by left).
    apply list_elem_of_fmap in Hin as (kp & -> & Hkp). rewrite sort_pairs_desc_perm in Hkp.
    apply list_elem_of_fmap. by exists kp. }
  apply progressive_formats_spec in Hfirst as [Hin Hp].
  destruct (Str.is_empty (url_of first)) eqn:Hu; [done|]. injection Hrun as <-.
  split; [by apply is_empty_false|]. right. split; [done|]. by exists formats, first.
Qed.

(** X14. For an item without a URL of its own whose progressive formats
    have bitrates that are not NaN, [select_preview_url] returns none when
    there is no progressive format, and otherwise the URL of a progressive
    format whose key (height, bitrate) no other progressive format's key is
    above. *)
Theorem preview_url_best item formats :
  url_of item = "" →
  dict_get item "formats" = PList formats →
  (∀ d k, PDict d ∈ formats → is_progressive d = true → preview_key d = Ok k →
          k.2 ≠ S754_nan) →
  ∀ r, select_preview_url item = Ok r →
    (progressive_formats formats = [] ∧ r = None) ∨
    ∃ d k, r = Some (url_of d) ∧ PDict d ∈ formats ∧ is_progressive d = true ∧
           preview_key d = Ok k ∧
           ∀ d' k', PDict d' ∈ formats → is_progressive d' = true →
                    preview_key d' = Ok k' → pair_ltb k k' = false.
Proof.
  intros Hdirect Hf Hnan r Hrun.
  destruct (progressive_empty_or_not formats) as [Hnone|Hsome].
  { rewrite (select_preview_url_none _ _ Hdirect Hf Hnone) in Hrun. injection Hrun as <-.
    by left. }
  rewrite (select_preview_url_sorted _ _ Hdirect Hf Hsome) in Hrun.
  right. apply bind_Ok in Hrun as (keyed & Hkeys & Hrun).
  apply keyed_formats in Hkeys as [Hsnd Hkeyed].
  assert (∀ kp, kp ∈ keyed →
            PDict kp.2 ∈ formats ∧ is_progressive kp.2 = true ∧
            preview_key kp.2 = Ok kp.1 ∧ kp.1.2 ≠ S754_nan) as Hk.
  { intros kp Hkp. rewrite Forall_forall in Hkeyed.
    assert (kp.2 ∈ progressive_formats formats) as [Hin Hp]%progressive_formats_spec.
    { rewrite <-Hsnd. apply list_elem_of_fmap. by exists kp. }
    repeat split; [done|done|by apply Hkeyed|]. eapply Hnan; [done|done|by apply Hkeyed]. }
  rewrite sort_pairs_desc_ordered in Hrun
    by (apply Forall_forall; intros kp Hkp; by apply Hk).
  assert (StronglySorted (not_below pair_ltb fst) (sort_desc pair_ltb fst keyed)) as Hs.
  { apply (sort_desc_sorted pair_ltb fst (λ k, k.2 ≠ S754_nan)).
    - apply pair_ltb_asym.
    - apply pair_ltb_negtrans.
    - apply Forall_forall. intros kp Hkp. by apply Hk. }
  pose proof (sort_desc_perm pair_ltb fst keyed) as Hperm.
  destruct (sort_desc pair_ltb fst keyed) as [|k0 ks] eqn:Hsort; [done|].
  simpl in Hrun.
  assert (k0 ∈ keyed) as Hk0 by (rewrite <-Hperm; by left).
  destruct (Hk _ Hk0) as (Hin0 & Hp0 & Hkey0 & Hn0).
  assert (Str.is_empty (url_of k0.2) = false) as Hu.
  { unfold is_progressive in Hp0. by destruct (Str.is_empty (url_of k0.2)). }
  rewrite Hu in Hrun. injection Hrun as <-.
  exists k0.2, k0.1. repeat split; [done|done|done|].
  intros d' k' Hin' Hp' Hkey'.
  assert ((k', d') ∈ keyed) as Hkd.
  { assert (d' ∈ map snd keyed) as Hd'.
    { rewrite Hsnd. apply progressive_formats_spec. done. }
    apply list_elem_of_fmap in Hd' as ([k'' d''] & -> & Hkp). simpl in *.
    destruct (Hk _ Hkp) as (_ & _ & Hkey'' & _). simpl in Hkey''.
    rewrite Hkey' in Hkey''. by injection Hkey'' as <-. }
  rewrite <-Hperm in Hkd. apply StronglySorted_cons in Hs as [Hhead _].
  apply elem_of_cons in Hkd as [<-|Hkd].
  - simpl. rewrite pair_ltb_unfold, Z.eqb_refl. apply F64Facts.ltb_irrefl.
  - rewrite Forall_forall in Hhead. by apply (Hhead _ Hkd).
Qed.

End PreviewFacts.

(** * Properties of [run_yt_dlp_json] *)

Section FetcherFacts.
Variable subprocess_run : history → list string → result CompletedProcess.
Variable cookies : string.
Variable json_loads : string → option pyval.

(** What [run_yt_dlp_json] makes of the outcome of the last process. *)
Definition metadata_of (outcome : result CompletedProcess) : result pyval :=
  match outcome with
  | Raise e => Raise e
  | Ok proc =>
      if (returncode proc =? 0)%Z then
        match json_loads (stdout proc) with
        | Some info => Ok info
        | None => Raise (DownloaderError "Failed to parse media metadata from yt-dlp output.")
        end
      else Raise (DownloaderError (failure_message proc))
  end.

Lemma run_yt_dlp_json_metadata_of url h :
  run_yt_dlp_json subprocess_run cookies json_loads url h
  = (metadata_of (run_yt_dlp_command subprocess_run (metadata_command cookies url) h).1,
     (run_yt_dlp_command subprocess_run (metadata_command cookies url) h).2).
Proof.
  unfold run_yt_dlp_json, metadata_of.
  destruct (run_yt_dlp_command _ _ _) as [[proc|e] h1]; [|done]. simpl.
  unfold failure_message. by destruct (returncode proc =? 0)%Z, (json_loads _).
Qed.

Lemma metadata_command_shape url :
  ∃ middle, metadata_command cookies url
            = "yt-dlp" :: "--no-warnings" :: middle ++ ["--dump-single-json"; "--skip-download"; url].
Proof.
  unfold metadata_command, yt_dlp_base_args.
  destruct (Str.is_empty (Str.strip cookies)).
  - by exists [].
  - by exists ["--cookies"; Str.strip cookies].
Qed.

(** X15. [run_yt_dlp_json] launches one or two processes, and each of them
    is a metadata query: the program is "yt-dlp", the arguments include
    "--dump-single-json" and "--skip-download", and the URL comes last. *)
Theorem metadata_fetch_only_describes url h :
  ∃ launched,
    (run_yt_dlp_json subprocess_run cookies json_loads url h).2 = h ++ launched ∧
    (length launched = 1 ∨ length launched = 2) ∧
    Forall (λ cmd, head cmd = Some "yt-dlp" ∧ "--dump-single-json" ∈ cmd ∧
                   "--skip-download" ∈ cmd ∧ last cmd = Some url) launched.
Proof.
  rewrite run_yt_dlp_json_metadata_of. simpl.
  destruct (metadata_command_shape url) as (middle & Hcmd).
  assert (∀ pre, head ("yt-dlp" :: pre ++ middle ++ ["--dump-single-json"; "--skip-download"; url])
                 = Some "yt-dlp" ∧
                 "--dump-single-json" ∈ "yt-dlp" :: pre ++ middle ++ ["--dump-single-json"; "--skip-download"; url] ∧
                 "--skip-download" ∈ "yt-dlp" :: pre ++ middle ++ ["--dump-single-json"; "--skip-download"; url] ∧
                 last ("yt-dlp" :: pre ++ middle ++ ["--dump-single-json"; "--skip-download"; url])
                 = Some url) as Hshape.
  { intros pre. split; [done|]. split; [set_solver|]. split; [set_solver|].
    change ("yt-dlp" :: pre ++ middle ++ ["--dump-single-json"; "--skip-download"; url])
      with (("yt-dlp" :: pre) ++ middle ++ ["--dump-single-json"; "--skip-download"] ++ [url]).
    by rewrite !app_assoc, last_snoc. }
  destruct (run_yt_dlp_command_cases subprocess_run (metadata_command cookies url) h)
    as [->|[-> _]]; simpl.
  - exists [metadata_command cookies url]. split; [done|]. split; [by left|].
    constructor; [|constructor]. rewrite Hcmd. apply (Hshape ["--no-warnings"]).
  - exists [metadata_command cookies url;
            insert_at_1 "--no-check-certificates" (metadata_command cookies url)].
    split; [done|]. split; [by right|].
    constructor; [|constructor; [|constructor]]; rewrite Hcmd.
    + apply (Hshape ["--no-warnings"]).
    + apply (Hshape ["--no-check-certificates"; "--no-warnings"]).
Qed.

(** X16. What [run_yt_dlp_json] returns is read off the last process it
    launched, a retry like a first run: the parsed output after exit code 0,
    [DownloaderError] with the fixed message when the output does not parse,
    [DownloaderError] with the process's message after another exit code. *)
Theorem metadata_from_last_process url h :
  ∃ before cmd,
    (run_yt_dlp_json subprocess_run cookies json_loads url h).2 = before ++ [cmd] ∧
    (run_yt_dlp_json subprocess_run cookies json_loads url h).1
    = metadata_of (subprocess_run before cmd).
Proof.
  rewrite run_yt_dlp_json_metadata_of. simpl.
  destruct (run_yt_dlp_command_cases subprocess_run (metadata_command cookies url) h)
    as [->|[-> _]]; simpl.
  - by exists h, (metadata_command cookies url).
  - exists (h ++ [metadata_command cookies url]),
      (insert_at_1 "--no-check-certificates" (metadata_command cookies url)).
    split; [|done]. by rewrite <-app_assoc.
Qed.

End FetcherFacts.

(** * Properties of [to_media_payload] *)

Section PayloadFacts.
Context {rt : PyRuntime} {ps : PairSort}.
Variable urlparse : string → option ParseResult.

(** What one payload owes to its item. *)
Definition payload_for (platform : string) (kind : option string) (has_ffmpeg : bool)
    (idx : Z) (item : pyval) (p : MediaPayload) : Prop :=
  mp_index p = idx ∧ mp_platform p = platform ∧ mp_instagram_kind p = kind ∧
  String.length (mp_title p) ≤ 100 ∧
  (platform ≠ "Instagram" → mp_preview_url p = None) ∧
  ∃ d, item = PDict d ∧
       infer_type d = Ok (mp_type p) ∧
       (∃ sm, build_download_options d has_ffmpeg = Ok (mp_download_options p, sm)) ∧
       mp_thumbnail p = dict_get d "thumbnail" ∧
       mp_duration p = dict_get d "duration" ∧
       mp_ext p = dict_get d "ext".

Lemma payload_of_for platform kind has_ffmpeg idx item p :
  payload_of platform kind has_ffmpeg idx item = Ok p →
  payload_for platform kind has_ffmpeg idx item p.
Proof.
  unfold payload_of. destruct item as [| | | | | |d]; try done. intros Hrun.
  apply bind_Ok in Hrun as (media_type & Htype & Hrun).
  apply bind_Ok in Hrun as ([opts sm] & Hopts & Hrun).
  apply bind_Ok in Hrun as (raw & Hraw & Hrun).
  apply bind_Ok in Hrun as (preview & Hpreview & Hrun).
  injection Hrun as <-. unfold payload_for. simpl.
  repeat split; try done.
  - apply take_length.
  - intros Hne. apply str_eqb_false in Hne. rewrite Hne in Hpreview. by injection Hpreview.
  - exists d. repeat split; try done. by exists sm.
Qed.

Lemma payloads_from_indexed platform kind has_ffmpeg idx items payload :
  payloads_from platform kind has_ffmpeg idx items = Ok payload →
  length payload = length items ∧
  ∀ i item p, items !! i = Some item → payload !! i = Some p →
              payload_for platform kind has_ffmpeg (idx + Z.of_nat i) item p.
Proof.
  revert idx payload. induction items as [|item items IH]; intros idx payload Hrun;
    simpl in Hrun.
  - injection Hrun as <-. by split.
  - apply bind_Ok in Hrun as (p0 & Hp0 & Hrun).
    apply bind_Ok in Hrun as (rest & Hrest & Hrun). injection Hrun as <-.
    destruct (IH _ _ Hrest) as [Hlen Hall]. split; [simpl; by rewrite Hlen|].
    intros [|i] item' p Hitem Hp; simpl in *.
    + injection Hitem as <-. injection Hp as <-. rewrite Z.add_0_r.
      by apply payload_of_for.
    + replace (idx + Z.of_nat (S i))%Z with (idx + 1 + Z.of_nat i)%Z by lia.
      by eapply Hall.
Qed.

(** X17. [to_media_payload] returns one payload per item, in order, indexed
    from 1; each carries the platform, the common Instagram kind (none off
    Instagram), a title of at most 100 characters, the type [infer_type]
    gives the item and the options [build_download_options] gives it; off
    Instagram no payload has a preview URL. *)
Theorem to_media_payload_indexed items platform source_url has_ffmpeg payload kind :
  to_media_payload urlparse items platform source_url has_ffmpeg = Ok (payload, kind) →
  length payload = length items ∧
  (platform ≠ "Instagram" → kind = None) ∧
  (platform = "Instagram" →
   kind = Some (detect_instagram_kind urlparse source_url (Z.of_nat (length items)))) ∧
  ∀ i item p, items !! i = Some item → payload !! i = Some p →
              payload_for platform kind has_ffmpeg (1 + Z.of_nat i) item p.
Proof.
  unfold to_media_payload. intros Hrun.
  apply bind_Ok in Hrun as (payload' & Hpayload & Hrun). injection Hrun as <- <-.
  destruct (payloads_from_indexed _ _ _ _ _ _ Hpayload) as [Hlen Hall].
  split; [done|]. split; [|split; [|done]].
  - intros Hne. apply str_eqb_false in Hne. by rewrite Hne.
  - intros ->. done.
Qed.

End PayloadFacts.

(** * Further properties at sample inputs *)

(** X4 at the root with one hollow entry. *)
Lemma flatten_entries_nonempty_witness : [PDict hollow_entry] ≠ [].
Proof. apply (flatten_entries_nonempty hollow_root). reflexivity. Defined.

(** A channel of two playlists and a single video, with null entries. *)
Definition video_a : pydict := [("id", PStr "a")].
Definition video_b : pydict := [("id", PStr "b")].
Definition video_c : pydict := [("id", PStr "c"); ("entries", PNone)].
Definition playlist_ab : pydict :=
  [("id", PStr "p"); ("entries", PList [PDict video_a; PNone; PDict video_b])].
Definition playlist_empty : pydict := [("id", PStr "q"); ("entries", PList [])].
Definition channel : pydict :=
  [("id", PStr "ch");
   ("entries", PList [PNone; PDict playlist_ab; PDict video_c; PDict playlist_empty])].

(** X5 at the channel. *)
Lemma flatten_entries_two_levels_witness :
  flatten_entries channel
  = Ok [PDict video_a; PDict video_b; PDict video_c; PDict playlist_empty].
Proof.
  apply (flatten_entries_two_levels channel
           [PNone; PDict playlist_ab; PDict video_c; PDict playlist_empty] eq_refl).
  apply Forall_cons. split; [by left|].
  apply Forall_cons. split.
  { right. exists playlist_ab. split; [done|]. right. by eexists. }
  apply Forall_cons. split.
  { right. exists video_c. split; [done|]. by left. }
  apply Forall_cons. split; [|apply Forall_nil_2].
  right. exists playlist_empty. split; [done|]. by left.
Defined.

(** X6 at the audio format of bitrate 129.5. *)
Lemma format_score_without_fps_witness :
  format_score (rt := plain_runtime) fmt_140 = Ok (F64.make 259 (-1)).
Proof.
  apply (format_score_without_fps (rt := plain_runtime) fmt_140 (F64.make 259 (-1)));
    reflexivity.
Defined.

(** X7 at the sample item. *)
Lemma selectors_nonempty_witness : "136" ≠ "" ∧ "136+bestaudio/best" ≠ "".
Proof.
  assert (∃ opts sm,
    build_download_options (rt := plain_runtime) sample_item true = Ok (opts, sm) ∧
    sm !! "136" = Some "136+bestaudio/best") as (opts & sm & Hrun & Hl).
  { eexists _, _. split; vm_compute; reflexivity. }
  exact (selectors_nonempty (rt := plain_runtime) sample_item true opts sm Hrun _ _ Hl).
Defined.

(** X8 at the sample item: the option "140" is an audio option. *)
Lemma option_modes_match_codecs_witness :
  ∃ formats fmt,
    dict_get sample_item "formats" = PList formats ∧ PDict fmt ∈ formats ∧
    "140" = format_id_of (rt := plain_runtime) fmt ∧ is_audio_only (rt := plain_runtime) fmt.
Proof.
  assert (∃ opts sm,
    build_download_options (rt := plain_runtime) sample_item true = Ok (opts, sm) ∧
    {| value := "140"; label := "Audio 130 kbps (M4A)"; mode := Audio |} ∈ opts)
    as (opts & sm & Hrun & Hin).
  { eexists _, _. split; [vm_compute; reflexivity|]. set_solver. }
  exact (option_modes_match_codecs (rt := plain_runtime) sample_item true opts sm Hrun _ Hin).
Defined.

(** X10 at the merged workspace. *)
Lemma locate_file_is_finished_witness :
  ∃ first,
    locate_file (rt := plain_runtime) merged_workspace = Ok first ∧
    first ∈ merged_workspace ∧ is_file first = true ∧
    Str.endswith (entry_name first) ".part" = false.
Proof.
  assert (∃ first, locate_file (rt := plain_runtime) merged_workspace = Ok first)
    as (first & Hfirst) by (eexists; vm_compute; reflexivity).
  exists first. split; [done|].
  exact (locate_file_is_finished (rt := plain_runtime) merged_workspace first Hfirst).
Defined.

(** An item without a URL of its own and with two progressive formats. *)
Definition fmt_18 : pydict :=
  [("format_id", PStr "18"); ("url", PStr "https://cdn.example/18.mp4");
   ("vcodec", PStr "avc1"); ("acodec", PStr "mp4a"); ("height", PInt 360);
   ("tbr", PFloat (F64.make 500 0))].

Definition fmt_22_url : pydict :=
  [("format_id", PStr "22"); ("url", PStr " https://cdn.example/22.mp4 ");
   ("vcodec", PStr "avc1"); ("acodec", PStr "mp4a"); ("height", PInt 720);
   ("tbr", PInt 1200)].

Definition preview_item : pydict :=
  [("title", PStr "reel"); ("formats", PList [PDict fmt_18; PDict fmt_136; PDict fmt_22_url])].

(** X13 at that item. *)
Lemma preview_url_provenance_witness :
  "https://cdn.example/22.mp4" ≠ "" ∧
  ("https://cdn.example/22.mp4" = url_of (rt := plain_runtime) preview_item ∨
   url_of (rt := plain_runtime) preview_item = "" ∧
   ∃ formats d, dict_get preview_item "formats" = PList formats ∧ PDict d ∈ formats ∧
                is_progressive (rt := plain_runtime) d = true ∧
                "https://cdn.example/22.mp4" = url_of (rt := plain_runtime) d).
Proof.
  apply (preview_url_provenance (rt := plain_runtime) (ps := plain_pair_sort) preview_item).
  vm_compute. reflexivity.
Defined.

(** X14 at that item: the 720p format is chosen. *)
Lemma preview_url_best_witness :
  ∃ d k, Some "https://cdn.example/22.mp4" = Some (url_of (rt := plain_runtime) d) ∧
         preview_key (rt := plain_runtime) d = Ok k ∧ k.1 = 720%Z.
Proof.
  destruct (preview_url_best (rt := plain_runtime) (ps := plain_pair_sort) preview_item
              [PDict fmt_18; PDict fmt_136; PDict fmt_22_url] eq_refl eq_refl)
    with (r := Some "https://cdn.example/22.mp4")
    as [[Hnone _]|(d & k & Hurl & Hin & _ & Hkey & _)].
  - intros d k Hin _ Hk.
    repeat (apply elem_of_cons in Hin as [[= ->]|Hin]);
      [..|by apply elem_of_nil in Hin]; vm_compute in Hk; injection Hk as <-; discriminate.
  - vm_compute. reflexivity.
  - vm_compute in Hnone. discriminate Hnone.
  - exists d, k. split; [done|]. split; [done|].
    repeat (apply elem_of_cons in Hin as [[= ->]|Hin]);
      [..|by apply elem_of_nil in Hin]; vm_compute in Hurl; try discriminate Hurl.
    vm_compute in Hkey. by injection Hkey as <-.
Defined.

(** X17 at a playlist of two items on YouTube. *)
Lemma to_media_payload_indexed_witness :
  ∃ payload,
    to_media_payload (rt := plain_runtime) (ps := plain_pair_sort) (λ _, None)
      [PDict sample_item; PDict preview_item] "YouTube" "https://youtu.be/x" true
    = Ok (payload, None) ∧
    length payload = 2 ∧ mp_index <$> payload = [1%Z; 2%Z].
Proof.
  assert (∃ payload,
    to_media_payload (rt := plain_runtime) (ps := plain_pair_sort) (λ _, None)
      [PDict sample_item; PDict preview_item] "YouTube" "https://youtu.be/x" true
    = Ok (payload, None)) as (payload & Hrun) by (eexists; vm_compute; reflexivity).
  exists payload. split; [done|].
  destruct (to_media_payload_indexed (rt := plain_runtime) (ps := plain_pair_sort) _ _ _ _ _ _ _
              Hrun) as (Hlen & _ & _ & Hall).
  split; [exact Hlen|].
  destruct payload as [|p1 [|p2 [|p3 rest]]]; try discriminate Hlen.
  destruct (Hall 0 _ p1 eq_refl eq_refl) as (H1 & _).
  destruct (Hall 1 _ p2 eq_refl eq_refl) as (H2 & _).
  simpl. by rewrite H1, H2.
Defined.

(** * The two endpoints ([media], [download]) *)

(** [s.isdigit()], taken as given like the conversions of [PyRuntime]. It
    accepts digits [int] does not read (the superscript two, for one), and
    [int] refuses a text longer than the interpreter allows, so a text that
    [isdigit] accepts may still make [int] raise [ValueError]. What is taken
    for granted is that an index printed by [str] is accepted and read
    back. *)
Class StrDigits {rt : PyRuntime} := {
  str_isdigit : string → bool;
  index_read_back : ∀ i : Z, (0 ≤ i)%Z →
    str_isdigit (Str.of_Z i) = true ∧ int_of_str (Str.of_Z i) = Some i
}.

(** [(request.args.get(name) or "").strip()] *)
Definition request_arg (v : option string) : string :=
  Str.strip (match v with Some s => s | None => "" end).

(** [", ".join(SUPPORTED_PLATFORMS.keys())] *)
Definition supported_names : string := Str.join ", " (map fst SUPPORTED_PLATFORMS).

(** What the download endpoint answers: the file it sends, the description
    of an [abort(400, ...)], or an exception nothing catches. *)
Inductive DownloadResponse :=
| SendFile (file : DirEntry)
| Abort400 (description : string)
| Uncaught (e : exn).

(** [except DownloaderError as err: abort(400, str(err))] *)
Definition abort_on_downloader_error (e : exn) : DownloadResponse :=
  match e with
  | DownloaderError msg => Abort400 msg
  | _ => Uncaught e
  end.

(** [info.get] and [item.get] need a [dict]. *)
Definition as_dict (v : pyval) : result pydict :=
  match v with
  | PDict d => Ok d
  | _ => Raise AttributeError
  end.

(** [entries[i]] for an index that is not negative. *)
Definition list_item (entries : list pyval) (i : Z) : result pyval :=
  match entries !! Z.to_nat i with
  | Some v => Ok v
  | None => Raise IndexError
  end.

(** The body of the metadata endpoint's answer. *)
Record MediaBody := {
  mb_url : string;
  mb_platform : string;
  mb_ffmpeg_available : bool;
  mb_instagram_kind : option string;
  mb_title : string;
  mb_uploader : pyval;
  mb_items : list MediaPayload
}.

(** What the metadata endpoint answers: the body with status 200, an error
    text with status 400, or an exception nothing catches. *)
Inductive MediaResponse :=
| MediaOk (body : MediaBody)
| MediaError (error : string)
| MediaUncaught (e : exn).

(** [except DownloaderError as err: return jsonify({"error": str(err)}), 400] *)
Definition error_on_downloader_error (e : exn) : MediaResponse :=
  match e with
  | DownloaderError msg => MediaError msg
  | _ => MediaUncaught e
  end.

Section Endpoints.
Context {rt : PyRuntime} {ps : PairSort} {sd : StrDigits}.
Variable urlparse : string → option ParseResult.
Variable subprocess_run : history → list string → result CompletedProcess.
Variable YTDLP_COOKIES_FILE : string.
Variable json_loads : string → option pyval.
Variable rglob : history → string → list DirEntry.
(** [ffmpeg_available()], taken not to change during a request. *)
Variable has_ffmpeg : bool.
(** [str(TMP_DIR / str(uuid.uuid4()))]; creating the directory is taken to
    succeed. *)
Variable job_dir : string.

(** Lines 407-413: the checks on the index and the choice of the item. *)
Definition select_item (entries : list pyval) (index : option Z) : DownloadResponse + pyval :=
  let item_count := Z.of_nat (length entries) in
  if (1 <? item_count)%Z then
    match index with
    | None =>
        inl (Abort400 "This URL has multiple items. Include ?index=1 (or another item number).")
    | Some i =>
        if (i <? 1)%Z || (item_count <? i)%Z
        then inl (Abort400 ("Index must be between 1 and " +:+ Str.of_Z item_count +:+ "."))
        else
          match (if negb (i =? 0)%Z then list_item entries (i - 1) else list_item entries 0) with
          | Ok item => inr item
          | Raise e => inl (abort_on_downloader_error e)
          end
    end
  else
    match list_item entries 0 with
    | Ok item => inr item
    | Raise e => inl (abort_on_downloader_error e)
    end.

Definition download (url_arg index_arg format_id_arg : option string) (h : history)
  : DownloadResponse * history :=
  let url := request_arg url_arg in
  let index_raw := request_arg index_arg in
  let format_id := request_arg format_id_arg in
  match (if str_isdigit index_raw then i ← py_int (PStr index_raw); Ok (Some i)
         else Ok None) with
  | Raise e => (Uncaught e, h)
  | Ok index =>
        let invalid := Abort400 ("Invalid URL. Supported platforms: " +:+ supported_names +:+ ".") in
        match detect_platform urlparse url with
        | None => (invalid, h)
        | Some platform =>
            if Str.is_empty platform then (invalid, h)
            else
              match run_yt_dlp_json subprocess_run YTDLP_COOKIES_FILE json_loads url h with
              | (Raise e, h1) => (abort_on_downloader_error e, h1)
              | (Ok info, h1) =>
                  match info' ← as_dict info; flatten_entries info' with
                  | Raise e => (abort_on_downloader_error e, h1)
                  | Ok entries =>
                      let item_count := Z.of_nat (length entries) in
                      match select_item entries index with
                      | inl response => (response, h1)
                      | inr selected_item =>
                          match item ← as_dict selected_item;
                                build_download_options item has_ffmpeg with
                          | Raise e => (abort_on_downloader_error e, h1)
                          | Ok (_, selector_map) =>
                              let format_id := if Str.is_empty format_id then "best" else format_id in
                              match selector_map !! format_id with
                              | None =>
                                  (Abort400 "Selected format is not available for this media item.",
                                   h1)
                              | Some format_selector =>
                                  match run_download subprocess_run YTDLP_COOKIES_FILE rglob
                                          url item_count index job_dir
                                          (if Str.is_empty format_selector then None
                                           else Some format_selector) h1 with
                                  | (Ok downloaded_file, h2) => (SendFile downloaded_file, h2)
                                  | (Raise e, h2) => (abort_on_downloader_error e, h2)
                                  end
                              end
                          end
                      end
                  end
              end
        end
  end.

(** [(payload.get("url") or "").strip()] for
    [payload = request.get_json(silent=True) or {}]; [body] is [None] when
    the request carries no JSON. *)
Definition media_url (body : pyval) : result string :=
  v ← py_get (py_or body (PDict [])) "url";
  match py_or v (PStr "") with
  | PStr s => Ok (Str.strip s)
  | _ => Raise AttributeError
  end.

Definition media (body : pyval) (h : history) : MediaResponse * history :=
  match media_url body with
  | Raise e => (MediaUncaught e, h)
  | Ok url =>
      let invalid := MediaError ("Enter a valid URL from: " +:+ supported_names +:+ ".") in
      match detect_platform urlparse url with
      | None => (invalid, h)
      | Some platform =>
          if Str.is_empty platform then (invalid, h)
          else
            match run_yt_dlp_json subprocess_run YTDLP_COOKIES_FILE json_loads url h with
            | (Raise e, h1) => (error_on_downloader_error e, h1)
            | (Ok info, h1) =>
                match info' ← as_dict info;
                      entries ← flatten_entries info';
                      described ← to_media_payload urlparse entries platform url has_ffmpeg;
                      Ok (info', described) with
                | Raise e => (error_on_downloader_error e, h1)
                | Ok (info', (items, instagram_kind)) =>
                    match title_argument (default (PStr "") (dict_lookup info' "title")) with
                    | Raise e => (MediaUncaught e, h1)
                    | Ok raw =>
                        (MediaOk {| mb_url := url;
                                    mb_platform := platform;
                                    mb_ffmpeg_available := has_ffmpeg;
                                    mb_instagram_kind := instagram_kind;
                                    mb_title := normalize_title raw (platform +:+ " media");
                                    mb_uploader := py_or (dict_get info' "uploader")
                                                         (dict_get info' "channel");
                                    mb_items := items |},
                         h1)
                    end
                end
            end
      end
  end.

End Endpoints.

(** * Properties of the endpoints *)

(** ** Text of an index *)

(** Decimal digits only. *)
Fixpoint all_digits (s : string) : bool :=
  match s with
  | EmptyString => true
  | String c s' => Str.in_range 48 57 c && all_digits s'
  end.

(** The value of a text of decimal digits, most significant digit first. *)
Fixpoint int_of_digits (acc : Z) (s : string) : Z :=
  match s with
  | EmptyString => acc
  | String c s' => int_of_digits (10 * acc + (Z.of_nat (nat_of_ascii c) - 48)) s'
  end.

Lemma digit_not_space c : Str.in_range 48 57 c = true → Str.isspace c = false.
Proof.
  unfold Str.isspace, Str.in_range. generalize (nat_of_ascii c). intros n.
  rewrite andb_true_iff, orb_false_iff, !andb_false_iff, !Nat.leb_le, !Nat.leb_gt. lia.
Qed.

Lemma lstrip_fixed c s : Str.isspace c = false → Str.lstrip (String c s) = String c s.
Proof. intros Hc. simpl. by rewrite Hc. Qed.

Lemma lstrip_idemp s : Str.lstrip (Str.lstrip s) = Str.lstrip s.
Proof.
  induction s as [|c s IH]; [done|]. simpl.
  destruct (Str.isspace c) eqn:Hc; [done|]. by apply lstrip_fixed.
Qed.

Lemma rstrip_idemp s : Str.rstrip (Str.rstrip s) = Str.rstrip s.
Proof. unfold Str.rstrip. by rewrite rev_involutive, lstrip_idemp. Qed.

Lemma strip_idemp s : Str.strip (Str.strip s) = Str.strip s.
Proof.
  assert (Str.lstrip (Str.strip s) = Str.strip s) as Hl.
  { destruct (strip_head s) as [->|(c & s' & -> & Hc)]; [done|]. by apply lstrip_fixed. }
  unfold Str.strip at 1. rewrite Hl. unfold Str.strip. apply rstrip_idemp.
Qed.

Lemma all_digits_app s t : all_digits (s +:+ t) = all_digits s && all_digits t.
Proof.
  induction s as [|c s IH]; [done|].
  rewrite append_cons. simpl. by rewrite IH, andb_assoc.
Qed.

Lemma all_digits_rev s : all_digits (String.rev s) = all_digits s.
Proof.
  induction s as [|c s IH]; [done|].
  change (String c s) with (String c "" +:+ s) at 1.
  rewrite rev_append, all_digits_app, IH. simpl. rewrite andb_true_r. apply andb_comm.
Qed.

Lemma strip_digits s : all_digits s = true → Str.strip s = s.
Proof.
  intros Hs.
  assert (∀ t, all_digits t = true → Str.lstrip t = t) as Hl.
  { intros [|c t]; [done|]. simpl. intros [Hc _]%andb_true_iff.
    by rewrite (digit_not_space c Hc). }
  unfold Str.strip, Str.rstrip. rewrite (Hl s Hs), Hl, rev_involutive; [done|].
  by rewrite all_digits_rev.
Qed.

Lemma digits_of_uint d : all_digits (NilEmpty.string_of_uint d) = true.
Proof.
  induction d as [|d IH|d IH|d IH|d IH|d IH|d IH|d IH|d IH|d IH|d IH]; [done|..];
    simpl; rewrite IH; by vm_compute.
Qed.

Lemma int_of_digits_acc d acc :
  int_of_digits (Z.pos acc) (NilEmpty.string_of_uint d) = Z.pos (Pos.of_uint_acc d acc).
Proof.
  revert acc. induction d as [|d IH|d IH|d IH|d IH|d IH|d IH|d IH|d IH|d IH|d IH];
    intros acc; [done|..]; simpl; rewrite <-IH; f_equal;
    try match goal with
        | |- context [(Z.of_nat (nat_of_ascii ?c) - 48)%Z] =>
            let v := eval vm_compute in (Z.of_nat (nat_of_ascii c) - 48)%Z in
            change (Z.of_nat (nat_of_ascii c) - 48)%Z with v
        end; lia.
Qed.

Lemma int_of_digits_uint d :
  int_of_digits 0 (NilEmpty.string_of_uint d) = Z.of_N (Pos.of_uint d).
Proof.
  induction d as [|d IH|d IH|d IH|d IH|d IH|d IH|d IH|d IH|d IH|d IH]; [done|exact IH|..];
    simpl; by rewrite <-int_of_digits_acc.
Qed.

(** [str] of an index that is not negative is a text of decimal digits
    that is not empty and has the index for its value; [strip] leaves it as
    it is. *)
Lemma index_text i :
  (0 ≤ i)%Z →
  Str.strip (Str.of_Z i) = Str.of_Z i ∧
  Str.is_empty (Str.of_Z i) = false ∧ all_digits (Str.of_Z i) = true ∧
  int_of_digits 0 (Str.of_Z i) = i.
Proof.
  intros Hi. destruct i as [|p|p]; [done| |lia].
  assert (Str.of_Z (Z.pos p) = NilEmpty.string_of_uint (Pos.to_uint p)) as ->.
  { unfold Str.of_Z. simpl. pose proof (DecimalPos.Unsigned.to_uint_nonnil p).
    by destruct (Pos.to_uint p). }
  pose proof (int_of_digits_uint (Pos.to_uint p)) as Hvalue.
  rewrite DecimalPos.Unsigned.of_to in Hvalue. simpl in Hvalue.
  pose proof (digits_of_uint (Pos.to_uint p)) as Hdigits.
  split; [by apply strip_digits|]. split; [|done].
  destruct (NilEmpty.string_of_uint (Pos.to_uint p)); [done|done].
Qed.

(** ** The extractor call and its two callers *)

(** [str] of an [int] is never the text of the flag. *)
Lemma of_Z_not_flag i : Str.of_Z i ≠ "--no-check-certificates".
Proof.
  assert (∀ d text, all_digits text = false → NilEmpty.string_of_uint d ≠ text) as Hdigits.
  { intros d text Htext Heq. by rewrite <-Heq, digits_of_uint in Htext. }
  assert (∀ p, NilZero.string_of_uint (Pos.to_uint p)
               = NilEmpty.string_of_uint (Pos.to_uint p)) as Hnonnil.
  { intros p. pose proof (DecimalPos.Unsigned.to_uint_nonnil p). by destruct (Pos.to_uint p). }
  destruct i as [|p|p]; [done| |]; unfold Str.of_Z; simpl; rewrite Hnonnil.
  - by apply Hdigits.
  - intros [= Heq]. by apply Hdigits in Heq.
Qed.

Lemma base_args_without_flag cookies :
  Str.strip cookies ≠ "--no-check-certificates" →
  "--no-check-certificates" ∉ yt_dlp_base_args cookies.
Proof.
  intros Hcookies. unfold yt_dlp_base_args.
  destruct (Str.is_empty (Str.strip cookies)); set_solver.
Qed.

(** C6. When the first run exits non-zero: if its message matches a
    certificate-verification failure (case-insensitively, the message being
    lower-cased first) and the command lacks "--no-check-certificates",
    exactly one more process is launched, the command with that flag
    inserted at position 1, and its outcome is returned as it is, success or
    failure; if the message does not match, the first result is returned and
    nothing else is launched. The commands the two callers build lack the
    flag whenever the URL, the cookies path, the output directory and the
    format selector are not the text of the flag itself. *)
Theorem run_yt_dlp_command_retry subprocess_run cmd h proc :
  subprocess_run h cmd = Ok proc →
  returncode proc ≠ 0%Z →
  (is_certificate_verify_error (failure_message proc) = true →
   "--no-check-certificates" ∉ cmd →
   run_yt_dlp_command subprocess_run cmd h
   = (subprocess_run (h ++ [cmd]) (insert_at_1 "--no-check-certificates" cmd),
      h ++ [cmd] ++ [insert_at_1 "--no-check-certificates" cmd])) ∧
  (is_certificate_verify_error (failure_message proc) = false →
   run_yt_dlp_command subprocess_run cmd h = (Ok proc, h ++ [cmd])) ∧
  (∀ cookies url,
     url ≠ "--no-check-certificates" → Str.strip cookies ≠ "--no-check-certificates" →
     "--no-check-certificates" ∉ metadata_command cookies url) ∧
  (∀ cookies url item_count index output_dir format_selector,
     url ≠ "--no-check-certificates" → Str.strip cookies ≠ "--no-check-certificates" →
     output_dir ≠ "--no-check-certificates" →
     format_selector ≠ Some "--no-check-certificates" →
     "--no-check-certificates"
       ∉ download_command cookies url item_count index output_dir format_selector).
Proof.
  intros Hrun Hrc. split; [|split; [|split]].
  - intros Hcert Hflag. unfold run_yt_dlp_command, launch. rewrite Hrun.
    apply Z.eqb_neq in Hrc. rewrite Hrc. fold (failure_message proc).
    rewrite Hcert, (bool_decide_eq_false_2 _ Hflag). simpl. by rewrite <-app_assoc.
  - intros Hcert. unfold run_yt_dlp_command, launch. rewrite Hrun.
    apply Z.eqb_neq in Hrc. rewrite Hrc. fold (failure_message proc).
    rewrite Hcert. by rewrite andb_false_r.
  - intros cookies url Hurl Hcookies. unfold metadata_command.
    pose proof (base_args_without_flag cookies Hcookies) as Hbase.
    rewrite not_elem_of_app, !not_elem_of_cons. split; [done|].
    split; [discriminate|]. split; [discriminate|]. split; [done|apply not_elem_of_nil].
  - intros cookies url item_count index output_dir format_selector Hurl Hcookies Hdir Hsel.
    unfold download_command.
    pose proof (base_args_without_flag cookies Hcookies) as Hbase.
    assert (∀ (l : list string) (a : string),
              "--no-check-certificates" ∉ l → "--no-check-certificates" ≠ a →
              "--no-check-certificates" ∉ l ++ [a]) as Hsnoc.
    { intros l a Hl Ha. rewrite not_elem_of_app, not_elem_of_cons.
      split; [done|]. split; [done|apply not_elem_of_nil]. }
    assert (∀ (l : list string) (a b : string),
              "--no-check-certificates" ∉ l → "--no-check-certificates" ≠ a →
              "--no-check-certificates" ≠ b →
              "--no-check-certificates" ∉ l ++ [a; b]) as Hsnoc2.
    { intros l a b Hl Ha Hb. rewrite not_elem_of_app, !not_elem_of_cons.
      split; [done|]. split; [done|]. split; [done|apply not_elem_of_nil]. }
    apply Hsnoc; [|done].
    assert ("--no-check-certificates"
              ∉ yt_dlp_base_args cookies
                ++ ["--restrict-filenames"; "-P"; output_dir; "-o"; "%(title).80s.%(ext)s"])
      as Hfixed.
    { rewrite not_elem_of_app, !not_elem_of_cons. split; [done|].
      split; [discriminate|]. split; [discriminate|]. split; [done|].
      split; [discriminate|]. split; [discriminate|apply not_elem_of_nil]. }
    assert ("--no-check-certificates"
              ∉ match format_selector with
                | Some f =>
                    if Str.is_empty f
                    then yt_dlp_base_args cookies
                         ++ ["--restrict-filenames"; "-P"; output_dir; "-o";
                             "%(title).80s.%(ext)s"]
                    else (yt_dlp_base_args cookies
                          ++ ["--restrict-filenames"; "-P"; output_dir; "-o";
                              "%(title).80s.%(ext)s"]) ++ ["-f"; f]
                | None =>
                    yt_dlp_base_args cookies
                    ++ ["--restrict-filenames"; "-P"; output_dir; "-o"; "%(title).80s.%(ext)s"]
                end) as Hselected.
    { destruct format_selector as [f|]; [|done]. destruct (Str.is_empty f); [done|].
      apply Hsnoc2; [done|discriminate|]. intros <-. by apply Hsel. }
    destruct (1 <? item_count)%Z, index as [i|].
    + apply Hsnoc2; [done|discriminate|]. intros Heq. by apply (of_Z_not_flag i).
    + destruct (item_count <=? 1)%Z; [apply Hsnoc; [done|discriminate]|done].
    + destruct (item_count <=? 1)%Z; [apply Hsnoc; [done|discriminate]|done].
    + destruct (item_count <=? 1)%Z; [apply Hsnoc; [done|discriminate]|done].
Qed.

(** C6 at the metadata query of a URL, with an extractor that passes once
    the check is disabled: two launches, the second with the flag, and the
    second result. *)
Lemma run_yt_dlp_command_retry_witness :
  run_yt_dlp_command strict_certificate (metadata_command "" "https://youtu.be/x") []
  = (Ok {| returncode := 0; stdout := "{}"; stderr := "" |},
     [ ["yt-dlp"; "--no-warnings"; "--dump-single-json"; "--skip-download";
        "https://youtu.be/x"];
       ["yt-dlp"; "--no-check-certificates"; "--no-warnings"; "--dump-single-json";
        "--skip-download"; "https://youtu.be/x"] ]).
Proof.
  destruct (run_yt_dlp_command_retry strict_certificate
              (metadata_command "" "https://youtu.be/x") []
              {| returncode := 1; stdout := "";
                 stderr := "ERROR: unable to get local issuer certificate" |}
              eq_refl) as (Hretry & _ & Hquery & _); [discriminate|].
  rewrite Hretry; [reflexivity|reflexivity|].
  apply Hquery; discriminate.
Defined.

(** ** What the endpoints have in common *)

Lemma detect_platform_named urlparse url platform :
  detect_platform urlparse url = Some platform → Str.is_empty platform = false.
Proof.
  unfold detect_platform. destruct (parse_web_url urlparse url) as [[parsed host]|]; [|done].
  destruct (List.find _ SUPPORTED_PLATFORMS) as [[name domains]|] eqn:Hfind; [|done].
  intros [= <-]. apply find_some in Hfind as [Hin _]. simpl in Hin.
  by repeat (destruct Hin as [[= <- <-]|Hin]; [done|]).
Qed.

Lemma insert_at_1_keeps {A} (x y : A) (l : list A) : y ∈ l → y ∈ insert_at_1 x l.
Proof.
  unfold insert_at_1. intros Hy. rewrite <-(take_drop 1 l) in Hy.
  apply elem_of_app in Hy as [Hy|Hy]; apply elem_of_app; [by left|right; by right].
Qed.

(** What [run_yt_dlp_json] launches. *)
Lemma run_yt_dlp_json_launched subprocess_run cookies json_loads url h :
  ∃ launched,
    (run_yt_dlp_json subprocess_run cookies json_loads url h).2 = h ++ launched ∧
    0 < length launched ≤ 2 ∧
    Forall (λ cmd, "--skip-download" ∈ cmd) launched.
Proof.
  rewrite run_yt_dlp_json_metadata_of. simpl.
  assert ("--skip-download" ∈ metadata_command cookies url) as Hflag.
  { unfold metadata_command. set_solver. }
  destruct (run_yt_dlp_command_cases subprocess_run (metadata_command cookies url) h)
    as [->|[-> _]]; simpl.
  - exists [metadata_command cookies url]. split; [done|]. split; [simpl; lia|].
    by constructor.
  - exists [metadata_command cookies url;
            insert_at_1 "--no-check-certificates" (metadata_command cookies url)].
    split; [done|]. split; [simpl; lia|].
    constructor; [done|]. constructor; [|done]. by apply insert_at_1_keeps.
Qed.

(** ** The download endpoint *)

(** The index the request names ([int] may raise), the format it asks
    for, and the [format_selector or None] handed to [run_download]. *)
Definition requested_index `{StrDigits} (index_arg : option string) : result (option Z) :=
  if str_isdigit (request_arg index_arg)
  then i ← py_int (PStr (request_arg index_arg)); Ok (Some i)
  else Ok None.

Definition requested_format (format_id_arg : option string) : string :=
  if Str.is_empty (request_arg format_id_arg) then "best" else request_arg format_id_arg.

Definition selector_argument (format_selector : string) : option string :=
  if Str.is_empty format_selector then None else Some format_selector.

(** The answer made of the outcome of [run_download]. *)
Definition answer_of (outcome : result DirEntry * history) : DownloadResponse * history :=
  match outcome with
  | (Ok downloaded_file, h2) => (SendFile downloaded_file, h2)
  | (Raise e, h2) => (abort_on_downloader_error e, h2)
  end.

(** The item an index stands for: with several entries the index is given
    and lies between 1 and their number, and the item is the entry at that
    position; otherwise it is the first entry. *)
Definition chosen (entries : list pyval) (index : option Z) (item : pyval) : Prop :=
  if (1 <? Z.of_nat (length entries))%Z
  then ∃ i, index = Some i ∧ (1 ≤ i ≤ Z.of_nat (length entries))%Z ∧
            entries !! Z.to_nat (i - 1) = Some item
  else entries !! 0%nat = Some item.

Section DownloadFacts.
Context {rt : PyRuntime} {sd : StrDigits}.
Variable urlparse : string → option ParseResult.
Variable subprocess_run : history → list string → result CompletedProcess.
Variable cookies : string.
Variable json_loads : string → option pyval.
Variable rglob : history → string → list DirEntry.
Variable has_ffmpeg : bool.
Variable job_dir : string.

(** Everything the endpoint checks before it starts a download: the URL is
    of a supported platform, the metadata was fetched and flattens to
    [entries], the index stands for an item, and the selector map of that
    item gives the requested format the selector. *)
Definition cleared (url : string) (index : option Z) (format_id : string)
    (h h1 : history) (entries : list pyval) (selector : string) : Prop :=
  ∃ platform info item options selector_map,
    detect_platform urlparse url = Some platform ∧
    run_yt_dlp_json subprocess_run cookies json_loads url h = (Ok (PDict info), h1) ∧
    flatten_entries info = Ok entries ∧
    chosen entries index (PDict item) ∧
    build_download_options item has_ffmpeg = Ok (options, selector_map) ∧
    selector_map !! format_id = Some selector.

Lemma select_item_chosen entries index item :
  select_item entries index = inr item → chosen entries index item.
Proof.
  unfold select_item, chosen, list_item.
  destruct (1 <? Z.of_nat (length entries))%Z.
  - destruct index as [i|]; [|done].
    destruct (i <? 1)%Z eqn:Hlow; [done|]. destruct (Z.of_nat (length entries) <? i)%Z eqn:Hhigh;
      [done|]. simpl.
    apply Z.ltb_ge in Hlow, Hhigh.
    destruct (i =? 0)%Z eqn:Hzero; [apply Z.eqb_eq in Hzero; lia|]. simpl.
    destruct (entries !! Z.to_nat (i - 1)) as [v|] eqn:Hv; [|done].
    intros [= <-]. exists i. done.
  - change (Z.to_nat 0) with 0%nat.
    destruct (entries !! 0%nat) as [v|]; simpl; [|done]. by intros [= <-].
Qed.

Lemma select_item_rejects entries index response :
  select_item entries index = inl response → ∀ file, response ≠ SendFile file.
Proof.
  unfold select_item.
  assert (∀ r : result pyval,
            match r with Ok item => inr item | Raise e => inl (abort_on_downloader_error e) end
            = inl response → ∀ file, response ≠ SendFile file) as Hitem.
  { intros [item|e]; [done|]. intros [= <-] file. by destruct e. }
  destruct (1 <? Z.of_nat (length entries))%Z; [|apply Hitem].
  destruct index as [i|]; [|by intros [= <-]].
  destruct ((i <? 1)%Z || _); [by intros [= <-]|]. apply Hitem.
Qed.

Lemma abort_is_no_file e file : abort_on_downloader_error e ≠ SendFile file.
Proof. by destruct e. Qed.

(** The ways a request ends: the index cannot be read and nothing has run;
    the URL is turned down and nothing has run; the metadata was asked for
    and the request is turned down without a download; every check has
    passed and the answer is made of the outcome of [run_download]. *)
Lemma download_cases url_arg index_arg format_id_arg h :
  let run := download urlparse subprocess_run cookies json_loads rglob has_ffmpeg job_dir
               url_arg index_arg format_id_arg h in
  let url := request_arg url_arg in
  (∃ e, requested_index index_arg = Raise e ∧ run = (Uncaught e, h)) ∨
  (∃ index,
     requested_index index_arg = Ok index ∧
     ((detect_platform urlparse url = None ∧ run.2 = h ∧ ∀ file, run.1 ≠ SendFile file) ∨
      (detect_platform urlparse url ≠ None ∧
       run.2 = (run_yt_dlp_json subprocess_run cookies json_loads url h).2 ∧
       ∀ file, run.1 ≠ SendFile file) ∨
      (∃ h1 entries selector,
         cleared url index (requested_format format_id_arg) h h1 entries selector ∧
         run = answer_of (run_download subprocess_run cookies rglob url
                            (Z.of_nat (length entries)) index job_dir
                            (selector_argument selector) h1)))).
Proof.
  intros run url. subst run. unfold download, requested_index.
  fold url. fold (requested_format format_id_arg).
  destruct (if str_isdigit (request_arg index_arg) then _ else _) as [index|e];
    [|left; by exists e].
  right. exists index. split; [done|].
  destruct (detect_platform urlparse url) as [platform|] eqn:Hplatform; [|by left].
  rewrite (detect_platform_named _ _ _ Hplatform).
  right.
  destruct (run_yt_dlp_json subprocess_run cookies json_loads url h) as [[info|e] h1] eqn:Hfetch;
    [|left; split; [done|]; split; [done|]; apply abort_is_no_file].
  destruct info as [| | | | | |info];
    try (left; split; [done|]; split; [done|]; simpl; done).
  simpl. destruct (flatten_entries info) as [entries|e] eqn:Hflat;
    [|left; split; [done|]; split; [done|]; apply abort_is_no_file].
  destruct (select_item entries index) as [response|selected] eqn:Hsel.
  { left. split; [done|]. split; [done|]. simpl. by eapply select_item_rejects. }
  apply select_item_chosen in Hsel.
  destruct selected as [| | | | | |item];
    try (left; split; [done|]; split; [done|]; simpl; done).
  simpl. destruct (build_download_options item has_ffmpeg) as [[options selector_map]|e] eqn:Hopts;
    [|left; split; [done|]; split; [done|]; apply abort_is_no_file].
  destruct (selector_map !! requested_format format_id_arg) as [selector|] eqn:Hselector;
    [|left; split; [done|]; split; [done|]; simpl; done].
  right. exists h1, entries, selector. split; [|done].
  by exists platform, info, item, options, selector_map.
Qed.

(** What [run_download] launches and where its file comes from. *)
Lemma run_download_launched url item_count index output_dir format_selector h :
  let cmd := download_command cookies url item_count index output_dir format_selector in
  let run := run_download subprocess_run cookies rglob url item_count index output_dir
               format_selector h in
  (run.2 = h ++ [cmd] ∨ run.2 = h ++ [cmd; insert_at_1 "--no-check-certificates" cmd]) ∧
  ∀ file, run.1 = Ok file → locate_file (rglob run.2 output_dir) = Ok file.
Proof.
  intros cmd run. subst run. unfold run_download. fold cmd.
  assert ((run_yt_dlp_command subprocess_run cmd h).2 = h ++ [cmd] ∨
          (run_yt_dlp_command subprocess_run cmd h).2
          = h ++ [cmd; insert_at_1 "--no-check-certificates" cmd]) as Hlaunched.
  { destruct (run_yt_dlp_command_cases subprocess_run cmd h) as [->|[-> _]]; [by left|by right]. }
  destruct (run_yt_dlp_command subprocess_run cmd h) as [[proc|e] h1]; simpl in *; [|done].
  destruct (returncode proc =? 0)%Z; simpl; done.
Qed.

Lemma answer_of_history outcome : (answer_of outcome).2 = outcome.2.
Proof. by destruct outcome as [[file|e] h2]. Qed.

Lemma answer_of_file outcome file :
  (answer_of outcome).1 = SendFile file ↔ outcome.1 = Ok file.
Proof.
  destruct outcome as [[file'|e] h2]; simpl.
  - split; by intros [= ->].
  - split; [|done]. intros H. by apply abort_is_no_file in H.
Qed.

Lemma located_is_finished entries first :
  locate_file entries = Ok first → first ∈ finished_files entries.
Proof.
  unfold locate_file. fold (finished_files entries).
  destruct (finished_files entries) as [|f files] eqn:Hfiles; [done|].
  destruct (map snd _) as [|first' rest] eqn:Hsorted; [done|]. intros [= ->].
  assert (first ∈ map snd (list_sort_desc (map (λ p, (st_mtime p, p)) (f :: files)))) as H
    by (rewrite Hsorted; by left).
  apply list_elem_of_fmap in H as (kp & -> & Hkp).
  rewrite list_sort_desc_perm in Hkp.
  apply list_elem_of_fmap in Hkp as (p & -> & Hp). done.
Qed.

(** X18. The download endpoint sends a file only when every check has
    passed: the index could be read, the URL is of a supported platform, the
    metadata was fetched and flattened, the index stands for an item (with
    several items it is given and within range), the requested format (or
    "best") is a key of that item's selector map, and [run_download]
    returned the file with that selector. The file is an entry of the job
    directory, a regular file whose name does not end in ".part". *)
Theorem download_sends_checked_file url_arg index_arg format_id_arg h file h2 :
  download urlparse subprocess_run cookies json_loads rglob has_ffmpeg job_dir
    url_arg index_arg format_id_arg h = (SendFile file, h2) →
  (∃ index h1 entries selector,
     requested_index index_arg = Ok index ∧
     cleared (request_arg url_arg) index (requested_format format_id_arg)
       h h1 entries selector ∧
     run_download subprocess_run cookies rglob (request_arg url_arg)
       (Z.of_nat (length entries)) index job_dir (selector_argument selector) h1
     = (Ok file, h2)) ∧
  file ∈ rglob h2 job_dir ∧ is_file file = true ∧
  Str.endswith (entry_name file) ".part" = false.
Proof.
  intros Hrun.
  destruct (download_cases url_arg index_arg format_id_arg h)
    as [(e & _ & Hraise)|(index & Hindex &
         [(_ & _ & Hno)|[(_ & _ & Hno)|(h1 & entries & selector & Hcleared & Hanswer)]])];
    try (rewrite Hrun in Hno; by destruct (Hno file));
    try (rewrite Hrun in Hraise; discriminate Hraise).
  rewrite Hrun in Hanswer.
  destruct (run_download_launched (request_arg url_arg) (Z.of_nat (length entries))
              index job_dir (selector_argument selector) h1)
    as [_ Hlocated].
  destruct (run_download _ _ _ _ _ _ _ _ _) as [[file'|e] h2'] eqn:Hdl; simpl in Hanswer.
  - injection Hanswer as <- <-. split; [by exists index, h1, entries, selector|].
    specialize (Hlocated file eq_refl). simpl in Hlocated.
    apply located_is_finished in Hlocated. unfold finished_files in Hlocated.
    apply list_elem_of_filter in Hlocated as [[? ?] ?]. done.
  - injection Hanswer as Hanswer _. symmetry in Hanswer. by apply abort_is_no_file in Hanswer.
Qed.

(** X19. One download request launches at most two metadata queries, each
    carrying "--skip-download", followed by at most two download processes.
    A URL of no supported platform launches nothing, and neither does an
    index that cannot be read. A download process is launched only when
    every check has passed, and the first one is the command [run_download]
    builds for the URL, the item count, the index, the job directory and the
    selector of the requested format. *)
Theorem download_launches url_arg index_arg format_id_arg h :
  let run := download urlparse subprocess_run cookies json_loads rglob has_ffmpeg job_dir
               url_arg index_arg format_id_arg h in
  let url := request_arg url_arg in
  ∃ queries downloads,
    run.2 = h ++ queries ++ downloads ∧
    length queries ≤ 2 ∧ length downloads ≤ 2 ∧
    Forall (λ cmd, "--skip-download" ∈ cmd) queries ∧
    (detect_platform urlparse url = None → queries = [] ∧ downloads = []) ∧
    (∀ e, requested_index index_arg = Raise e → queries = [] ∧ downloads = []) ∧
    (downloads ≠ [] →
     ∃ index entries selector,
       requested_index index_arg = Ok index ∧
       cleared url index (requested_format format_id_arg)
         h (h ++ queries) entries selector ∧
       head downloads
       = Some (download_command cookies url (Z.of_nat (length entries))
                 index job_dir (selector_argument selector))).
Proof.
  intros run url. subst run url.
  destruct (download_cases url_arg index_arg format_id_arg h)
    as [(e & _ & Hraise)|(index & Hindex &
         [(Hnone & Hh & _)|[(Hsome & Hh & _)|(h1 & entries & selector & Hcleared & Hanswer)]])].
  - exists [], []. rewrite Hraise. simpl. rewrite app_nil_r.
    split; [done|]. split; [lia|]. split; [lia|]. split; [done|]. split; [done|].
    split; done.
  - exists [], []. rewrite Hh. simpl. rewrite app_nil_r.
    split; [done|]. split; [lia|]. split; [lia|]. split; [done|]. split; [done|].
    split; done.
  - destruct (run_yt_dlp_json_launched subprocess_run cookies json_loads (request_arg url_arg) h)
      as (launched & Hl & Hlen & Hall).
    exists launched, []. rewrite Hh, Hl, app_nil_r.
    split; [done|]. split; [lia|]. split; [simpl; lia|]. split; [done|]. split; [done|].
    split; [|done]. intros e He. rewrite Hindex in He. discriminate He.
  - pose proof Hcleared as (platform & info & item & options & sm & Hp & Hfetch & _).
    destruct (run_yt_dlp_json_launched subprocess_run cookies json_loads (request_arg url_arg) h)
      as (launched & Hl & Hlen & Hall).
    rewrite Hfetch in Hl. simpl in Hl. subst h1.
    destruct (run_download_launched (request_arg url_arg) (Z.of_nat (length entries))
                index job_dir (selector_argument selector)
                (h ++ launched)) as [Hdl _].
    rewrite Hanswer, answer_of_history.
    destruct Hdl as [-> | ->].
    + eexists launched, [_]. rewrite <-app_assoc.
      split; [done|]. split; [lia|]. split; [simpl; lia|]. split; [done|].
      split; [by rewrite Hp|]. split; [intros e He; rewrite Hindex in He; discriminate He|].
      intros _. by exists index, entries, selector.
    + eexists launched, [_; _]. rewrite <-app_assoc.
      split; [done|]. split; [lia|]. split; [simpl; lia|]. split; [done|].
      split; [by rewrite Hp|]. split; [intros e He; rewrite Hindex in He; discriminate He|].
      intros _. by exists index, entries, selector.
Qed.

End DownloadFacts.

(** ** The two endpoints together *)

Section ChoiceFacts.
Context {rt : PyRuntime}.

(** Every value on offer is a key of the selector map, its selector is not
    empty, and the value is a text [strip] leaves as it is. *)
Lemma offered_selector item has_ffmpeg opts sm o :
  build_download_options item has_ffmpeg = Ok (opts, sm) →
  o ∈ opts →
  ∃ selector, sm !! value o = Some selector ∧ selector ≠ "" ∧
              Str.strip (value o) = value o ∧ value o ≠ "".
Proof.
  intros Hrun Ho.
  assert (∃ formats st, selection_ok formats has_ffmpeg st ∧ opts = options st ∧
                        sm = selector_map st) as (formats & st & Hok & -> & ->).
  { destruct (dict_get item "formats") as [| | | | |formats|] eqn:Hf;
      try (unfold build_download_options in Hrun; rewrite Hf in Hrun;
           injection Hrun as <- <-; exists [], (selection_init has_ffmpeg);
           split; [apply selection_init_ok|done]).
    destruct (build_download_options_ok _ _ _ _ _ Hf Hrun) as (st & ? & ? & ?).
    by exists formats, st. }
  destruct Hok as [_ Hkeys _ (rest & Hrest & Hall) Hshape].
  assert (value o ∈ dom (selector_map st)) as Hdom.
  { rewrite Hkeys. apply elem_of_list_to_set, list_elem_of_fmap. by exists o. }
  apply elem_of_dom in Hdom as [selector Hselector].
  assert (Str.strip (value o) = value o ∧ value o ≠ "") as [Hstrip Hvalue].
  { rewrite Hrest in Ho. apply elem_of_cons in Ho as [->|Ho]; [done|].
    rewrite Forall_forall in Hall. destruct (Hall o Ho) as (d & _ & <- & Hne).
    split; [apply strip_idemp|done]. }
  exists selector. split; [done|]. split; [|done].
  destruct (Hshape _ _ Hselector) as [[_ ->]|[_ [->|(-> & _)]]].
  - by destruct has_ffmpeg.
  - done.
  - destruct (value o); [done|]. by rewrite append_cons.
Qed.

End ChoiceFacts.

Section EndpointFacts.
Context {rt : PyRuntime} {ps : PairSort} {sd : StrDigits}.
Variable urlparse : string → option ParseResult.
Variable subprocess_run : history → list string → result CompletedProcess.
Variable cookies : string.
Variable json_loads : string → option pyval.
Variable rglob : history → string → list DirEntry.
Variable has_ffmpeg : bool.
Variable job_dir : string.

Lemma select_item_at entries i item :
  entries !! i = Some item →
  select_item entries (Some (1 + Z.of_nat i)%Z) = inr item ∧
  chosen entries (Some (1 + Z.of_nat i)%Z) item.
Proof.
  intros Hitem. pose proof (lookup_lt_Some _ _ _ Hitem) as Hlt.
  assert (select_item entries (Some (1 + Z.of_nat i)%Z) = inr item) as Hsel.
  { unfold select_item, list_item.
    destruct (1 <? Z.of_nat (length entries))%Z eqn:Hcount.
    - rewrite (proj2 (Z.ltb_ge _ _)) by lia.
      rewrite (proj2 (Z.ltb_ge _ _)) by lia. simpl.
      rewrite (proj2 (Z.eqb_neq _ _)) by lia. simpl.
      replace (Z.to_nat (1 + Z.of_nat i - 1)) with i by lia. by rewrite Hitem.
    - apply Z.ltb_ge in Hcount. assert (i = 0%nat) as -> by lia.
      change (Z.to_nat 0) with 0%nat. by rewrite Hitem. }
  split; [done|]. by apply select_item_chosen.
Qed.

(** X21. What [to_media_payload] lists, the download endpoint accepts:
    for the same metadata, a request that names the index of a listed item
    as [str] prints it and the value of one of its download options passes
    every check, and its answer is the outcome of [run_download] for that
    index with the selector the item's map gives the value, which is not
    empty. *)
Theorem listed_choice_is_downloaded url_arg platform info h h1 entries items kind p o :
  detect_platform urlparse (request_arg url_arg) = Some platform →
  run_yt_dlp_json subprocess_run cookies json_loads (request_arg url_arg) h
  = (Ok (PDict info), h1) →
  flatten_entries info = Ok entries →
  to_media_payload urlparse entries platform (request_arg url_arg) has_ffmpeg
  = Ok (items, kind) →
  p ∈ items →
  o ∈ mp_download_options p →
  ∃ selector,
    selector ≠ "" ∧
    cleared urlparse subprocess_run cookies json_loads has_ffmpeg
      (request_arg url_arg) (Some (mp_index p)) (value o) h h1 entries selector ∧
    requested_index (Some (Str.of_Z (mp_index p))) = Ok (Some (mp_index p)) ∧
    download urlparse subprocess_run cookies json_loads rglob has_ffmpeg job_dir
      url_arg (Some (Str.of_Z (mp_index p))) (Some (value o)) h
    = answer_of (run_download subprocess_run cookies rglob (request_arg url_arg)
                   (Z.of_nat (length entries)) (Some (mp_index p)) job_dir
                   (Some selector) h1).
Proof.
  intros Hplatform Hfetch Hflat Hpayload Hp Ho.
  unfold to_media_payload in Hpayload.
  apply bind_Ok in Hpayload as (payload & Hpayload & Heq). injection Heq as <- <-.
  destruct (payloads_from_indexed _ _ _ _ _ _ Hpayload) as [Hlen Hall].
  apply list_elem_of_lookup in Hp as [i Hi].
  assert (is_Some (entries !! i)) as [item Hitem].
  { apply lookup_lt_is_Some. rewrite <-Hlen. by eapply lookup_lt_Some. }
  destruct (Hall i item p Hitem Hi)
    as (Hindex & _ & _ & _ & _ & d & -> & _ & (sm & Hopts) & _).
  destruct (offered_selector d has_ffmpeg _ sm o Hopts Ho)
    as (selector & Hselector & Hne & Hstrip & Hvalue).
  destruct (select_item_at entries i (PDict d) Hitem) as [Hsel Hchosen].
  destruct (index_text (1 + Z.of_nat i)) as (Htext & _); [lia|].
  destruct (index_read_back (1 + Z.of_nat i)) as [Hdigit Hint]; [lia|].
  rewrite Hindex.
  assert (requested_index (Some (Str.of_Z (1 + Z.of_nat i))) = Ok (Some (1 + Z.of_nat i)%Z))
    as Hread.
  { unfold requested_index, request_arg, py_int. by rewrite Htext, Hdigit, Hint. }
  exists selector. split; [done|]. split.
  { by exists platform, info, d, (mp_download_options p), sm. }
  split; [done|].
  unfold download. cbv zeta. fold (requested_index (Some (Str.of_Z (1 + Z.of_nat i)))).
  rewrite Hread.
  change (request_arg (Some (value o))) with (Str.strip (value o)).
  rewrite Hstrip, Hplatform, (detect_platform_named _ _ _ Hplatform), Hfetch.
  simpl. rewrite Hflat, Hsel. simpl. rewrite Hopts.
  rewrite (proj2 (is_empty_false (value o)) Hvalue), Hselector.
  rewrite (proj2 (is_empty_false selector) Hne). done.
Qed.

(** X20. When the metadata flattens to at most one entry, an index that
    can be read plays no part: two requests that differ only in the index,
    each of them read without an exception, get the same answer and launch
    the same processes. An index that [isdigit] accepts and [int] refuses
    ends the request with the exception, uncaught, before anything is
    launched. *)
Theorem download_single_ignores_index url_arg index_arg index_arg' format_id_arg h
    info h1 entries :
  run_yt_dlp_json subprocess_run cookies json_loads (request_arg url_arg) h
  = (Ok (PDict info), h1) →
  flatten_entries info = Ok entries →
  length entries ≤ 1 →
  (∀ index index',
     requested_index index_arg = Ok index → requested_index index_arg' = Ok index' →
     download urlparse subprocess_run cookies json_loads rglob has_ffmpeg job_dir
       url_arg index_arg format_id_arg h
     = download urlparse subprocess_run cookies json_loads rglob has_ffmpeg job_dir
         url_arg index_arg' format_id_arg h) ∧
  (∀ e, requested_index index_arg = Raise e →
     download urlparse subprocess_run cookies json_loads rglob has_ffmpeg job_dir
       url_arg index_arg format_id_arg h = (Uncaught e, h)).
Proof.
  intros Hfetch Hflat Hlen.
  assert (∀ index, select_item entries index = select_item entries None) as Hsel.
  { intros index. unfold select_item. by rewrite (proj2 (Z.ltb_ge _ _)) by lia. }
  assert (∀ index selector,
            run_download subprocess_run cookies rglob (request_arg url_arg)
              (Z.of_nat (length entries)) index job_dir selector h1
            = run_download subprocess_run cookies rglob (request_arg url_arg)
                (Z.of_nat (length entries)) None job_dir selector h1) as Hdl.
  { intros index selector. unfold run_download, download_command.
    by rewrite (proj2 (Z.ltb_ge _ _)) by lia. }
  split.
  - intros index index' Hindex Hindex'. unfold download. cbv zeta.
    fold (requested_index index_arg). fold (requested_index index_arg').
    rewrite Hindex, Hindex', Hfetch. simpl. rewrite Hflat.
    destruct (detect_platform urlparse (request_arg url_arg)) as [platform|]; [|done].
    destruct (Str.is_empty platform); [done|].
    rewrite (Hsel index), (Hsel index').
    destruct (select_item entries None) as [response|selected]; [done|].
    destruct (as_dict selected ≫= _) as [[options selector_map]|e]; [|done].
    destruct (selector_map !! _) as [selector|]; [|done].
    by rewrite (Hdl index), (Hdl index').
  - intros e He. unfold download. cbv zeta. fold (requested_index index_arg).
    by rewrite He.
Qed.

(** X22. The metadata endpoint launches at most two processes, each a
    query carrying "--skip-download". When it answers with a body, the URL
    of the body is the stripped URL of the request, of the platform the body
    names; the title has at most 100 characters; and the items are those
    [to_media_payload] makes of the flattened metadata, one per entry. *)
Theorem media_only_describes body h :
  let run := media urlparse subprocess_run cookies json_loads has_ffmpeg body h in
  (∃ queries,
     run.2 = h ++ queries ∧ length queries ≤ 2 ∧
     Forall (λ cmd, "--skip-download" ∈ cmd) queries) ∧
  ∀ b, run.1 = MediaOk b →
    media_url body = Ok (mb_url b) ∧
    detect_platform urlparse (mb_url b) = Some (mb_platform b) ∧
    String.length (mb_title b) ≤ 100 ∧
    ∃ info entries,
      run_yt_dlp_json subprocess_run cookies json_loads (mb_url b) h
      = (Ok (PDict info), run.2) ∧
      flatten_entries info = Ok entries ∧
      to_media_payload urlparse entries (mb_platform b) (mb_url b) has_ffmpeg
      = Ok (mb_items b, mb_instagram_kind b) ∧
      length (mb_items b) = length entries.
Proof.
  intros run. subst run. unfold media.
  assert (∃ queries : history, h = h ++ queries ∧ length queries ≤ 2 ∧
            Forall (λ cmd, "--skip-download" ∈ cmd) queries) as Hnone.
  { exists []. rewrite app_nil_r. split; [done|]. split; [simpl; lia|done]. }
  destruct (media_url body) as [url|e] eqn:Hurl; [|by split].
  destruct (detect_platform urlparse url) as [platform|] eqn:Hplatform; [|by split].
  rewrite (detect_platform_named _ _ _ Hplatform).
  destruct (run_yt_dlp_json_launched subprocess_run cookies json_loads url h)
    as (launched & Hl & Hlen & Hall).
  destruct (run_yt_dlp_json subprocess_run cookies json_loads url h) as [[info|e] h1] eqn:Hfetch;
    simpl in Hl; subst h1.
  2: { split; [exists launched; split; [done|]; split; [lia|done]|]. simpl. by destruct e. }
  assert (∀ e b, (error_on_downloader_error e) ≠ MediaOk b) as Herr by (by intros []).
  destruct info as [| | | | | |info];
    try (split; [exists launched; split; [done|]; split; [lia|done]|done]).
  simpl. destruct (flatten_entries info) as [entries|e] eqn:Hflat; simpl.
  2: { split; [exists launched; split; [done|]; split; [lia|done]|]. intros b Hb. by apply Herr in Hb. }
  destruct (to_media_payload urlparse entries platform url has_ffmpeg)
    as [[items kind]|e] eqn:Hpayload; simpl.
  2: { split; [exists launched; split; [done|]; split; [lia|done]|]. intros b Hb. by apply Herr in Hb. }
  destruct (title_argument _) as [raw|e]; simpl.
  2: { split; [exists launched; split; [done|]; split; [lia|done]|done]. }
  split; [exists launched; split; [done|]; split; [lia|done]|].
  intros b [= <-]. simpl. split; [done|]. split; [done|]. split; [apply take_length|].
  exists info, entries. split; [done|]. split; [done|]. split; [done|].
  unfold to_media_payload in Hpayload.
  apply bind_Ok in Hpayload as (payload & Hpayload & Heq). injection Heq as <- <-.
  by destruct (payloads_from_indexed _ _ _ _ _ _ Hpayload) as [Hlen' _].
Qed.

End EndpointFacts.

(** * The endpoints at sample requests *)

(** [int] on a text of decimal digits. The examples hand [int] no other
    text it would read (a sign, blanks around the digits, underscores). *)
Definition int_of_ascii_digits (s : string) : option Z :=
  if negb (Str.is_empty s) && all_digits s then Some (int_of_digits 0 s) else None.

(** [plain_runtime] with that [int]. *)
Definition reading_runtime : PyRuntime :=
  {| py_repr := λ _, "";
     int_of_str := int_of_ascii_digits;
     float_of_str := λ _, None;
     list_sort_desc := λ A, sort_desc F64.ltb fst;
     list_sort_desc_perm := λ A l, sort_desc_perm F64.ltb fst l;
     list_sort_desc_ordered := λ A l _, eq_refl |}.

(** [isdigit] on text whose characters above 127 are read as Latin-1: the
    decimal digits and the superscripts one, two and three (185, 178,
    179), which [isdigit] accepts and [int] does not read. *)
Definition is_digit_char (c : ascii) : bool :=
  Str.in_range 48 57 c || bool_decide (nat_of_ascii c ∈ [178; 179; 185]).

Fixpoint all_digit_chars (s : string) : bool :=
  match s with
  | EmptyString => true
  | String c s' => is_digit_char c && all_digit_chars s'
  end.

Definition latin1_isdigit (s : string) : bool :=
  negb (Str.is_empty s) && all_digit_chars s.

Lemma all_digits_digit_chars s : all_digits s = true → all_digit_chars s = true.
Proof.
  induction s as [|c s IH]; [done|]. simpl. intros [Hc Hs]%andb_true_iff.
  unfold is_digit_char. by rewrite Hc, IH.
Qed.

Lemma latin1_read_back (i : Z) :
  (0 ≤ i)%Z →
  latin1_isdigit (Str.of_Z i) = true ∧ int_of_ascii_digits (Str.of_Z i) = Some i.
Proof.
  intros Hi. destruct (index_text i Hi) as (_ & Hne & Hdigits & Hvalue).
  unfold latin1_isdigit, int_of_ascii_digits.
  by rewrite Hne, Hdigits, (all_digits_digit_chars _ Hdigits), Hvalue.
Qed.

Definition latin1_digits : StrDigits (rt := reading_runtime) :=
  @Build_StrDigits reading_runtime latin1_isdigit latin1_read_back.

(** The metadata of a playlist of two items. *)
Definition playlist_info : pydict :=
  [("title", PStr "  Two   clips "); ("uploader", PStr "someone");
   ("entries", PList [PDict sample_item; PNone; PDict preview_item])].

Definition sample_address : string := " https://WWW.YouTube.com:443/watch?v=1 ".

(** X18 at a request for format 18 of the second item. *)
Lemma download_sends_checked_file_witness :
  ∃ file h2,
    download (sd := latin1_digits) urlparse_sample always_succeeds ""
      (λ _, Some (PDict playlist_info)) (λ _ _, merged_workspace) true "job"
      (Some sample_address) (Some " 2 ") (Some "18") [] = (SendFile file, h2) ∧
    file ∈ merged_workspace ∧ is_file file = true ∧
    Str.endswith (entry_name file) ".part" = false.
Proof.
  assert (∃ file h2,
    download (sd := latin1_digits) urlparse_sample always_succeeds ""
      (λ _, Some (PDict playlist_info)) (λ _ _, merged_workspace) true "job"
      (Some sample_address) (Some " 2 ") (Some "18") [] = (SendFile file, h2))
    as (file & h2 & Hrun) by (eexists _, _; vm_compute; reflexivity).
  exists file, h2. split; [exact Hrun|].
  exact (proj2 (download_sends_checked_file (sd := latin1_digits) urlparse_sample
                  always_succeeds "" (λ _, Some (PDict playlist_info))
                  (λ _ _, merged_workspace) true "job" _ _ _ _ _ _ Hrun)).
Defined.

(** X20 at a single video: index 7 is as good as none, and the superscript
    two for an index ends the request before anything runs. *)
Lemma download_single_ignores_index_witness :
  download (sd := latin1_digits) urlparse_sample always_succeeds ""
    (λ _, Some (PDict sample_item)) (λ _ _, merged_workspace) true "job"
    (Some sample_address) (Some "7") (Some "137") []
  = download (sd := latin1_digits) urlparse_sample always_succeeds ""
      (λ _, Some (PDict sample_item)) (λ _ _, merged_workspace) true "job"
      (Some sample_address) None (Some "137") [] ∧
  download (sd := latin1_digits) urlparse_sample always_succeeds ""
    (λ _, Some (PDict sample_item)) (λ _ _, merged_workspace) true "job"
    (Some sample_address) (Some (String "178"%char EmptyString)) (Some "137") []
  = (Uncaught ValueError, []).
Proof.
  split.
  - destruct (download_single_ignores_index (sd := latin1_digits) urlparse_sample
                always_succeeds "" (λ _, Some (PDict sample_item)) (λ _ _, merged_workspace)
                true "job" (Some sample_address) (Some "7") None (Some "137") []
                sample_item
                [["yt-dlp"; "--no-warnings"; "--dump-single-json"; "--skip-download";
                  "https://WWW.YouTube.com:443/watch?v=1"]]
                [PDict sample_item]) as [Hsame _].
    + vm_compute. reflexivity.
    + vm_compute. reflexivity.
    + simpl. lia.
    + apply (Hsame (Some 7%Z) None); vm_compute; reflexivity.
  - destruct (download_single_ignores_index (sd := latin1_digits) urlparse_sample
                always_succeeds "" (λ _, Some (PDict sample_item)) (λ _ _, merged_workspace)
                true "job" (Some sample_address) (Some (String "178"%char EmptyString))
                None (Some "137") []
                sample_item
                [["yt-dlp"; "--no-warnings"; "--dump-single-json"; "--skip-download";
                  "https://WWW.YouTube.com:443/watch?v=1"]]
                [PDict sample_item]) as [_ Hraise].
    + vm_compute. reflexivity.
    + vm_compute. reflexivity.
    + simpl. lia.
    + apply Hraise. vm_compute. reflexivity.
Defined.

(** X21 at the second item of the playlist and its option 18. *)
Lemma listed_choice_is_downloaded_witness :
  ∃ selector,
    download (sd := latin1_digits) urlparse_sample always_succeeds ""
      (λ _, Some (PDict playlist_info)) (λ _ _, merged_workspace) true "job"
      (Some sample_address) (Some "2") (Some "18") []
    = answer_of
        (run_download (rt := reading_runtime) always_succeeds "" (λ _ _, merged_workspace)
           "https://WWW.YouTube.com:443/watch?v=1" 2 (Some 2%Z) "job" (Some selector)
           [["yt-dlp"; "--no-warnings"; "--dump-single-json"; "--skip-download";
             "https://WWW.YouTube.com:443/watch?v=1"]]).
Proof.
  assert (∃ items,
    to_media_payload (rt := reading_runtime) (ps := plain_pair_sort) urlparse_sample
      [PDict sample_item; PDict preview_item] "YouTube"
      "https://WWW.YouTube.com:443/watch?v=1" true = Ok (items, None) ∧
    ∃ p o, items !! 1%nat = Some p ∧ mp_download_options p !! 2%nat = Some o ∧
           mp_index p = 2%Z ∧ value o = "18")
    as (items & Hitems & p & o & Hp & Ho & Hindex & Hvalue).
  { eexists. split; [vm_compute; reflexivity|]. eexists _, _. by repeat split. }
  destruct (listed_choice_is_downloaded (ps := plain_pair_sort) (sd := latin1_digits)
              urlparse_sample always_succeeds "" (λ _, Some (PDict playlist_info))
              (λ _ _, merged_workspace) true "job" (Some sample_address) "YouTube"
              playlist_info []
              [["yt-dlp"; "--no-warnings"; "--dump-single-json"; "--skip-download";
                "https://WWW.YouTube.com:443/watch?v=1"]]
              [PDict sample_item; PDict preview_item] items None p o)
    as (selector & _ & _ & _ & Hrun).
  - vm_compute. reflexivity.
  - vm_compute. reflexivity.
  - vm_compute. reflexivity.
  - exact Hitems.
  - by eapply list_elem_of_lookup_2.
  - by eapply list_elem_of_lookup_2.
  - exists selector. rewrite Hindex, Hvalue in Hrun. exact Hrun.
Defined.
